(** * paniten-bot: webhook normalisation and alert lifecycle

    A shallow embedding of the decision logic of the alert bot:

    - [JS]       the fragment of JavaScript values and string operations the
                 code relies on (truthiness, [||], [?.], [toString],
                 [toLowerCase], [trim], [encodeURIComponent]);
    - [Utils]    [validateAlertPayload], [extractAlertIdFromCallback] and the
                 keyboard builders (utils module);
    - [App]      [mapSeverity], the four transformers,
                 [detectAndTransformWebhook] and the intake part of the
                 [POST /api/alert] handler (app.js);
    - [Database] the [alerts] table and the SQL statements run by the
                 [Database] class (database.js);
    - [Bot]      the callback listener with [handleAcknowledge] and
                 [handleResolve], and the bookkeeping of [sendAlert]
                 (bot.js);
    - [Env]      [validateWebhookSecret] and [parseAuthorizedUsers]
                 (env.js);
    - [Access]   [authenticateToken] (app.js) and [isUserAuthorized]
                 (bot.js).

    Conventions of the embedding:

    - a string is a sequence of UTF-16 code units below 256, one [ascii] per
      code unit, so no string holds a surrogate; a number is an integer,
      which is what the code's numbers are, exactly, below 2^53;
    - an object lists its own properties in enumeration order;
    - code that can raise returns a [result]; logging is left out;
    - dates and the clock are not evaluated: a time stamp is kept as the
      expression that computes it, and the SQL [strftime('%s','now')] is an
      explicit argument [now];
    - the table is the list of its rows in rowid order, SQL [NULL] is [None];
      a failing storage engine (a rejected promise) is not modelled. *)

From Stdlib Require Import ZArith List Bool Lia.
From Stdlib Require Import Strings.String Strings.Ascii Numbers.DecimalString.
Import ListNotations.

Set Warnings "-register-all".

Open Scope Z_scope.
Open Scope list_scope.
Open Scope string_scope.

(* ------------------------------------------------------------------ *)
(** ** JavaScript values *)

Module JS.

(** Exceptions: the only one the modelled code can raise is a [TypeError]
    (member access on [null]/[undefined], or a conversion to string that
    finds a non-callable [toString]). *)
Inductive exn : Type := TypeError.

Inductive result (A : Type) : Type :=
| Ok (a : A)
| Throw (e : exn).

Arguments Ok {A} a.
Arguments Throw {A} e.

Definition bind {A B : Type} (m : result A) (k : A -> result B) : result B :=
  match m with
  | Ok a => k a
  | Throw e => Throw e
  end.

Notation "x <- m ;; k" := (bind m (fun x => k))
  (at level 61, m at next level, right associativity).

Definition is_ok {A : Type} (m : result A) : bool :=
  match m with Ok _ => true | Throw _ => false end.

(** A value as [JSON.parse] (or an object literal of the code) produces it.
    [VObject] lists the own properties in enumeration order, each key once.
    [VBuiltin] stands for a built-in function object reached through a
    prototype ([Array.prototype.values] is the only one the code can touch). *)
Inductive value : Type :=
| VUndefined
| VNull
| VBool (b : bool)
| VNumber (n : Z)
| VString (s : string)
| VArray (elems : list value)
| VObject (props : list (string * value))
| VBuiltin (name : string).

(** [!!v] *)
Definition truthy (v : value) : bool :=
  match v with
  | VUndefined | VNull => false
  | VBool b => b
  | VNumber n => negb (n =? 0)%Z
  | VString s => negb (s =? "")%string
  | VArray _ | VObject _ | VBuiltin _ => true
  end.

Definition nullish (v : value) : bool :=
  match v with
  | VUndefined | VNull => true
  | _ => false
  end.

(** [a || b] where [b] has no effect. *)
Definition or (a b : value) : value := if truthy a then a else b.

(** [a || b] where evaluating [b] may raise. *)
Definition or_else (a : value) (b : result value) : result value :=
  if truthy a then Ok a else b.

Fixpoint lookup (k : string) (props : list (string * value)) : option value :=
  match props with
  | [] => None
  | (k', v) :: rest => if (k =? k')%string then Some v else lookup k rest
  end.

Definition has_own (k : string) (props : list (string * value)) : bool :=
  match lookup k props with Some _ => true | None => false end.

(** [v.k] for the property names the code reads.  None of them is a member of
    [Object.prototype], [String.prototype], [Number.prototype] or
    [Boolean.prototype]; on an array, [values] is the inherited iterator
    method. *)
Definition get (v : value) (k : string) : result value :=
  match v with
  | VUndefined | VNull => Throw TypeError
  | VObject props =>
      Ok (match lookup k props with Some x => x | None => VUndefined end)
  | VArray _ =>
      Ok (if (k =? "values")%string then VBuiltin "values" else VUndefined)
  | VBool _ | VNumber _ | VString _ | VBuiltin _ => Ok VUndefined
  end.

(** [v?.k] *)
Definition get_opt (v : value) (k : string) : value :=
  match get v k with
  | Ok x => x
  | Throw _ => VUndefined
  end.

Definition string_of_Z (n : Z) : string :=
  NilZero.string_of_int (Z.to_int n).

(** [v[0]] *)
Definition first (v : value) : result value :=
  match v with
  | VUndefined | VNull => Throw TypeError
  | VArray elems => Ok (nth 0 elems VUndefined)
  | VString s =>
      Ok (match s with
          | EmptyString => VUndefined
          | String c _ => VString (String c EmptyString)
          end)
  | VObject props =>
      Ok (match lookup "0" props with Some x => x | None => VUndefined end)
  | VBool _ | VNumber _ | VBuiltin _ => Ok VUndefined
  end.

Definition isArray (v : value) : bool :=
  match v with VArray _ => true | _ => false end.

(** [typeof v === 'string'] *)
Definition is_string (v : value) : bool :=
  match v with VString _ => true | _ => false end.

(** The abstract operation ToString.  An object parsed from JSON holds no
    function, so an own [toString] property is never callable and the
    conversion raises; without it [Object.prototype.toString] answers.  An
    array is joined with commas, [null] and [undefined] elements printing as
    the empty string.  A number prints as its decimal digits, which is the
    built-in's output for an integer below 10^21. *)
Fixpoint ToString (v : value) : result string :=
  match v with
  | VUndefined => Ok "undefined"
  | VNull => Ok "null"
  | VBool true => Ok "true"
  | VBool false => Ok "false"
  | VNumber n => Ok (string_of_Z n)
  | VString s => Ok s
  | VArray elems =>
      (fix join (l : list value) : result string :=
         match l with
         | [] => Ok ""
         | x :: rest =>
             s <- (if nullish x then Ok "" else ToString x) ;;
             match rest with
             | [] => Ok s
             | _ :: _ => r <- join rest ;; Ok (s ++ "," ++ r)
             end
         end) elems
  | VObject props =>
      if has_own "toString" props then Throw TypeError
      else Ok "[object Object]"
  | VBuiltin name => Ok ("function " ++ name ++ "() { [native code] }")
  end.

(** [v.toString()] *)
Definition toString (v : value) : result string :=
  if nullish v then Throw TypeError else ToString v.

(** *** Strings *)

Definition code (c : ascii) : nat := nat_of_ascii c.

(** [String.prototype.toLowerCase] on code units below 256: the letters
    A-Z and the Latin-1 capitals U+00C0..U+00DE (U+00D7 is the
    multiplication sign) move up by 32. *)
Definition lower_char (c : ascii) : ascii :=
  let n := code c in
  if ((65 <=? n) && (n <=? 90))%nat
     || ((192 <=? n) && (n <=? 222) && negb (n =? 215))%nat
  then ascii_of_nat (n + 32)
  else c.

Fixpoint toLowerCase (s : string) : string :=
  match s with
  | EmptyString => EmptyString
  | String c rest => String (lower_char c) (toLowerCase rest)
  end.

(** White space and line terminators below 256: TAB, LF, VT, FF, CR, SP and
    NBSP. *)
Definition is_space (c : ascii) : bool :=
  let n := code c in
  ((9 <=? n) && (n <=? 13) || (n =? 32) || (n =? 160))%nat.

Fixpoint trimStart (s : string) : string :=
  match s with
  | EmptyString => EmptyString
  | String c rest => if is_space c then trimStart rest else s
  end.

Fixpoint trimEnd (s : string) : string :=
  match s with
  | EmptyString => EmptyString
  | String c rest =>
      match trimEnd rest with
      | EmptyString => if is_space c then EmptyString else String c EmptyString
      | r => String c r
      end
  end.

(** [String.prototype.trim] *)
Definition trim (s : string) : string := trimEnd (trimStart s).

(** [Array.prototype.includes] on strings *)
Definition includes (s : string) (l : list string) : bool :=
  existsb (String.eqb s) l.

(** [Array.prototype.join] on strings *)
Fixpoint join (sep : string) (l : list string) : string :=
  match l with
  | [] => ""
  | [s] => s
  | s :: rest => s ++ sep ++ join sep rest
  end.

Definition hex_digit (n : nat) : ascii :=
  ascii_of_nat (if (n <? 10)%nat then 48 + n else 55 + n).

Definition percent (byte : nat) : string :=
  String "%" (String (hex_digit (byte / 16)) (String (hex_digit (byte mod 16)) "")).

Definition is_digit (c : ascii) : bool :=
  let n := code c in ((48 <=? n) && (n <=? 57))%nat.

Definition unreserved (c : ascii) : bool :=
  let n := code c in
  is_digit c
  || ((65 <=? n) && (n <=? 90))%nat
  || ((97 <=? n) && (n <=? 122))%nat
  || includes (String c "") ["-"; "_"; "."; "!"; "~"; "*"; "'"; "("; ")"].

(** [encodeURIComponent] of a string: unreserved characters stay, every other
    code unit is written as the escaped bytes of its UTF-8 encoding.  The
    built-in raises a [URIError] on a lone surrogate; code units below 256
    are never surrogates, so that case lies outside the strings modelled
    here. *)
Fixpoint encodeURI_string (s : string) : string :=
  match s with
  | EmptyString => EmptyString
  | String c rest =>
      let n := code c in
      (if unreserved c then String c ""
       else if (n <? 128)%nat then percent n
       else percent (192 + n / 64) ++ percent (128 + n mod 64))
      ++ encodeURI_string rest
  end.

Definition encodeURIComponent (v : value) : result string :=
  s <- ToString v ;; Ok (encodeURI_string s).

Fixpoint index_entries (i : nat) (l : list value) : list (string * value) :=
  match l with
  | [] => []
  | x :: rest => (string_of_Z (Z.of_nat i), x) :: index_entries (S i) rest
  end.

Fixpoint chars (s : string) : list value :=
  match s with
  | EmptyString => []
  | String c rest => VString (String c "") :: chars rest
  end.

(** [Object.entries(v)] for a non-nullish [v] ([Object.keys] is its first
    projection). *)
Definition entries (v : value) : result (list (string * value)) :=
  match v with
  | VUndefined | VNull => Throw TypeError
  | VObject props => Ok props
  | VArray elems => Ok (index_entries 0 elems)
  | VString s => Ok (index_entries 0 (chars s))
  | VBool _ | VNumber _ | VBuiltin _ => Ok []
  end.

End JS.

Import JS.

(* ------------------------------------------------------------------ *)
(** ** utils: payload validation and callback parsing *)

Module Utils.

Inductive validation : Type :=
| Valid
| Invalid (error : string).

Definition valid (v : validation) : bool :=
  match v with Valid => true | Invalid _ => false end.

Definition required : list string := ["title"; "source"; "severity"; "message"].
Definition validSeverities : list string := ["critical"; "warning"; "info"].

(** The loop over [required]: the first field that is falsy or not a string. *)
Fixpoint first_bad_field (payload : value) (fields : list string)
  : result (option string) :=
  match fields with
  | [] => Ok None
  | field :: rest =>
      v <- get payload field ;;
      if negb (truthy v) || negb (is_string v) then Ok (Some field)
      else first_bad_field payload rest
  end.

(** [validSeverities.includes(v)] *)
Definition includes_value (v : value) (l : list string) : bool :=
  match v with
  | VString s => includes s l
  | _ => false
  end.

(** [v.length > n] *)
Definition length_gt (v : value) (n : Z) : bool :=
  match v with
  | VString s => (n <? Z.of_nat (String.length s))%Z
  | VArray l => (n <? Z.of_nat (List.length l))%Z
  | _ => false
  end.

Definition validateAlertPayload (payload : value) : result validation :=
  bad <- first_bad_field payload required ;;
  match bad with
  | Some field => Ok (Invalid ("Missing or invalid field: " ++ field))
  | None =>
      severity <- get payload "severity" ;;
      if negb (includes_value severity validSeverities) then
        Ok (Invalid ("Invalid severity. Must be one of: "
                     ++ join ", " validSeverities))
      else
        title <- get payload "title" ;;
        if length_gt title 200 then
          Ok (Invalid "Title too long (max 200 characters)")
        else
          message <- get payload "message" ;;
          if length_gt message 2000 then
            Ok (Invalid "Message too long (max 2000 characters)")
          else Ok Valid
  end.

(** *** Callback data *)

Fixpoint all_digits (s : string) : bool :=
  match s with
  | EmptyString => true
  | String c rest => is_digit c && all_digits rest
  end.

Fixpoint strip_prefix (p s : string) : option string :=
  match p with
  | EmptyString => Some s
  | String a p' =>
      match s with
      | EmptyString => None
      | String b s' => if Ascii.eqb a b then strip_prefix p' s' else None
      end
  end.

(** [s.match(/^<prefix>(\d+)$/)]: the capture group when the whole of [s] is
    the prefix followed by one or more decimal digits. *)
Definition match_digits (prefix s : string) : option string :=
  match strip_prefix prefix s with
  | Some rest =>
      if negb (rest =? "")%string && all_digits rest then Some rest else None
  | None => None
  end.

(** The digit loop of [parseInt]: it stops at the first character that is not
    a decimal digit. *)
Fixpoint parse_digits (acc : Z) (s : string) : Z :=
  match s with
  | EmptyString => acc
  | String c rest =>
      if is_digit c then parse_digits (10 * acc + Z.of_nat (code c - 48)) rest
      else acc
  end.

(** [parseInt(s)] for a string that starts neither with white space, a sign
    nor a radix prefix (the argument is a [\d+] capture): [None] is [NaN].
    The number is kept exact, as the built-in keeps it below 2^53; above,
    the built-in answers with the nearest double. *)
Definition parseInt (s : string) : option Z :=
  match s with
  | EmptyString => None
  | String c _ => if is_digit c then Some (parse_digits 0 s) else None
  end.

Record callback : Type := { id : option Z; action : string }.

Definition extractAlertIdFromCallback (callbackData : string) : option callback :=
  let ackMatch := match_digits "ack_" callbackData in
  let resolveMatch := match_digits "resolve_" callbackData in
  match ackMatch with
  | Some digits => Some {| id := parseInt digits; action := "acknowledge" |}
  | None =>
      match resolveMatch with
      | Some digits => Some {| id := parseInt digits; action := "resolve" |}
      | None => None
      end
  end.

(** [callback_data] of [createAcknowledgeKeyboard] and [createResolveKeyboard] *)
Definition createAcknowledgeKeyboard (alertId : Z) : string :=
  "ack_" ++ string_of_Z alertId.

Definition createResolveKeyboard (alertId : Z) : string :=
  "resolve_" ++ string_of_Z alertId.

End Utils.

Import Utils.

(* ------------------------------------------------------------------ *)
(** ** app.js: severity mapping and format detection *)

Module App.

(** The [metadata] object the transformers build. *)
Record Metadata : Type := {
  md_status : value;
  md_labels : value;
  md_annotations : value;
  md_values : value;
  md_urls : list (string * value)
}.

(** A time stamp, kept as the expression that computes it (dates and clock
    readings are not evaluated). *)
Inductive Timestamp : Type :=
| DateNow                    (* Date.now() *)
| DateGetTime (v : value)    (* new Date(v).getTime() *)
| Times1000 (v : value)      (* v * 1000 *)
| Supplied (v : value).      (* the caller's own value *)

Record AlertInput : Type := {
  title : value;
  source : value;
  severity : string;
  message : value;
  timestamp : Timestamp;
  metadata : option Metadata
}.

(** Converting [v] to a primitive (in [new Date(v)] and in [v * 1000]) raises
    exactly when [ToString v] does. *)
Definition getTime (v : value) : result Timestamp :=
  _ <- ToString v ;; Ok (DateGetTime v).

Definition times1000 (v : value) : result Timestamp :=
  _ <- ToString v ;; Ok (Times1000 v).

Definition mapSeverity (severity status : value) (source : string)
  : result string :=
  if negb (truthy severity) && negb (truthy status) then Ok "info"
  else
    s <- toString (or (or severity status) (VString "")) ;;
    let severityStr := toLowerCase s in
    if includes severityStr ["critical"; "warning"; "info"] then Ok severityStr
    else if includes source ["grafana"; "prometheus"] then
      Ok (if (severityStr =? "firing")%string then "warning"
          else if (severityStr =? "resolved")%string then "info"
          else if (severityStr =? "pending")%string then "info"
          else "warning")
    else if (source =? "zabbix")%string then
      Ok (if includes severityStr ["5"; "disaster"] then "critical"
          else if includes severityStr ["4"; "high"] then "critical"
          else if includes severityStr ["3"; "average"] then "warning"
          else if includes severityStr ["2"; "warning"] then "warning"
          else if includes severityStr ["1"; "information"] then "info"
          else if includes severityStr ["0"; "not_classified"] then "info"
          else "warning")
    else
      Ok (if includes severityStr
               ["error"; "fatal"; "emergency"; "alert"; "high"; "urgent"]
          then "critical"
          else if includes severityStr ["warn"; "warning"; "medium"; "moderate"]
          then "warning"
          else if includes severityStr
                    ["info"; "information"; "notice"; "low"; "debug"; "trace"]
          then "info"
          else "info").

Fixpoint map_result {A B : Type} (f : A -> result B) (l : list A)
  : result (list B) :=
  match l with
  | [] => Ok []
  | x :: rest => y <- f x ;; ys <- map_result f rest ;; Ok (y :: ys)
  end.

(** One [matcher=key%3Dvalue] parameter of the silence link. *)
Definition matcher (kv : string * value) : result string :=
  k <- encodeURIComponent (VString (fst kv)) ;;
  v <- encodeURIComponent (snd kv) ;;
  Ok ("matcher=" ++ k ++ "%3D" ++ v).

Definition empty_object : value := VObject [].

Definition transformGrafanaWebhook (payload : value) : result AlertInput :=
  alerts <- get payload "alerts" ;;
  firstAlert <- first alerts ;;
  status <- get payload "status" ;;
  labels <- get firstAlert "labels" ;;
  annotations <- get firstAlert "annotations" ;;
  values <- get firstAlert "values" ;;
  externalURL <- get payload "externalURL" ;;
  let urls := if truthy externalURL then [("source", externalURL)] else [] in
  urls <- (if truthy labels && truthy externalURL then
             es <- entries labels ;;
             matchers <- map_result matcher es ;;
             base <- ToString externalURL ;;
             Ok (urls ++ [("silence",
                           VString (base
                             ++ "/alerting/silence/new?alertmanager=grafana&"
                             ++ join "&" matchers))])%list
           else Ok urls) ;;
  commonAnnotations <- get payload "commonAnnotations" ;;
  receiver <- get payload "receiver" ;;
  sev <- mapSeverity (get_opt labels "severity") status "grafana" ;;
  msg <- or_else (or (get_opt annotations "description")
                     (get_opt annotations "summary"))
                 (name <- ToString (get_opt labels "alertname") ;;
                  Ok (VString ("Alert: " ++ name))) ;;
  startsAt <- get firstAlert "startsAt" ;;
  ts <- (if truthy startsAt then getTime startsAt else Ok DateNow) ;;
  Ok {| title := or (or (or (get_opt annotations "summary")
                            (get_opt commonAnnotations "summary"))
                        (get_opt labels "alertname"))
                    (VString "Grafana Alert");
        source := or (or (or (get_opt labels "instance")
                             (get_opt labels "job"))
                         receiver)
                     (VString "Grafana");
        severity := sev;
        message := msg;
        timestamp := ts;
        metadata := Some {| md_status := or status (VString "firing");
                            md_labels := or labels empty_object;
                            md_annotations := or annotations empty_object;
                            md_values := or values empty_object;
                            md_urls := urls |} |}.

Definition transformPrometheusWebhook (payload : value) : result AlertInput :=
  alerts <- get payload "alerts" ;;
  firstAlert <- first alerts ;;
  status <- get payload "status" ;;
  alertStatus <- get firstAlert "status" ;;
  labels <- get firstAlert "labels" ;;
  annotations <- get firstAlert "annotations" ;;
  values <- get firstAlert "values" ;;
  externalURL <- get payload "externalURL" ;;
  sev <- mapSeverity (get_opt labels "severity") status "prometheus" ;;
  startsAt <- get firstAlert "startsAt" ;;
  ts <- (if truthy startsAt then getTime startsAt else Ok DateNow) ;;
  Ok {| title := or (or (get_opt annotations "summary")
                        (get_opt labels "alertname"))
                    (VString "Prometheus Alert");
        source := or (or (get_opt labels "instance") (get_opt labels "job"))
                     (VString "Prometheus");
        severity := sev;
        message := or (or (get_opt annotations "description")
                          (get_opt annotations "summary"))
                      (VString "Prometheus alert triggered");
        timestamp := ts;
        metadata := Some {| md_status := or (or status alertStatus)
                                            (VString "firing");
                            md_labels := or labels empty_object;
                            md_annotations := or annotations empty_object;
                            md_values := or values empty_object;
                            md_urls := if truthy externalURL
                                       then [("source", externalURL)]
                                       else [] |} |}.

(** [v === '1'] *)
Definition is_string_1 (v : value) : bool :=
  match v with
  | VString s => (s =? "1")%string
  | _ => false
  end.

Definition transformZabbixWebhook (payload : value) : result AlertInput :=
  event <- get payload "event" ;;
  trigger <- get payload "trigger" ;;
  host <- get payload "host" ;;
  name <- get trigger "name" ;;
  sev <- mapSeverity (get_opt trigger "priority") (get_opt event "value")
                     "zabbix" ;;
  ts <- (if truthy (get_opt event "clock")
         then times1000 (get_opt event "clock")
         else Ok DateNow) ;;
  Ok {| title := or (or name (get_opt event "name")) (VString "Zabbix Alert");
        source := or (or (get_opt host "name") (get_opt trigger "host"))
                     (VString "Zabbix");
        severity := sev;
        message := or (or (get_opt trigger "description")
                          (get_opt event "description"))
                      (VString "Zabbix trigger activated");
        timestamp := ts;
        metadata :=
          Some {| md_status := VString (if is_string_1 (get_opt event "value")
                                        then "Problem" else "OK");
                  md_labels :=
                    VObject [("trigger", get_opt trigger "name");
                             ("host", get_opt host "name");
                             ("priority", get_opt trigger "priority")];
                  md_annotations :=
                    VObject [("description", get_opt trigger "description")];
                  md_values := empty_object;
                  md_urls := if truthy (get_opt trigger "url")
                             then [("source", get_opt trigger "url")]
                             else [] |} |}.

Definition reserved : list string :=
  ["title"; "source"; "severity"; "message"; "timestamp"; "status"; "level";
   "priority"].

(** The [forEach] over [Object.keys(payload)]: every key outside [reserved]
    becomes an own property of [labels].  Assigning to the key [__proto__]
    goes to the prototype setter and adds no own property. *)
Definition copied (kv : string * value) : bool :=
  negb (includes (fst kv) reserved) && negb (fst kv =? "__proto__")%string.

Definition transformGenericWebhook (payload : value) : result AlertInput :=
  status <- get payload "status" ;;
  level <- get payload "level" ;;
  props <- entries payload ;;
  ptitle <- get payload "title" ;;
  subject <- get payload "subject" ;;
  alert <- get payload "alert" ;;
  psource <- get payload "source" ;;
  service <- get payload "service" ;;
  host <- get payload "host" ;;
  pseverity <- get payload "severity" ;;
  priority <- get payload "priority" ;;
  sev <- mapSeverity (or (or pseverity level) priority) status "generic" ;;
  pmessage <- get payload "message" ;;
  description <- get payload "description" ;;
  ptimestamp <- get payload "timestamp" ;;
  ts <- (if truthy ptimestamp then getTime ptimestamp else Ok DateNow) ;;
  Ok {| title := or (or (or ptitle subject) alert) (VString "Generic Alert");
        source := or (or (or psource service) host) (VString "Webhook");
        severity := sev;
        message := or (or pmessage description) (VString "Alert received");
        timestamp := ts;
        metadata := Some {| md_status := or (or status level) (VString "active");
                            md_labels := VObject (filter copied props);
                            md_annotations := empty_object;
                            md_values := empty_object;
                            md_urls := [] |} |}.

(** The five structural tests of [detectAndTransformWebhook], in the order
    the function tries them. *)
Definition is_native (payload : value) : result bool :=
  t <- get payload "title" ;;
  s <- get payload "source" ;;
  sv <- get payload "severity" ;;
  m <- get payload "message" ;;
  if truthy t && truthy s && truthy sv && truthy m then
    validation <- validateAlertPayload payload ;;
    Ok (valid validation)
  else Ok false.

Definition is_grafana (payload : value) : result bool :=
  alerts <- get payload "alerts" ;;
  receiver <- get payload "receiver" ;;
  Ok (truthy alerts && isArray alerts && truthy receiver).

Definition is_prometheus (payload : value) : result bool :=
  alerts <- get payload "alerts" ;;
  groupKey <- get payload "groupKey" ;;
  Ok (truthy alerts && isArray alerts && truthy groupKey).

Definition is_zabbix (payload : value) : result bool :=
  trigger <- get payload "trigger" ;;
  event <- get payload "event" ;;
  problem <- get payload "problem" ;;
  Ok (truthy trigger && (truthy event || truthy problem)).

Definition is_generic (payload : value) : result bool :=
  m <- get payload "message" ;;
  status <- get payload "status" ;;
  level <- get payload "level" ;;
  priority <- get payload "priority" ;;
  Ok (truthy m && (truthy status || truthy level || truthy priority)).

Definition transformed (r : result AlertInput) : result (option AlertInput) :=
  a <- r ;; Ok (Some a).

(** [None] is the [null] the function returns when nothing is to transform. *)
Definition detectAndTransformWebhook (payload : value)
  : result (option AlertInput) :=
  native <- is_native payload ;;
  if native then Ok None
  else
    grafana <- is_grafana payload ;;
    if grafana then transformed (transformGrafanaWebhook payload)
    else
      prometheus <- is_prometheus payload ;;
      if prometheus then transformed (transformPrometheusWebhook payload)
      else
        zabbix <- is_zabbix payload ;;
        if zabbix then transformed (transformZabbixWebhook payload)
        else
          generic <- is_generic payload ;;
          if generic then transformed (transformGenericWebhook payload)
          else Ok None.

(** [v.trim()] and [v.toLowerCase()]: methods of strings only. *)
Definition call_trim (v : value) : result value :=
  match v with
  | VString s => Ok (VString (trim s))
  | _ => Throw TypeError
  end.

Definition call_toLowerCase (v : value) : result string :=
  match v with
  | VString s => Ok (toLowerCase s)
  | _ => Throw TypeError
  end.

(** What the [POST /api/alert] handler decides before it touches the
    database: a 400 response with the validation error, or the [alertData]
    it will store. *)
Inductive intake : Type :=
| BadRequest (details : string)
| AlertData (a : AlertInput).

Definition postAlert (body : value) : result intake :=
  t <- detectAndTransformWebhook body ;;
  match t with
  | Some a =>
      (* the template literal of the [console.log] converts title and
         source to strings *)
      _ <- ToString (title a) ;;
      _ <- ToString (source a) ;;
      Ok (AlertData a)
  | None =>
      validation <- validateAlertPayload body ;;
      match validation with
      | Invalid error => Ok (BadRequest error)
      | Valid =>
          t <- get body "title" ;; t <- call_trim t ;;
          s <- get body "source" ;; s <- call_trim s ;;
          sv <- get body "severity" ;; sv <- call_toLowerCase sv ;;
          m <- get body "message" ;; m <- call_trim m ;;
          ts <- get body "timestamp" ;;
          Ok (AlertData {| title := t;
                           source := s;
                           severity := sv;
                           message := m;
                           timestamp := if truthy ts then Supplied ts
                                        else DateNow;
                           metadata := None |})
      end
  end.

End App.

Import App.

(* ------------------------------------------------------------------ *)
(** ** database.js: the [alerts] table *)

Module Database.

(** One row of [alerts], a column per field.  [None] is SQL [NULL]; the two
    flags are [BOOLEAN DEFAULT FALSE] and are only ever written as [TRUE]. *)
Record Row : Type := {
  id : Z;
  title : string;
  source : string;
  severity : string;
  message : string;
  timestamp : Z;
  created_at : Z;
  metadata : option string;
  telegram_message_id : option Z;
  chat_id : option Z;
  acknowledged : bool;
  acknowledged_by : option string;
  acknowledged_by_id : option Z;
  acknowledged_by_name : option string;
  acknowledged_at : option Z;
  resolved : bool;
  resolved_by : option string;
  resolved_by_id : option Z;
  resolved_by_name : option string;
  resolved_at : option Z
}.

Definition table : Type := list Row.

(** The bound parameters of the [INSERT] of [createAlert]: the columns the
    caller supplies, [metadata] already serialised. *)
Record NewAlert : Type := {
  new_title : string;
  new_source : string;
  new_severity : string;
  new_message : string;
  new_timestamp : Z;
  new_metadata : option string
}.

(** [extractUserInfo(from)]: Telegram always sends [id]; the names may be
    missing. *)
Record UserInfo : Type := {
  username : option string;
  user_id : Z;
  firstName : option string;
  lastName : option string
}.

(** [UPDATE alerts SET ... WHERE ...]: the new table and [this.changes]. *)
Definition sql_update (where_ : Row -> bool) (set : Row -> Row) (t : table)
  : table * nat :=
  (map (fun r => if where_ r then set r else r) t,
   List.length (filter where_ t)).

(** [COUNT( * )] *)
Definition sql_count (t : table) : Z := Z.of_nat (List.length t).

(** [SUM(e)]: [NULL] when there is no row. *)
Definition sql_sum (e : Row -> Z) (t : table) : option Z :=
  match t with
  | [] => None
  | _ :: _ => Some (fold_right Z.add 0 (map e t))
  end.

(** [CASE WHEN c THEN 1 ELSE 0 END] *)
Definition case_when (c : Row -> bool) (r : Row) : Z := if c r then 1 else 0.

(** The rowid [AUTOINCREMENT] hands out: one more than the largest ever used
    (rows are never deleted, so the largest one present). *)
Definition next_id (t : table) : Z := 1 + fold_right Z.max 0 (map id t).

(** [createAlert]: [None] when the [CHECK] on [severity] rejects the insert;
    otherwise [lastID] and the table with the new row, whose other columns
    take their defaults.  The [NOT NULL] constraints cannot fail on a
    [NewAlert], whose texts are strings and whose time stamp is an integer;
    a parameter bound as [NULL] (a [NaN] time stamp) is outside this type. *)
Definition createAlert (a : NewAlert) (now : Z) (t : table)
  : option (Z * table) :=
  if includes (new_severity a) ["critical"; "warning"; "info"] then
    let lastID := next_id t in
    Some (lastID,
          (t ++ [ {| id := lastID;
                     title := new_title a;
                     source := new_source a;
                     severity := new_severity a;
                     message := new_message a;
                     timestamp := new_timestamp a;
                     created_at := now;
                     metadata := new_metadata a;
                     telegram_message_id := None;
                     chat_id := None;
                     acknowledged := false;
                     acknowledged_by := None;
                     acknowledged_by_id := None;
                     acknowledged_by_name := None;
                     acknowledged_at := None;
                     resolved := false;
                     resolved_by := None;
                     resolved_by_id := None;
                     resolved_by_name := None;
                     resolved_at := None |} ])%list)
  else None.

Definition set_telegram (msg chat : Z) (r : Row) : Row :=
  {| id := id r; title := title r; source := source r;
     severity := severity r; message := message r;
     timestamp := timestamp r; created_at := created_at r;
     metadata := metadata r;
     telegram_message_id := Some msg;
     chat_id := Some chat;
     acknowledged := acknowledged r;
     acknowledged_by := acknowledged_by r;
     acknowledged_by_id := acknowledged_by_id r;
     acknowledged_by_name := acknowledged_by_name r;
     acknowledged_at := acknowledged_at r;
     resolved := resolved r;
     resolved_by := resolved_by r;
     resolved_by_id := resolved_by_id r;
     resolved_by_name := resolved_by_name r;
     resolved_at := resolved_at r |}.

Definition updateTelegramInfo (alertId telegramMessageId chatId : Z)
  (t : table) : nat * table :=
  let '(t', changes) :=
    sql_update (fun r => id r =? alertId)%Z
               (set_telegram telegramMessageId chatId) t in
  (changes, t').

(** [[firstName, lastName].filter(Boolean).join(' ')] *)
Definition present (s : option string) : list string :=
  match s with
  | Some x => if (x =? "")%string then [] else [x]
  | None => []
  end.

Definition fullName (u : UserInfo) : string :=
  join " " (present (firstName u) ++ present (lastName u))%list.

Definition set_acknowledged (u : UserInfo) (now : Z) (r : Row) : Row :=
  {| id := id r; title := title r; source := source r;
     severity := severity r; message := message r;
     timestamp := timestamp r; created_at := created_at r;
     metadata := metadata r;
     telegram_message_id := telegram_message_id r;
     chat_id := chat_id r;
     acknowledged := true;
     acknowledged_by := username u;
     acknowledged_by_id := Some (user_id u);
     acknowledged_by_name := Some (fullName u);
     acknowledged_at := Some now;
     resolved := resolved r;
     resolved_by := resolved_by r;
     resolved_by_id := resolved_by_id r;
     resolved_by_name := resolved_by_name r;
     resolved_at := resolved_at r |}.

Definition set_resolved (u : UserInfo) (now : Z) (r : Row) : Row :=
  {| id := id r; title := title r; source := source r;
     severity := severity r; message := message r;
     timestamp := timestamp r; created_at := created_at r;
     metadata := metadata r;
     telegram_message_id := telegram_message_id r;
     chat_id := chat_id r;
     acknowledged := acknowledged r;
     acknowledged_by := acknowledged_by r;
     acknowledged_by_id := acknowledged_by_id r;
     acknowledged_by_name := acknowledged_by_name r;
     acknowledged_at := acknowledged_at r;
     resolved := true;
     resolved_by := username u;
     resolved_by_id := Some (user_id u);
     resolved_by_name := Some (fullName u);
     resolved_at := Some now |}.

(** [WHERE id = ? AND acknowledged = FALSE] *)
Definition can_acknowledge (alertId : Z) (r : Row) : bool :=
  (id r =? alertId)%Z && negb (acknowledged r).

(** [WHERE id = ? AND acknowledged = TRUE AND resolved = FALSE] *)
Definition can_resolve (alertId : Z) (r : Row) : bool :=
  (id r =? alertId)%Z && acknowledged r && negb (resolved r).

(** [acknowledgeAlert]: [now] is [strftime('%s','now')]; the boolean is
    [this.changes > 0]. *)
Definition acknowledgeAlert (alertId : Z) (userInfo : UserInfo) (now : Z)
  (t : table) : bool * table :=
  let '(t', changes) :=
    sql_update (can_acknowledge alertId) (set_acknowledged userInfo now) t in
  ((0 <? changes)%nat, t').

Definition resolveAlert (alertId : Z) (userInfo : UserInfo) (now : Z)
  (t : table) : bool * table :=
  let '(t', changes) :=
    sql_update (can_resolve alertId) (set_resolved userInfo now) t in
  ((0 <? changes)%nat, t').

Definition getUnacknowledgedCount (t : table) : Z :=
  sql_count (filter (fun r => negb (acknowledged r)) t).

(** [SELECT * FROM alerts WHERE id = ?] *)
Definition getAlertById (alertId : Z) (t : table) : option Row :=
  find (fun r => id r =? alertId)%Z t.

Module Weekly.

(** The row [getWeeklyReport] resolves with. *)
Record report : Type := {
  total : Z;
  acknowledged : option Z;
  resolved : option Z;
  unacknowledged : option Z;
  critical : option Z;
  warning : option Z;
  info : option Z
}.

End Weekly.

Definition seven_days : Z := 7 * 86400.

(** [WHERE created_at >= strftime('%s', 'now', '-7 days')] *)
Definition in_window (now : Z) (r : Row) : bool :=
  (now - seven_days <=? created_at r)%Z.

Definition getWeeklyReport (now : Z) (t : table) : Weekly.report :=
  let rows := filter (in_window now) t in
  {| Weekly.total := sql_count rows;
     Weekly.acknowledged := sql_sum (case_when acknowledged) rows;
     Weekly.resolved := sql_sum (case_when resolved) rows;
     Weekly.unacknowledged :=
       sql_sum (case_when (fun r => negb (acknowledged r))) rows;
     Weekly.critical :=
       sql_sum (case_when (fun r => severity r =? "critical")%string) rows;
     Weekly.warning :=
       sql_sum (case_when (fun r => severity r =? "warning")%string) rows;
     Weekly.info :=
       sql_sum (case_when (fun r => severity r =? "info")%string) rows |}.

(** The statements that write to the table, and the tables they can build
    from the empty one. *)
Inductive statement : Type :=
| Create (a : NewAlert) (now : Z)
| Telegram (alertId telegramMessageId chatId : Z)
| Acknowledge (alertId : Z) (userInfo : UserInfo) (now : Z)
| Resolve (alertId : Z) (userInfo : UserInfo) (now : Z).

Definition exec (t : table) (s : statement) : table :=
  match s with
  | Create a now =>
      match createAlert a now t with
      | Some (_, t') => t'
      | None => t
      end
  | Telegram i m c => snd (updateTelegramInfo i m c t)
  | Acknowledge i u now => snd (acknowledgeAlert i u now t)
  | Resolve i u now => snd (resolveAlert i u now t)
  end.

Inductive reachable : table -> Prop :=
| reachable_empty : reachable []
| reachable_exec t s : reachable t -> reachable (exec t s).

End Database.

(* ------------------------------------------------------------------ *)
(** ** What the specification says, in its own words *)

Module Spec.

(** The three canonical severities. *)
Definition canonical : list string := ["critical"; "warning"; "info"].

(** The contract's input type [string | null]: a string or an absent value. *)
Definition string_or_absent (v : value) : bool :=
  match v with
  | VString _ | VNull | VUndefined => true
  | _ => false
  end.

(** A lookup table with a default for "anything else". *)
Definition table_lookup (tbl : list (string * string)) (default tok : string)
  : string :=
  match find (fun row => (tok =? fst row)%string) tbl with
  | Some row => snd row
  | None => default
  end.

(** zabbix: 5,4 -> critical; 3,2 -> warning; 1,0 -> info, and the named
    synonyms. *)
Definition zabbix_table : list (string * string) :=
  [("5", "critical"); ("4", "critical");
   ("disaster", "critical"); ("high", "critical");
   ("3", "warning"); ("2", "warning");
   ("average", "warning"); ("warning", "warning");
   ("1", "info"); ("0", "info");
   ("information", "info"); ("not_classified", "info")].

(** grafana/prometheus: firing -> warning, resolved -> info, pending -> info. *)
Definition alertmanager_table : list (string * string) :=
  [("firing", "warning"); ("resolved", "info"); ("pending", "info")].

(** Detection as a priority chain: the first detector whose test holds
    decides. *)
Definition detector : Type :=
  ((value -> result bool) * (value -> result (option AlertInput)))%type.

Fixpoint first_match (ds : list detector) (payload : value)
  : result (option AlertInput) :=
  match ds with
  | [] => Ok None
  | (test, act) :: rest =>
      hit <- test payload ;;
      if hit then act payload else first_match rest payload
  end.

Definition detectors : list detector :=
  [(is_native, fun _ => Ok None);
   (is_grafana, fun p => transformed (transformGrafanaWebhook p));
   (is_prometheus, fun p => transformed (transformPrometheusWebhook p));
   (is_zabbix, fun p => transformed (transformZabbixWebhook p));
   (is_generic, fun p => transformed (transformGenericWebhook p))].

(** A run of decimal digits and the number it writes. *)
Definition decimal_digit (c : ascii) : Prop :=
  In c (list_ascii_of_string "0123456789").

Definition digit_run (s : string) : Prop :=
  s <> "" /\ Forall decimal_digit (list_ascii_of_string s).

Fixpoint digit_index (c : ascii) (digits : list ascii) : Z :=
  match digits with
  | [] => 0
  | d :: rest => if Ascii.eqb c d then 0 else 1 + digit_index c rest
  end.

Fixpoint decimal_value (s : string) : Z :=
  match s with
  | EmptyString => 0
  | String c rest =>
      digit_index c (list_ascii_of_string "0123456789")
        * 10 ^ Z.of_nat (String.length rest)
      + decimal_value rest
  end.

(** The lifecycle invariant of a stored alert. *)
Definition resolved_implies_acknowledged (r : Database.Row) : Prop :=
  Database.resolved r = true -> Database.acknowledged r = true.

(** What every reachable table should satisfy: the primary key is unique,
    and a resolved alert is an acknowledged one. *)
Definition consistent (t : Database.table) : Prop :=
  NoDup (map Database.id t) /\ Forall resolved_implies_acknowledged t.

(** What the two conditional updates do to a single row. *)
Definition resolve_row (i : Z) (u : Database.UserInfo) (now : Z)
  (r : Database.Row) : Database.Row :=
  if Database.can_resolve i r then Database.set_resolved u now r else r.

Definition acknowledge_row (i : Z) (u : Database.UserInfo) (now : Z)
  (r : Database.Row) : Database.Row :=
  if Database.can_acknowledge i r then Database.set_acknowledged u now r
  else r.

(** The row [getWeeklyReport] would give if every count were a number. *)
Definition all_zero : Database.Weekly.report :=
  {| Database.Weekly.total := 0;
     Database.Weekly.acknowledged := Some 0;
     Database.Weekly.resolved := Some 0;
     Database.Weekly.unacknowledged := Some 0;
     Database.Weekly.critical := Some 0;
     Database.Weekly.warning := Some 0;
     Database.Weekly.info := Some 0 |}.

End Spec.

Import Spec.

(* ------------------------------------------------------------------ *)
(** ** Sample data *)

Module Examples.

(** A payload that is canonical but for its title of 201 characters, and
    that also carries a [status]. *)
Definition long_title : string := string_of_list_ascii (repeat "x"%char 201).

Definition oversize_payload : value :=
  VObject [("title", VString long_title);
           ("source", VString "billing");
           ("severity", VString "critical");
           ("message", VString "queue is full");
           ("status", VString "firing");
           ("region", VString "eu-1")].

Definition alice : Database.UserInfo :=
  {| Database.username := Some "alice";
     Database.user_id := 1001;
     Database.firstName := Some "Alice";
     Database.lastName := Some "Liddell" |}.

Definition bob : Database.UserInfo :=
  {| Database.username := None;
     Database.user_id := 1002;
     Database.firstName := Some "Bob";
     Database.lastName := None |}.

Definition disk_alert : Database.NewAlert :=
  {| Database.new_title := "Disk almost full";
     Database.new_source := "db-1";
     Database.new_severity := "warning";
     Database.new_message := "92% used on /var";
     Database.new_timestamp := 1700000000000;
     Database.new_metadata := None |}.

(** One alert, created at second 1700000000. *)
Definition one_alert : Database.table :=
  Database.exec [] (Database.Create disk_alert 1700000000).

(** The same alert once alice has acknowledged it. *)
Definition one_acknowledged : Database.table :=
  Database.exec one_alert (Database.Acknowledge 1 alice 1700000060).

End Examples.

Import Examples.

(* ------------------------------------------------------------------ *)
(** ** Tables and predicates for the intake *)

Module Intake.

(** The last [switch] of [mapSeverity], for the sources that have no table
    of their own, as a table; anything else is info. *)
Definition generic_table : list (string * string) :=
  [("error", "critical"); ("fatal", "critical"); ("emergency", "critical");
   ("alert", "critical"); ("high", "critical"); ("urgent", "critical");
   ("warn", "warning"); ("warning", "warning"); ("medium", "warning");
   ("moderate", "warning");
   ("info", "info"); ("information", "info"); ("notice", "info");
   ("low", "info"); ("debug", "info"); ("trace", "info")].

(** A value none of whose objects, at any depth, has a property named
    [toString]: converting it to a string cannot raise. *)
Fixpoint plain (v : value) : bool :=
  match v with
  | VArray elems => forallb plain elems
  | VObject props =>
      negb (has_own "toString" props)
      && forallb (fun kv => plain (snd kv)) props
  | _ => true
  end.

(** The first element of [payload.alerts], when that is an array. *)
Definition first_alert (payload : value) : option value :=
  match get_opt payload "alerts" with
  | VArray elems => Some (nth 0 elems VUndefined)
  | _ => None
  end.

End Intake.

Import Intake.

(* ------------------------------------------------------------------ *)
(** ** What a stored alert shows *)

Module Observations.

(** The columns written once, by the [INSERT]. *)
Definition facts (r : Database.Row)
  : Z * string * string * string * string * Z * Z * option string :=
  (Database.id r, Database.title r, Database.source r, Database.severity r,
   Database.message r, Database.timestamp r, Database.created_at r,
   Database.metadata r).

(** The acknowledgement and its attribution. *)
Definition acknowledgement (r : Database.Row)
  : bool * option string * option Z * option string * option Z :=
  (Database.acknowledged r, Database.acknowledged_by r,
   Database.acknowledged_by_id r, Database.acknowledged_by_name r,
   Database.acknowledged_at r).

(** The resolution and its attribution. *)
Definition resolution (r : Database.Row)
  : bool * option string * option Z * option string * option Z :=
  (Database.resolved r, Database.resolved_by r, Database.resolved_by_id r,
   Database.resolved_by_name r, Database.resolved_at r).

(** [WHERE acknowledged = FALSE] *)
Definition unack (r : Database.Row) : bool := negb (Database.acknowledged r).

(** The sum [SUM(e)] takes over rows that exist. *)
Definition sum_of (e : Database.Row -> Z) (rows : Database.table) : Z :=
  fold_right Z.add 0 (map e rows).

(** A sequence of writing statements, run in order. *)
Definition run (t : Database.table) (ss : list Database.statement)
  : Database.table :=
  fold_left Database.exec ss t.

(** By how much a statement moves the number of unacknowledged alerts. *)
Definition unacknowledged_delta (t : Database.table) (s : Database.statement)
  : Z :=
  match s with
  | Database.Create a now =>
      match Database.createAlert a now t with Some _ => 1 | None => 0 end
  | Database.Acknowledge i u now =>
      if fst (Database.acknowledgeAlert i u now t) then -1 else 0
  | Database.Telegram _ _ _ | Database.Resolve _ _ _ => 0
  end.

End Observations.

Import Observations.

From Stdlib Require Numbers.DecimalPos.

(* ------------------------------------------------------------------ *)
(** ** bot: the callback handlers *)

Module Bot.

(** [a || b] on a text column: [NULL] and the empty string are falsy. *)
Definition text_or (a : option string) (b : string) : string :=
  match a with
  | Some s => if (s =? "")%string then b else s
  | None => b
  end.

(** What a handler asks of the Telegram API, in the order it asks.  The
    text of an edited message is kept as the arguments its formatter is
    called with; [reply_markup] is the callback data of the one button, or
    [None] when the message keeps no button. *)
Inductive edited_text : Type :=
| AcknowledgedMessage (alert : Database.Row) (userInfo : Database.UserInfo)
| ResolvedMessage (alert : Database.Row)
    (acknowledged_by acknowledged_by_name : option string)
    (acknowledged_at : option Z) (userInfo : Database.UserInfo).

Inductive call : Type :=
| answerCallbackQuery (text : string) (show_alert : bool)
| editMessageText (text : edited_text) (reply_markup : option string).

(** [handleAcknowledge]: [alert] is the row fetched before, [userInfo] is
    [extractUserInfo(query.from)]. *)
Definition handleAcknowledge (alert : Database.Row) (alertId : Z)
  (userInfo : Database.UserInfo) (now : Z) (t : Database.table)
  : list call * Database.table :=
  if Database.acknowledged alert then
    let acknowledgedBy :=
      text_or (Database.acknowledged_by_name alert)
              (text_or (Database.acknowledged_by alert) "Unknown user") in
    ([answerCallbackQuery ("Already acknowledged by " ++ acknowledgedBy) false],
     t)
  else
    let '(success, t') := Database.acknowledgeAlert alertId userInfo now t in
    if success then
      ([editMessageText (AcknowledgedMessage alert userInfo)
                        (Some (createResolveKeyboard alertId));
        answerCallbackQuery "Alert acknowledged successfully" false],
       t')
    else ([answerCallbackQuery "Failed to acknowledge alert" true], t').

Definition handleResolve (alert : Database.Row) (alertId : Z)
  (userInfo : Database.UserInfo) (now : Z) (t : Database.table)
  : list call * Database.table :=
  if negb (Database.acknowledged alert) then
    ([answerCallbackQuery "Alert must be acknowledged before resolving" true],
     t)
  else if Database.resolved alert then
    let resolvedBy :=
      text_or (Database.resolved_by_name alert)
              (text_or (Database.resolved_by alert) "Unknown user") in
    ([answerCallbackQuery ("Already resolved by " ++ resolvedBy) false], t)
  else
    let '(success, t') := Database.resolveAlert alertId userInfo now t in
    if success then
      ([editMessageText
          (ResolvedMessage alert (Database.acknowledged_by alert)
             (Database.acknowledged_by_name alert)
             (Database.acknowledged_at alert) userInfo)
          None;
        answerCallbackQuery "Alert resolved successfully" false],
       t')
    else ([answerCallbackQuery "Failed to resolve alert" true], t').

(** The [callback_query] listener, run without another handler in between
    its reads and writes, and with the Telegram calls succeeding. *)
Definition on_callback_query (data : string) (userInfo : Database.UserInfo)
  (now : Z) (t : Database.table) : list call * Database.table :=
  match extractAlertIdFromCallback data with
  | None => ([answerCallbackQuery "Invalid callback data" true], t)
  | Some callbackResult =>
      let alert :=
        match id callbackResult with
        | Some alertId => Database.getAlertById alertId t
        | None => None
        end in
      match id callbackResult, alert with
      | Some alertId, Some alert =>
          if (action callbackResult =? "acknowledge")%string then
            handleAcknowledge alert alertId userInfo now t
          else if (action callbackResult =? "resolve")%string then
            handleResolve alert alertId userInfo now t
          else ([], t)
      | _, _ =>
          ([answerCallbackQuery "Alert not found in database" true], t)
      end
  end.

(** [sendAlert] when Telegram accepts the message and answers with
    [message_id]: the callback data of the button sent, and the table with
    the delivery recorded.  Without a chat id nothing is sent. *)
Definition sendAlert (chatId : option Z) (alertId message_id : Z)
  (t : Database.table) : option string * Database.table :=
  match chatId with
  | None => (None, t)
  | Some chat =>
      if (chat =? 0)%Z then (None, t)
      else (Some (createAcknowledgeKeyboard alertId),
            snd (Database.updateTelegramInfo alertId message_id chat t))
  end.

End Bot.

Import Bot.

(* ------------------------------------------------------------------ *)
(** ** env: reading the configuration; access checks *)

Module Env.

(** [s.split(sep)] for a separator of one character. *)
Fixpoint split (sep : ascii) (s : string) : list string :=
  match s with
  | EmptyString => [EmptyString]
  | String c rest =>
      if Ascii.eqb c sep then EmptyString :: split sep rest
      else
        match split sep rest with
        | piece :: pieces => String c piece :: pieces
        | [] => [String c EmptyString]
        end
  end.

(** [validateWebhookSecret(process.env.WEBHOOK_SECRET)]; [None] is both an
    unset variable and the [null] returned. *)
Definition validateWebhookSecret (secret : option string) : option string :=
  match secret with
  | None => None
  | Some s => if (s =? "")%string then None else Some (trim s)
  end.

Definition startsWith (prefix s : string) : bool :=
  match strip_prefix prefix s with Some _ => true | None => false end.

Definition dec_digit (c : ascii) : option Z :=
  if is_digit c then Some (Z.of_nat (code c - 48)) else None.

Definition hex_digit_value (c : ascii) : option Z :=
  let n := code c in
  if is_digit c then Some (Z.of_nat (n - 48))
  else if ((97 <=? n) && (n <=? 102))%nat then Some (Z.of_nat (n - 87))
  else if ((65 <=? n) && (n <=? 70))%nat then Some (Z.of_nat (n - 55))
  else None.

(** The digits of [parseInt] in a given radix, up to the first character
    that is not one; [None] while no digit has been read. *)
Fixpoint digits_in (digit : ascii -> option Z) (radix : Z) (acc : option Z)
  (s : string) : option Z :=
  match s with
  | EmptyString => acc
  | String c rest =>
      match digit c with
      | Some d =>
          digits_in digit radix
            (Some (radix * match acc with Some a => a | None => 0 end + d))
            rest
      | None => acc
      end
  end.

(** [parseInt(s)] without a radix argument: leading white space, a sign, a
    [0x] prefix, then digits; [None] is [NaN].  The value is exact up to
    2^53. *)
Definition parseInt_string (s : string) : option Z :=
  let s1 := trimStart s in
  let signed :=
    match s1 with
    | String "-" r => (-1, r)
    | String "+" r => (1, r)
    | _ => (1, s1)
    end in
  let body := snd signed in
  let value :=
    match body with
    | String "0" (String x r) =>
        if Ascii.eqb x "x" || Ascii.eqb x "X"
        then digits_in hex_digit_value 16 None r
        else digits_in dec_digit 10 None body
    | _ => digits_in dec_digit 10 None body
    end in
  option_map (Z.mul (fst signed)) value.

(** One entry of [AUTHORIZED_USERS] as [parseAuthorizedUsers] keeps it. *)
Definition authorized_entry (user : string) : string :=
  if startsWith "@" user then user
  else
    match parseInt_string user with
    | Some parsed => string_of_Z parsed
    | None => user
    end.

Definition parseAuthorizedUsers (users : option string) : list string :=
  match users with
  | None => []
  | Some u =>
      if (u =? "")%string then []
      else
        map authorized_entry
            (filter (fun user => (0 <? String.length user)%nat)
                    (map trim (split "," u)))
  end.

End Env.

Import Env.

Module Access.

(** What [authenticateToken] does with the request. *)
Inductive verdict : Type :=
| next
| status401
| status403.

(** [authenticateToken]: [WEBHOOK_SECRET] is [config.WEBHOOK_SECRET],
    [authorization] the request header when there is one. *)
Definition authenticateToken (WEBHOOK_SECRET authorization : option string)
  : verdict :=
  match WEBHOOK_SECRET with
  | None => next
  | Some secret =>
      if (secret =? "")%string then next
      else
        let token :=
          match authorization with
          | None => None
          | Some authHeader =>
              if (authHeader =? "")%string then None
              else nth_error (split " " authHeader) 1
          end in
        match token with
        | None => status401
        | Some tk =>
            if (tk =? "")%string then status401
            else if (tk =? secret)%string then next
            else status403
        end
  end.

(** [isUserAuthorized(user)], with [this.authorizedUsers] as an argument. *)
Definition isUserAuthorized (authorizedUsers : list string) (user_id : Z)
  (username : option string) : bool :=
  if (List.length authorizedUsers =? 0)%nat then true
  else if includes (string_of_Z user_id) authorizedUsers then true
  else
    match username with
    | None => false
    | Some name =>
        if (name =? "")%string then false
        else if includes ("@" ++ name) authorizedUsers then true
        else if includes name authorizedUsers then true
        else false
    end.

End Access.

Import Access.

Module Shapes.

(** A string without a given character. *)
Fixpoint without (c : ascii) (s : string) : bool :=
  match s with
  | EmptyString => true
  | String a rest => negb (Ascii.eqb a c) && without c rest
  end.

(** A letter of the basic alphabet. *)
Definition is_letter (c : ascii) : bool :=
  let n := code c in
  ((65 <=? n) && (n <=? 90) || (97 <=? n) && (n <=? 122))%nat.

End Shapes.

Import Shapes.

(* ------------------------------------------------------------------ *)
(** ** Severity mapper *)

Ltac case_ifs :=
  repeat match goal with
         | |- context [if ?b then _ else _] => destruct b
         end.

Section SeverityMapper.

Lemma includes_In (s : string) (l : list string) :
  includes s l = true <-> In s l.
Proof.
  unfold includes. rewrite existsb_exists. split.
  - intros [x [Hin Heq]]. apply String.eqb_eq in Heq. now subst.
  - intros Hin. exists s. split; [assumption | apply String.eqb_refl].
Qed.

Lemma truthy_string (s : string) : truthy (VString s) = true <-> s <> "".
Proof.
  simpl. destruct (String.eqb_spec s ""); simpl; split; congruence.
Qed.

(** Whatever the arguments, a severity that comes back is canonical. *)
Lemma mapSeverity_canonical (sev st : value) (src r : string) :
  mapSeverity sev st src = Ok r -> In r canonical.
Proof.
  unfold mapSeverity, canonical.
  destruct (negb (truthy sev) && negb (truthy st)).
  - intros [= <-]. simpl. tauto.
  - destruct (toString _) as [s|e]; cbn [bind]; [|discriminate].
    match goal with
    | |- context [includes (toLowerCase s) ?l] =>
        destruct (includes (toLowerCase s) l) eqn:Hc
    end.
    + intros [= <-]. now apply includes_In.
    + case_ifs; intros [= <-]; simpl; tauto.
Qed.

Lemma or_truthy_cases (sev st : value) :
  truthy (or sev st) = true ->
  negb (truthy sev) && negb (truthy st) = false
  /\ or (or sev st) (VString "") = or sev st.
Proof.
  intros Ht. split.
  - unfold or in Ht. destruct (truthy sev); simpl; [reflexivity|].
    now rewrite Ht.
  - unfold or at 1. now rewrite Ht.
Qed.

(** Opens [mapSeverity] on a present input whose string form is known. *)
Ltac open_mapSeverity Ht Hs :=
  unfold mapSeverity;
  let Hc := fresh "Hc" in
  let Ho := fresh "Ho" in
  destruct (or_truthy_cases _ _ Ht) as [Hc Ho];
  rewrite Hc, Ho, Hs; cbn [bind]; cbv zeta.

Lemma toString_ok (v : value) :
  truthy v = true -> is_ok (ToString v) = true ->
  exists s, toString v = Ok s.
Proof.
  intros Ht Hs. unfold toString.
  destruct (nullish v) eqn:Hn; [destruct v; discriminate|].
  destruct (ToString v) as [s|]; [eauto | discriminate].
Qed.

(** The only way to fail is the conversion of the chosen input to a string. *)
Lemma mapSeverity_ok (sev st : value) (src : string) :
  is_ok (ToString (or sev st)) = true ->
  exists r, mapSeverity sev st src = Ok r.
Proof.
  intros Hok.
  destruct (truthy (or sev st)) eqn:Ht.
  - destruct (toString_ok _ Ht Hok) as [s Hs].
    open_mapSeverity Ht Hs. case_ifs; eauto.
  - unfold mapSeverity. unfold or in Ht.
    destruct (truthy sev) eqn:Ts; [congruence|]. rewrite Ht. simpl. eauto.
Qed.

Lemma string_or_absent_ToString (v : value) :
  string_or_absent v = true -> is_ok (ToString v) = true.
Proof. destruct v; simpl; congruence. Qed.

Lemma not_canonical (tok : string) :
  ~ In tok canonical -> includes tok ["critical"; "warning"; "info"] = false.
Proof.
  intros Hn. destruct (includes tok _) eqn:Hi; [|reflexivity].
  apply includes_In in Hi. contradiction.
Qed.

(** The two nested [switch]es against the tables of the specification. *)
Lemma zabbix_switch (tok : string) :
  (if includes tok ["5"; "disaster"] then "critical"
   else if includes tok ["4"; "high"] then "critical"
   else if includes tok ["3"; "average"] then "warning"
   else if includes tok ["2"; "warning"] then "warning"
   else if includes tok ["1"; "information"] then "info"
   else if includes tok ["0"; "not_classified"] then "info"
   else "warning")
  = table_lookup zabbix_table "warning" tok.
Proof.
  unfold includes, table_lookup, zabbix_table. cbn [existsb find fst snd].
  repeat match goal with
         | |- context [String.eqb tok ?lit] =>
             destruct (String.eqb_spec tok lit); [subst tok; reflexivity|]
         end.
  reflexivity.
Qed.

Lemma alertmanager_switch (tok : string) :
  (if (tok =? "firing")%string then "warning"
   else if (tok =? "resolved")%string then "info"
   else if (tok =? "pending")%string then "info"
   else "warning")
  = table_lookup alertmanager_table "warning" tok.
Proof.
  unfold table_lookup, alertmanager_table. cbn [find fst snd].
  repeat match goal with
         | |- context [String.eqb tok ?lit] =>
             destruct (String.eqb_spec tok lit); [subst tok; reflexivity|]
         end.
  reflexivity.
Qed.

(** C3: on the inputs of its contract (each of severity and status a string
    or absent, any source kind) [mapSeverity] does not raise and returns one
    of critical, warning, info; when both inputs are absent it returns info
    whatever the source kind. *)
Theorem mapSeverity_total (sev st : value) (src : string) :
  string_or_absent sev = true -> string_or_absent st = true ->
  (exists r, mapSeverity sev st src = Ok r /\ In r canonical)
  /\ (nullish sev = true -> nullish st = true ->
      mapSeverity sev st src = Ok "info").
Proof.
  intros Hsev Hst. split.
  - destruct (mapSeverity_ok sev st src) as [r Hr].
    { unfold or. destruct (truthy sev);
        now apply string_or_absent_ToString. }
    exists r. split; [exact Hr | exact (mapSeverity_canonical _ _ _ _ Hr)].
  - intros Ns Nt. unfold mapSeverity.
    destruct sev; try discriminate; destruct st; try discriminate;
      reflexivity.
Qed.

Lemma mapSeverity_total_witness :
  (exists r, mapSeverity (VString "HIGH") VNull "zabbix" = Ok r
             /\ In r canonical)
  /\ mapSeverity VNull VUndefined "grafana" = Ok "info".
Proof.
  split.
  - exact (proj1 (mapSeverity_total (VString "HIGH") VNull "zabbix"
                    eq_refl eq_refl)).
  - exact (proj2 (mapSeverity_total VNull VUndefined "grafana"
                    eq_refl eq_refl) eq_refl eq_refl).
Defined.

(** C6: for a present input whose lower-cased token is not canonical, the
    zabbix source kind answers by the zabbix table (5, 4, disaster, high:
    critical; 3, 2, average, warning: warning; 1, 0, information,
    not_classified: info; anything else: warning) and the grafana and
    prometheus source kinds by firing: warning, resolved and pending: info,
    anything else: warning; so ('5', absent, zabbix) gives critical and
    ('firing', absent, grafana) gives warning. *)
Theorem mapSeverity_source_tables (sev st : value) (raw : string) :
  truthy (or sev st) = true ->
  toString (or sev st) = Ok raw ->
  ~ In (toLowerCase raw) canonical ->
  mapSeverity sev st "zabbix"
  = Ok (table_lookup zabbix_table "warning" (toLowerCase raw))
  /\ mapSeverity sev st "grafana"
     = Ok (table_lookup alertmanager_table "warning" (toLowerCase raw))
  /\ mapSeverity sev st "prometheus"
     = Ok (table_lookup alertmanager_table "warning" (toLowerCase raw))
  /\ mapSeverity (VString "5") VNull "zabbix" = Ok "critical"
  /\ mapSeverity (VString "firing") VNull "grafana" = Ok "warning".
Proof.
  intros Ht Hs Hn. apply not_canonical in Hn.
  repeat split; try reflexivity.
  - open_mapSeverity Ht Hs. rewrite Hn.
    change (includes "zabbix" ["grafana"; "prometheus"]) with false.
    change ("zabbix" =? "zabbix")%string with true. cbv iota.
    now rewrite zabbix_switch.
  - open_mapSeverity Ht Hs. rewrite Hn.
    change (includes "grafana" ["grafana"; "prometheus"]) with true.
    cbv iota. now rewrite alertmanager_switch.
  - open_mapSeverity Ht Hs. rewrite Hn.
    change (includes "prometheus" ["grafana"; "prometheus"]) with true.
    cbv iota. now rewrite alertmanager_switch.
Qed.

Lemma mapSeverity_source_tables_witness :
  mapSeverity VUndefined (VString "Disaster") "zabbix" = Ok "critical"
  /\ mapSeverity VUndefined (VString "Disaster") "grafana" = Ok "warning".
Proof.
  assert (Hn : ~ In (toLowerCase "Disaster") canonical).
  { simpl. intros [H|[H|[H|[]]]]; discriminate H. }
  pose proof (mapSeverity_source_tables VUndefined (VString "Disaster")
                "Disaster" eq_refl eq_refl Hn) as [Hz [Hg _]].
  split; [exact Hz | exact Hg].
Defined.

(** C7 as stated does not hold: the chosen input is not trimmed, so a
    canonical token wrapped in blanks is not recognised. *)
Lemma mapSeverity_does_not_trim :
  toLowerCase (trim " critical ") = "critical"
  /\ mapSeverity (VString " critical ") VNull "grafana" = Ok "warning"
  /\ mapSeverity (VString " critical ") VNull "grafana" <> Ok "critical".
Proof. repeat split. discriminate. Qed.

(** C7, amended: [mapSeverity] lower-cases, without trimming, its chosen
    input (the severity when present, else the status); when the lower-cased
    token is one of the three canonical values that value is returned, for
    every source kind.  So a token that differs from a canonical value only
    by letter case ('CRITICAL') yields that value. *)
Theorem mapSeverity_canonical_any_case (sev st : value) (src raw : string) :
  truthy (or sev st) = true ->
  toString (or sev st) = Ok raw ->
  In (toLowerCase raw) canonical ->
  mapSeverity sev st src = Ok (toLowerCase raw)
  /\ mapSeverity (VString "CRITICAL") st src = Ok "critical".
Proof.
  intros Ht Hs Hc. split.
  - open_mapSeverity Ht Hs. apply includes_In in Hc. unfold canonical in Hc.
    now rewrite Hc.
  - reflexivity.
Qed.

Lemma mapSeverity_canonical_any_case_witness :
  mapSeverity (VString "") (VString "WaRnInG") "zabbix" = Ok "warning".
Proof.
  refine (proj1 (mapSeverity_canonical_any_case (VString "") (VString "WaRnInG")
                   "zabbix" "WaRnInG" eq_refl eq_refl _)).
  simpl. tauto.
Defined.

End SeverityMapper.

(* ------------------------------------------------------------------ *)
(** ** Callback data *)

Section Callback.

Lemma strip_prefix_spec (p s r : string) :
  strip_prefix p s = Some r <-> s = p ++ r.
Proof.
  revert s. induction p as [|a p IH]; intros s; simpl.
  - split; [intros [= ->]; reflexivity | intros ->; reflexivity].
  - destruct s as [|b s].
    + split; discriminate.
    + destruct (Ascii.eqb_spec a b) as [->|Hab].
      * rewrite IH. split; [intros ->; reflexivity | intros [= ->]; reflexivity].
      * split; [discriminate | intros [= E _]; congruence].
Qed.

Lemma is_digit_spec (c : ascii) : is_digit c = true <-> decimal_digit c.
Proof.
  unfold decimal_digit.
  assert (E : is_digit c
              = existsb (Ascii.eqb c) (list_ascii_of_string "0123456789")).
  { destruct c as [[] [] [] [] [] [] [] []]; reflexivity. }
  rewrite E, existsb_exists. split.
  - intros [x [Hin Heq]]. apply Ascii.eqb_eq in Heq. now subst.
  - intros Hin. exists c. split; [assumption | apply Ascii.eqb_refl].
Qed.

Lemma all_digits_spec (s : string) :
  all_digits s = true <-> Forall decimal_digit (list_ascii_of_string s).
Proof.
  induction s as [|c s IH]; simpl.
  - split; [constructor | reflexivity].
  - rewrite andb_true_iff, is_digit_spec, IH. split.
    + intros [Hc Hs]. now constructor.
    + intros H. inversion H; subst. now split.
Qed.

Lemma digit_value (c : ascii) :
  is_digit c = true ->
  Z.of_nat (code c - 48) = digit_index c (list_ascii_of_string "0123456789").
Proof.
  destruct c as [[] [] [] [] [] [] [] []]; try discriminate; reflexivity.
Qed.

Lemma digit_index_bounds (c : ascii) (l : list ascii) :
  0 <= digit_index c l <= Z.of_nat (List.length l).
Proof.
  induction l as [|d l IH]; cbn [digit_index List.length].
  - simpl. lia.
  - rewrite Nat2Z.inj_succ. destruct (Ascii.eqb c d); lia.
Qed.

Lemma decimal_value_nonneg (s : string) : 0 <= decimal_value s.
Proof.
  induction s as [|c s IH]; [simpl; lia|]. cbn [decimal_value].
  pose proof (digit_index_bounds c (list_ascii_of_string "0123456789"))
    as [Hd _].
  apply Z.add_nonneg_nonneg; [|exact IH].
  apply Z.mul_nonneg_nonneg; [exact Hd | apply Z.pow_nonneg; lia].
Qed.

(** The accumulator loop computes the positional value. *)
Lemma parse_digits_value (s : string) (acc : Z) :
  all_digits s = true ->
  parse_digits acc s = acc * 10 ^ Z.of_nat (String.length s) + decimal_value s.
Proof.
  revert acc. induction s as [|c s IH]; intros acc Hd.
  - simpl. lia.
  - simpl in Hd. apply andb_true_iff in Hd as [Hc Hs].
    cbn [parse_digits decimal_value String.length]. rewrite Hc, (IH _ Hs).
    rewrite (digit_value c Hc), Nat2Z.inj_succ, Z.pow_succ_r by lia.
    ring.
Qed.

Lemma parseInt_digit_run (ds : string) :
  digit_run ds -> parseInt ds = Some (decimal_value ds).
Proof.
  intros [Hne Hall]. apply all_digits_spec in Hall.
  destruct ds as [|c ds]; [congruence|].
  unfold parseInt. pose proof Hall as Hall'. simpl in Hall'.
  apply andb_true_iff in Hall' as [Hc _]. rewrite Hc.
  rewrite (parse_digits_value _ 0 Hall). f_equal.
Qed.

Lemma append_cancel (p a b : string) : p ++ a = p ++ b -> a = b.
Proof.
  induction p as [|c p IH]; simpl; [auto|]. intros [= E]. auto.
Qed.

Lemma match_digits_spec (p s ds : string) :
  match_digits p s = Some ds <-> s = p ++ ds /\ digit_run ds.
Proof.
  unfold match_digits, digit_run. rewrite <- all_digits_spec.
  destruct (strip_prefix p s) as [rest|] eqn:Hp.
  - apply strip_prefix_spec in Hp. subst s.
    destruct (String.eqb_spec rest "") as [->|Hne]; simpl.
    + split; [discriminate|]. intros [E [Hne _]].
      apply append_cancel in E. congruence.
    + destruct (all_digits rest) eqn:Hd.
      * split.
        -- intros [= <-]. auto.
        -- intros [E _]. apply append_cancel in E. congruence.
      * split; [discriminate|]. intros [E [_ Hd']].
        apply append_cancel in E. congruence.
  - split; [discriminate|]. intros [E _].
    apply strip_prefix_spec in E. congruence.
Qed.

Lemma match_digits_none (p s : string) :
  match_digits p s = None <-> forall ds, ~ (s = p ++ ds /\ digit_run ds).
Proof.
  split.
  - intros Hn ds H. apply match_digits_spec in H. congruence.
  - intros H. destruct (match_digits p s) as [ds|] eqn:Hm; [|reflexivity].
    apply match_digits_spec in Hm. now apply H in Hm.
Qed.

(** C10: the result is non-null exactly when the whole string is [ack_] or
    [resolve_] followed by a run of one or more decimal digits; then the
    action is acknowledge for [ack_] and resolve for [resolve_], and the id
    is the number the digits write, which is not negative.  Every other
    string gives null.  The id is stated for digit runs that write a number
    below 2^53, the range in which the code's numbers are exact integers. *)
Theorem extractAlertIdFromCallback_spec (callbackData : string) :
  (extractAlertIdFromCallback callbackData <> None <->
   exists ds, digit_run ds
              /\ (callbackData = "ack_" ++ ds
                  \/ callbackData = "resolve_" ++ ds))
  /\ (forall ds, digit_run ds ->
      (callbackData = "ack_" ++ ds ->
       exists r, extractAlertIdFromCallback callbackData = Some r
                 /\ action r = "acknowledge"
                 /\ (decimal_value ds < 2 ^ 53 ->
                     id r = Some (decimal_value ds)))
      /\ (callbackData = "resolve_" ++ ds ->
          exists r, extractAlertIdFromCallback callbackData = Some r
                    /\ action r = "resolve"
                    /\ (decimal_value ds < 2 ^ 53 ->
                        id r = Some (decimal_value ds)))
      /\ 0 <= decimal_value ds).
Proof.
  assert (Hack : forall ds, digit_run ds -> callbackData = "ack_" ++ ds ->
            extractAlertIdFromCallback callbackData
            = Some {| id := Some (decimal_value ds);
                      action := "acknowledge" |}).
  { intros ds Hr E. unfold extractAlertIdFromCallback.
    rewrite (proj2 (match_digits_spec "ack_" callbackData ds) (conj E Hr)).
    now rewrite (parseInt_digit_run _ Hr). }
  assert (Hres : forall ds, digit_run ds -> callbackData = "resolve_" ++ ds ->
            extractAlertIdFromCallback callbackData
            = Some {| id := Some (decimal_value ds); action := "resolve" |}).
  { intros ds Hr E. unfold extractAlertIdFromCallback.
    assert (Hn : match_digits "ack_" callbackData = None).
    { apply match_digits_none. intros ds' [E' _]. subst. discriminate. }
    rewrite Hn.
    rewrite (proj2 (match_digits_spec "resolve_" callbackData ds) (conj E Hr)).
    now rewrite (parseInt_digit_run _ Hr). }
  split.
  - split.
    + intros Hne. unfold extractAlertIdFromCallback in Hne.
      destruct (match_digits "ack_" callbackData) as [ds|] eqn:Ha.
      * apply match_digits_spec in Ha as [E Hr]. eauto.
      * destruct (match_digits "resolve_" callbackData) as [ds|] eqn:Hr.
        -- apply match_digits_spec in Hr as [E Hr]. eauto.
        -- congruence.
    + intros [ds [Hr [E|E]]].
      * rewrite (Hack ds Hr E). discriminate.
      * rewrite (Hres ds Hr E). discriminate.
  - intros ds Hr. split; [|split].
    + intros E. eexists. split; [exact (Hack ds Hr E)|].
      split; [reflexivity | intros _; reflexivity].
    + intros E. eexists. split; [exact (Hres ds Hr E)|].
      split; [reflexivity | intros _; reflexivity].
    + apply decimal_value_nonneg.
Qed.

Lemma extractAlertIdFromCallback_spec_witness :
  exists r, extractAlertIdFromCallback "resolve_0042" = Some r
            /\ action r = "resolve" /\ id r = Some 42.
Proof.
  assert (Hrun : digit_run "0042").
  { split; [discriminate|]. apply all_digits_spec. reflexivity. }
  destruct (proj1 (proj2 (proj2 (extractAlertIdFromCallback_spec "resolve_0042")
                            "0042" Hrun)) eq_refl) as [r [Hr [Ha Hid]]].
  exists r. split; [exact Hr|]. split; [exact Ha|]. exact (Hid eq_refl).
Defined.

(** Strings the pattern refuses: text around it, a sign, letters in the id,
    no digit at all. *)
Example extractAlertIdFromCallback_refused :
  map extractAlertIdFromCallback
      ["xack_1"; "ack_1 "; "ack_-1"; "ack_+1"; "ack_1a"; "ack_"; "resolve_";
       "ACK_1"; "ack_1.5"; ""]
  = repeat None 10.
Proof. reflexivity. Qed.

(** The buttons the bot sends are read back. *)
Example extractAlertIdFromCallback_keyboards :
  extractAlertIdFromCallback (createAcknowledgeKeyboard 42)
  = Some {| id := Some 42; action := "acknowledge" |}
  /\ extractAlertIdFromCallback (createResolveKeyboard 1907)
     = Some {| id := Some 1907; action := "resolve" |}.
Proof. split; reflexivity. Qed.

End Callback.

(* ------------------------------------------------------------------ *)
(** ** Format detection *)

Section Detection.

(** Reading a property of the payload succeeds as soon as one read did. *)
Lemma get_defined (p v : value) (k k' : string) :
  get p k = Ok v -> get p k' = Ok (get_opt p k').
Proof.
  unfold get_opt. destruct p; simpl; try discriminate; reflexivity.
Qed.

Lemma or_l (a b : value) : truthy a = true -> or a b = a.
Proof. intros H. unfold or. now rewrite H. Qed.

Lemma entries_defined (p v : value) (k : string) :
  get p k = Ok v -> exists es, entries p = Ok es.
Proof. destruct p; simpl; try discriminate; eauto. Qed.

Lemma length_gt_le (s : string) (n : Z) :
  Z.of_nat (String.length s) <= n -> length_gt (VString s) n = false.
Proof. intros H. simpl. apply Z.ltb_ge. lia. Qed.

Lemma length_gt_lt (s : string) (n : Z) :
  n < Z.of_nat (String.length s) -> length_gt (VString s) n = true.
Proof. intros H. simpl. apply Z.ltb_lt. lia. Qed.

Variables (payload : value) (t s sv m : string).
Hypothesis Htitle : get payload "title" = Ok (VString t).
Hypothesis Hsource : get payload "source" = Ok (VString s).
Hypothesis Hseverity : get payload "severity" = Ok (VString sv).
Hypothesis Hmessage : get payload "message" = Ok (VString m).
Hypothesis Ht : t <> "".
Hypothesis Hs : s <> "".
Hypothesis Hsv : sv <> "".
Hypothesis Hm : m <> "".

(** With the four fields non-empty strings, the loop over the required
    fields finds nothing wrong. *)
Lemma required_fields_present : first_bad_field payload required = Ok None.
Proof using Htitle Hsource Hseverity Hmessage Ht Hs Hsv Hm.
  unfold required. cbn [first_bad_field].
  rewrite Htitle, Hsource, Hseverity, Hmessage. cbn [bind is_string].
  rewrite (proj2 (truthy_string t) Ht), (proj2 (truthy_string s) Hs),
    (proj2 (truthy_string sv) Hsv), (proj2 (truthy_string m) Hm).
  reflexivity.
Qed.

Lemma fields_truthy :
  truthy (VString t) && truthy (VString s) && truthy (VString sv)
  && truthy (VString m) = true.
Proof using Ht Hs Hsv Hm.
  rewrite (proj2 (truthy_string t) Ht), (proj2 (truthy_string s) Hs),
    (proj2 (truthy_string sv) Hsv), (proj2 (truthy_string m) Hm).
  reflexivity.
Qed.

Lemma is_native_validates :
  is_native payload
  = (validation <- validateAlertPayload payload ;; Ok (valid validation)).
Proof using Htitle Hsource Hseverity Hmessage Ht Hs Hsv Hm.
  unfold is_native. rewrite Htitle, Hsource, Hseverity, Hmessage.
  cbn [bind]. now rewrite fields_truthy.
Qed.

Lemma validate_canonical :
  In sv canonical ->
  (String.length t <= 200)%nat -> (String.length m <= 2000)%nat ->
  validateAlertPayload payload = Ok Valid.
Proof using Htitle Hsource Hseverity Hmessage Ht Hs Hsv Hm.
  intros Hc Hlt Hlm. unfold validateAlertPayload.
  rewrite required_fields_present. cbn [bind].
  rewrite Hseverity. cbn [bind includes_value].
  apply includes_In in Hc. unfold canonical in Hc. unfold validSeverities.
  rewrite Hc. cbn [negb]. rewrite Htitle. cbn [bind].
  rewrite (length_gt_le t 200) by lia. rewrite Hmessage. cbn [bind].
  now rewrite (length_gt_le m 2000) by lia.
Qed.

Lemma validate_oversize_title :
  (200 < String.length t)%nat ->
  exists error, validateAlertPayload payload = Ok (Invalid error).
Proof using Htitle Hsource Hseverity Hmessage Ht Hs Hsv Hm.
  intros Hlt. unfold validateAlertPayload.
  rewrite required_fields_present. cbn [bind].
  rewrite Hseverity. cbn [bind].
  destruct (negb (includes_value (VString sv) validSeverities)); [eauto|].
  rewrite Htitle. cbn [bind]. rewrite (length_gt_lt t 200) by lia. eauto.
Qed.

End Detection.

Section DetectionClaims.

Lemma canonical_lowercase (sv : string) :
  In sv canonical -> toLowerCase sv = sv /\ sv <> "".
Proof.
  intros [<-|[<-|[<-|[]]]]; split; (reflexivity || discriminate).
Qed.

(** C4: a payload whose title, source, severity and message are non-empty
    strings, with a canonical severity, a title of at most 200 characters and
    a message of at most 2000, is not transformed (the detector returns
    null), and the handler stores it as it is, but for trimming title, source
    and message and lower-casing the severity (which leaves a canonical
    severity as it is). *)
Theorem canonical_payload_untransformed (payload : value) (t s sv m : string) :
  get payload "title" = Ok (VString t) ->
  get payload "source" = Ok (VString s) ->
  get payload "severity" = Ok (VString sv) ->
  get payload "message" = Ok (VString m) ->
  t <> "" -> s <> "" -> m <> "" ->
  In sv canonical ->
  (String.length t <= 200)%nat -> (String.length m <= 2000)%nat ->
  detectAndTransformWebhook payload = Ok None
  /\ postAlert payload
     = Ok (AlertData
             {| title := VString (trim t);
                source := VString (trim s);
                severity := toLowerCase sv;
                message := VString (trim m);
                timestamp := if truthy (get_opt payload "timestamp")
                             then Supplied (get_opt payload "timestamp")
                             else DateNow;
                metadata := None |})
  /\ toLowerCase sv = sv.
Proof.
  intros Ht Hs Hsv Hm Nt Ns Nm Hc Lt Lm.
  destruct (canonical_lowercase sv Hc) as [Hlow Nsv].
  pose proof (validate_canonical payload t s sv m Ht Hs Hsv Hm Nt Ns Nsv Nm
                Hc Lt Lm) as Hv.
  assert (Hd : detectAndTransformWebhook payload = Ok None).
  { unfold detectAndTransformWebhook.
    rewrite (is_native_validates payload t s sv m) by assumption.
    rewrite Hv. reflexivity. }
  repeat split; [exact Hd | | exact Hlow].
  unfold postAlert. rewrite Hd. cbn [bind]. rewrite Hv. cbn [bind].
  rewrite Ht, Hs, Hsv, Hm. cbn [bind call_trim call_toLowerCase].
  rewrite (get_defined payload _ "title" "timestamp" Ht). reflexivity.
Qed.

Lemma canonical_payload_untransformed_witness :
  detectAndTransformWebhook
    (VObject [("title", VString " DB down "); ("source", VString "svc");
              ("severity", VString "critical");
              ("message", VString "timeout");
              ("status", VString "firing")])
  = Ok None.
Proof.
  refine (proj1 (canonical_payload_untransformed
                   (VObject [("title", VString " DB down ");
                             ("source", VString "svc");
                             ("severity", VString "critical");
                             ("message", VString "timeout");
                             ("status", VString "firing")])
                   " DB down " "svc" "critical" "timeout"
                   eq_refl eq_refl eq_refl eq_refl _ _ _ _ _ _));
    try discriminate; try (simpl; lia).
  simpl. tauto.
Defined.

(** C5 does not hold of the code.  An empty [alerts] array passes the
    Grafana test (an empty array is truthy); the transformer then reads a
    property of [alerts[0]], which is [undefined], and raises.  The same
    happens when the first element is [null]. *)
Theorem grafana_empty_alerts_raises :
  is_grafana (VObject [("receiver", VString "ops"); ("alerts", VArray [])])
  = Ok true
  /\ detectAndTransformWebhook
       (VObject [("receiver", VString "ops"); ("alerts", VArray [])])
     = Throw TypeError
  /\ postAlert (VObject [("receiver", VString "ops"); ("alerts", VArray [])])
     = Throw TypeError
  /\ detectAndTransformWebhook
       (VObject [("receiver", VString "ops"); ("alerts", VArray [VNull])])
     = Throw TypeError.
Proof.
  split; [reflexivity|]. split; [|split].
  - unfold detectAndTransformWebhook. reflexivity.
  - unfold postAlert. reflexivity.
  - unfold detectAndTransformWebhook. reflexivity.
Qed.

(** When the Grafana transformer does return, its severity is canonical. *)
Lemma transformGrafanaWebhook_severity (payload : value) (a : AlertInput) :
  transformGrafanaWebhook payload = Ok a -> In (severity a) canonical.
Proof.
  unfold transformGrafanaWebhook.
  repeat match goal with
         | |- bind ?x _ = _ -> _ =>
             let E := fresh "E" in
             destruct x eqn:E; cbn [bind]; [|discriminate]
         end.
  intros [= <-]. cbn [severity].
  match goal with
  | H : mapSeverity _ _ _ = Ok _ |- _ => exact (mapSeverity_canonical _ _ _ _ H)
  end.
Qed.

(** The if-chain is the priority chain canonical, Grafana, Prometheus,
    Zabbix, generic. *)
Lemma detect_is_first_match (payload : value) :
  detectAndTransformWebhook payload = first_match detectors payload.
Proof.
  unfold detectAndTransformWebhook, detectors. cbn [first_match].
  repeat match goal with
         | |- bind ?x _ = bind ?x _ =>
             destruct x as [[]|]; cbn [bind]; try reflexivity
         end.
Qed.

(** C9: detection is the priority chain canonical, Grafana, Prometheus,
    Zabbix, generic, the first test that holds deciding.  So for a payload
    with non-empty string title, source, severity and message whose title is
    longer than 200 characters the canonical test fails (validation rejects
    it), and when the payload also carries one of status, level, priority and
    passes none of the Grafana, Prometheus and Zabbix tests, the detector
    answers with the generic transformation; the handler then stores that
    alert, oversize title included, rather than rejecting the request. *)
Theorem oversize_title_goes_generic
  (payload status level priority : value) (t s sv m : string) :
  get payload "title" = Ok (VString t) ->
  get payload "source" = Ok (VString s) ->
  get payload "severity" = Ok (VString sv) ->
  get payload "message" = Ok (VString m) ->
  t <> "" -> s <> "" -> sv <> "" -> m <> "" ->
  (200 < String.length t)%nat ->
  get payload "status" = Ok status ->
  get payload "level" = Ok level ->
  get payload "priority" = Ok priority ->
  truthy status || truthy level || truthy priority = true ->
  is_grafana payload = Ok false ->
  is_prometheus payload = Ok false ->
  is_zabbix payload = Ok false ->
  (forall p, detectAndTransformWebhook p = first_match detectors p)
  /\ is_native payload = Ok false
  /\ (exists error, validateAlertPayload payload = Ok (Invalid error))
  /\ detectAndTransformWebhook payload
     = transformed (transformGenericWebhook payload)
  /\ (is_ok (ToString (get_opt payload "timestamp")) = true ->
      exists a, transformGenericWebhook payload = Ok a
                /\ title a = VString t
                /\ In (severity a) canonical
                /\ postAlert payload = Ok (AlertData a)).
Proof.
  intros Ht Hs Hsv Hm Nt Ns Nsv Nm Lt Hst Hlv Hpr Hany Hg Hp Hz.
  destruct (validate_oversize_title payload t s sv m Ht Hs Hsv Hm
              Nt Ns Nsv Nm Lt) as [error Hv].
  assert (Hn : is_native payload = Ok false).
  { rewrite (is_native_validates payload t s sv m) by assumption.
    now rewrite Hv. }
  assert (Hgen : is_generic payload = Ok true).
  { unfold is_generic. rewrite Hm, Hst, Hlv, Hpr. cbn [bind].
    now rewrite (proj2 (truthy_string m) Nm), Hany. }
  assert (Hd : detectAndTransformWebhook payload
               = transformed (transformGenericWebhook payload)).
  { unfold detectAndTransformWebhook.
    rewrite Hn, Hg, Hp, Hz, Hgen. reflexivity. }
  split; [exact detect_is_first_match|].
  split; [exact Hn|]. split; [eauto|]. split; [exact Hd|].
  intros Hts.
  assert (Hsev : exists r,
             mapSeverity (or (or (VString sv) level) priority) status "generic"
             = Ok r).
  { apply mapSeverity_ok.
    rewrite !(or_l (VString sv)) by now apply truthy_string.
    reflexivity. }
  destruct Hsev as [r Hr].
  destruct (entries_defined payload _ _ Ht) as [es Hes].
  assert (Ha : exists a, transformGenericWebhook payload = Ok a
                         /\ title a = VString t /\ severity a = r
                         /\ source a = VString s).
  { unfold transformGenericWebhook.
    rewrite Hst, Hlv, Hes, Ht, Hs, Hsv, Hpr, Hm.
    rewrite (get_defined payload _ "title" "subject" Ht),
      (get_defined payload _ "title" "alert" Ht),
      (get_defined payload _ "title" "service" Ht),
      (get_defined payload _ "title" "host" Ht),
      (get_defined payload _ "title" "description" Ht),
      (get_defined payload _ "title" "timestamp" Ht).
    cbn [bind]. rewrite Hr. cbn [bind].
    destruct (truthy (get_opt payload "timestamp")).
    - unfold getTime.
      destruct (ToString (get_opt payload "timestamp")); [|discriminate].
      cbn [bind]. eexists. split; [reflexivity|].
      cbn [title severity source].
      rewrite !(or_l (VString t)) by now apply truthy_string.
      now rewrite !(or_l (VString s)) by now apply truthy_string.
    - cbn [bind]. eexists. split; [reflexivity|].
      cbn [title severity source].
      rewrite !(or_l (VString t)) by now apply truthy_string.
      now rewrite !(or_l (VString s)) by now apply truthy_string. }
  destruct Ha as [a [Ha [Hta [Hsa Hsrc]]]].
  exists a. repeat split; try assumption.
  - rewrite Hsa. exact (mapSeverity_canonical _ _ _ _ Hr).
  - unfold postAlert. rewrite Hd, Ha. cbn [transformed bind].
    rewrite Hta, Hsrc. reflexivity.
Qed.

Lemma oversize_title_goes_generic_witness :
  exists a, detectAndTransformWebhook oversize_payload = Ok (Some a)
            /\ title a = VString long_title
            /\ severity a = "critical".
Proof.
  assert (L : (200 < String.length long_title)%nat)
    by (apply Nat.ltb_lt; reflexivity).
  assert (Nt : long_title <> "") by discriminate.
  assert (Ns : "billing" <> "") by discriminate.
  assert (Nsv : "critical" <> "") by discriminate.
  assert (Nm : "queue is full" <> "") by discriminate.
  destruct (oversize_title_goes_generic oversize_payload
              (VString "firing") VUndefined VUndefined
              long_title "billing" "critical" "queue is full"
              eq_refl eq_refl eq_refl eq_refl Nt Ns Nsv Nm L
              eq_refl eq_refl eq_refl eq_refl eq_refl eq_refl eq_refl)
    as [_ [_ [_ [Hd Hok]]]].
  destruct (Hok eq_refl) as [a [Ha [Hta [_ _]]]].
  exists a. rewrite Hd, Ha. repeat split; [exact Hta|].
  revert Ha. vm_compute. intros [= <-]. reflexivity.
Defined.

End DetectionClaims.

(* ------------------------------------------------------------------ *)
(** ** Alert lifecycle in the database *)

Section Lifecycle.

Import Database.

(** [this.changes > 0] says whether some row met the [WHERE] clause. *)
Lemma changes_positive (p : Row -> bool) (t : table) :
  (0 <? List.length (filter p t))%nat = existsb p t.
Proof.
  induction t as [|r t IH]; simpl; [reflexivity|].
  destruct (p r); simpl; [reflexivity | exact IH].
Qed.

(** An [UPDATE] whose [WHERE] clause meets no row leaves the table alone. *)
Lemma update_nothing (p : Row -> bool) (f : Row -> Row) (t : table) :
  existsb p t = false -> map (fun r => if p r then f r else r) t = t.
Proof.
  induction t as [|r t IH]; simpl; [reflexivity|].
  intros H. apply orb_false_iff in H as [Hr Ht].
  now rewrite Hr, (IH Ht).
Qed.

(** A point lookup after an [UPDATE] that keeps the ids. *)
Lemma lookup_after_update (g : Row -> Row) (i : Z) (t : table) :
  (forall r, id (g r) = id r) ->
  getAlertById i (map g t) = option_map g (getAlertById i t).
Proof.
  intros Hid. unfold getAlertById.
  induction t as [|r t IH]; simpl; [reflexivity|].
  rewrite Hid. destruct (id r =? i)%Z; [reflexivity | exact IH].
Qed.

Lemma lookup_some (i : Z) (t : table) (r : Row) :
  getAlertById i t = Some r -> In r t /\ id r = i.
Proof.
  intros H. apply find_some in H as [Hin Heq].
  split; [assumption | now apply Z.eqb_eq].
Qed.

(** With the primary key unique, the lookup finds the row of that id. *)
Lemma lookup_unique (t : table) (r : Row) :
  NoDup (map id t) -> In r t -> getAlertById (id r) t = Some r.
Proof.
  unfold getAlertById.
  induction t as [|a t IH]; intros Hnd Hin; [contradiction|].
  simpl in *. inversion Hnd as [|x l Hnotin Hnd']; subst.
  destruct (Z.eqb_spec (id a) (id r)) as [E|E].
  - destruct Hin as [->|Hin]; [reflexivity|].
    exfalso. apply Hnotin. rewrite E. now apply in_map.
  - destruct Hin as [->|Hin]; [congruence | now apply IH].
Qed.

Lemma id_below_next (t : table) (r : Row) : In r t -> id r < next_id t.
Proof.
  unfold next_id. induction t as [|a t IH]; intros Hin; [contradiction|].
  cbn [map fold_right]. destruct Hin as [->|Hin]; [lia|].
  specialize (IH Hin). lia.
Qed.

Lemma map_id_update (p : Row -> bool) (f : Row -> Row) (t : table) :
  (forall r, id (f r) = id r) ->
  map id (map (fun r => if p r then f r else r) t) = map id t.
Proof.
  intros Hid. rewrite map_map. apply map_ext.
  intros r. destruct (p r); [apply Hid | reflexivity].
Qed.

Lemma exec_consistent (t : table) (s : statement) :
  consistent t -> consistent (exec t s).
Proof.
  intros [Hnd Hinv]. destruct s as [a now|i m c|i u now|i u now]; simpl.
  - unfold createAlert. destruct (includes _ _); [|now split]. simpl. split.
    + rewrite map_app. simpl.
      apply NoDup_app; [assumption | repeat constructor; simpl; tauto|].
      intros x Hx [<-|[]]. apply in_map_iff in Hx as [r [E Hin]].
      apply id_below_next in Hin. lia.
    + apply Forall_app. split; [assumption|].
      repeat constructor. unfold resolved_implies_acknowledged. simpl.
      discriminate.
  - split.
    + now rewrite map_id_update.
    + apply Forall_map. eapply Forall_impl; [|exact Hinv].
      intros r Hr. destruct (id r =? i)%Z; exact Hr.
  - split.
    + now rewrite map_id_update.
    + apply Forall_map. eapply Forall_impl; [|exact Hinv].
      intros r Hr. destruct (can_acknowledge i r); [|exact Hr].
      intros _. reflexivity.
  - split.
    + now rewrite map_id_update.
    + apply Forall_map. eapply Forall_impl; [|exact Hinv].
      intros r Hr. destruct (can_resolve i r) eqn:Hc; [|exact Hr].
      intros _. simpl. unfold can_resolve in Hc.
      apply andb_true_iff in Hc as [Hc _].
      now apply andb_true_iff in Hc as [_ Hc].
Qed.

Lemma reachable_consistent (t : table) : reachable t -> consistent t.
Proof.
  induction 1 as [|t s _ IH].
  - split; constructor.
  - now apply exec_consistent.
Qed.

(** The conditional update decided on the row the lookup returns. *)
Lemma exists_by_lookup (p q : Row -> bool) (i : Z) (t : table) :
  (forall r, q r = (id r =? i)%Z && p r) ->
  NoDup (map id t) ->
  existsb q t
  = match getAlertById i t with
    | Some r => p r
    | None => false
    end.
Proof.
  intros Hq Hnd.
  destruct (existsb q t) eqn:He.
  - apply existsb_exists in He as [r [Hin Hr]]. rewrite Hq in Hr.
    apply andb_true_iff in Hr as [Hi Hp]. apply Z.eqb_eq in Hi. subst i.
    now rewrite (lookup_unique t r Hnd Hin).
  - destruct (getAlertById i t) as [r|] eqn:Hl; [|reflexivity].
    apply lookup_some in Hl as [Hin Hi].
    destruct (p r) eqn:Hp; [|reflexivity].
    rewrite <- He. apply existsb_exists. exists r.
    split; [assumption|]. rewrite Hq, Hp, andb_true_r. now apply Z.eqb_eq.
Qed.

Lemma existsb_after_update (p : Row -> bool) (g : Row -> Row) (t : table) :
  (forall r, p (g r) = false) -> existsb p (map g t) = false.
Proof.
  intros H. induction t as [|r t IH]; simpl; [reflexivity|].
  now rewrite H, IH.
Qed.

Lemma resolveAlert_unfold (i : Z) (u : UserInfo) (now : Z) (t : table) :
  resolveAlert i u now t
  = (existsb (can_resolve i) t, map (resolve_row i u now) t).
Proof.
  unfold resolveAlert, sql_update. now rewrite changes_positive.
Qed.

Lemma acknowledgeAlert_unfold (i : Z) (u : UserInfo) (now : Z) (t : table) :
  acknowledgeAlert i u now t
  = (existsb (can_acknowledge i) t, map (acknowledge_row i u now) t).
Proof.
  unfold acknowledgeAlert, sql_update. now rewrite changes_positive.
Qed.

Lemma resolve_row_id (i : Z) (u : UserInfo) (now : Z) (r : Row) :
  id (resolve_row i u now r) = id r.
Proof. unfold resolve_row. now destruct (can_resolve i r). Qed.

Lemma acknowledge_row_id (i : Z) (u : UserInfo) (now : Z) (r : Row) :
  id (acknowledge_row i u now r) = id r.
Proof. unfold acknowledge_row. now destruct (can_acknowledge i r). Qed.

(** C1: in a reachable table, [resolveAlert] returns true exactly when the
    stored row of that id is acknowledged and not resolved, and then the row
    has [resolved] true and the resolver's name, id, full name and the time
    of the call, with every other column as it was; in every other case (no
    such id, not acknowledged, already resolved) it returns false and the
    table is unchanged.  No other row changes.  Hence
    every reachable table has [resolved] only on acknowledged rows, and a
    resolve on an id that was never acknowledged returns false and writes
    nothing. *)
Theorem resolveAlert_conditional
  (t : table) (alertId : Z) (u : UserInfo) (now : Z) :
  reachable t ->
  let ok := fst (resolveAlert alertId u now t) in
  let t' := snd (resolveAlert alertId u now t) in
  (ok = true <->
   exists r, getAlertById alertId t = Some r
             /\ acknowledged r = true /\ resolved r = false)
  /\ (ok = true ->
      exists r r',
        getAlertById alertId t = Some r
        /\ getAlertById alertId t' = Some r'
        /\ resolved r' = true
        /\ resolved_by r' = username u
        /\ resolved_by_id r' = Some (user_id u)
        /\ resolved_by_name r' = Some (fullName u)
        /\ resolved_at r' = Some now
        /\ (id r', title r', source r', severity r', message r',
            timestamp r', created_at r', metadata r',
            telegram_message_id r', chat_id r')
           = (id r, title r, source r, severity r, message r,
              timestamp r, created_at r, metadata r,
              telegram_message_id r, chat_id r)
        /\ (acknowledged r', acknowledged_by r', acknowledged_by_id r',
            acknowledged_by_name r', acknowledged_at r')
           = (acknowledged r, acknowledged_by r, acknowledged_by_id r,
              acknowledged_by_name r, acknowledged_at r))
  /\ (ok = false -> t' = t)
  /\ (forall r, getAlertById alertId t = Some r -> acknowledged r = false ->
      ok = false /\ t' = t)
  /\ (forall j, j <> alertId -> getAlertById j t' = getAlertById j t)
  /\ Forall resolved_implies_acknowledged t
  /\ reachable t'.
Proof.
  intros Hreach ok t'.
  destruct (reachable_consistent t Hreach) as [Hnd Hinv].
  assert (Hok : ok = match getAlertById alertId t with
                     | Some r => acknowledged r && negb (resolved r)
                     | None => false
                     end).
  { subst ok. rewrite resolveAlert_unfold. cbn [fst].
    apply exists_by_lookup; [|assumption].
    intros r. unfold can_resolve. now rewrite andb_assoc. }
  assert (Ht' : t' = map (resolve_row alertId u now) t).
  { subst t'. now rewrite resolveAlert_unfold. }
  assert (Hfalse : ok = false -> t' = t).
  { intros Hf. rewrite Ht'. apply update_nothing.
    subst ok. rewrite resolveAlert_unfold in Hf. exact Hf. }
  split; [|split; [|split; [|split; [|split; [|split]]]]].
  - rewrite Hok. destruct (getAlertById alertId t) as [r|]; split.
    + intros H. apply andb_true_iff in H as [Ha Hr].
      apply negb_true_iff in Hr. eauto.
    + intros [r' [[= <-] [Ha Hr]]]. now rewrite Ha, Hr.
    + discriminate.
    + intros [r' [[=] _]].
  - rewrite Hok. destruct (getAlertById alertId t) as [r|] eqn:Hl;
      [|discriminate].
    intros Hc. exists r, (set_resolved u now r). split; [reflexivity|].
    split; [|repeat split].
    rewrite Ht', lookup_after_update by apply resolve_row_id.
    rewrite Hl. simpl. f_equal. unfold resolve_row, can_resolve.
    apply lookup_some in Hl as [_ Hid].
    rewrite (proj2 (Z.eqb_eq _ _) Hid), <- andb_assoc. simpl. now rewrite Hc.
  - exact Hfalse.
  - intros r Hl Ha.
    assert (Hf : ok = false) by now rewrite Hok, Hl, Ha.
    split; [exact Hf | exact (Hfalse Hf)].
  - intros j Hj. rewrite Ht', lookup_after_update by apply resolve_row_id.
    destruct (getAlertById j t) as [r|] eqn:Hl; [|reflexivity].
    simpl. f_equal. unfold resolve_row, can_resolve.
    apply lookup_some in Hl as [_ Hid].
    assert (E : (id r =? alertId)%Z = false) by (apply Z.eqb_neq; lia).
    now rewrite E.
  - exact Hinv.
  - exact (reachable_exec t (Resolve alertId u now) Hreach).
Qed.

Lemma resolveAlert_conditional_witness :
  (exists r',
     getAlertById 1 (snd (resolveAlert 1 bob 1700000120 one_acknowledged))
     = Some r'
     /\ resolved r' = true
     /\ resolved_by_id r' = Some 1002
     /\ resolved_by_name r' = Some "Bob"
     /\ resolved_at r' = Some 1700000120
     /\ acknowledged_by r' = Some "alice")
  /\ fst (resolveAlert 1 bob 1700000120 one_alert) = false.
Proof.
  assert (R1 : reachable one_alert) by (repeat constructor).
  assert (R2 : reachable one_acknowledged) by (repeat constructor).
  split.
  - destruct (proj1 (proj2 (resolveAlert_conditional one_acknowledged 1 bob
                              1700000120 R2)) eq_refl)
      as [r [r' [Hr [Hr' [H1 [_ [H3 [H4 [H5 [_ Hack]]]]]]]]]].
    exists r'. repeat split; try assumption.
    assert (E : r = set_acknowledged alice 1700000060
                      (hd r one_alert)) by (now injection Hr).
    injection Hack as _ Hby _ _ _. rewrite Hby, E. reflexivity.
  - refine (proj1 (proj1 (proj2 (proj2 (proj2
              (resolveAlert_conditional one_alert 1 bob 1700000120 R1))))
              _ eq_refl eq_refl)).
Defined.

(** C2: in a reachable table, [acknowledgeAlert] returns true exactly when
    the stored row of that id is not yet acknowledged, and then sets
    [acknowledged], the actor's name, id and full name, and the time;
    otherwise (already acknowledged, or no such id) it returns false and the
    table is unchanged.  A second call for the same id, by whatever actor,
    returns false and changes nothing: after a successful call by actor A
    the alert stays attributed to A. *)
Theorem acknowledgeAlert_once
  (t : table) (alertId : Z) (actorA actorB : UserInfo) (nowA nowB : Z) :
  reachable t ->
  let first_call := acknowledgeAlert alertId actorA nowA t in
  let second_call := acknowledgeAlert alertId actorB nowB (snd first_call) in
  (fst first_call = true <->
   exists r, getAlertById alertId t = Some r /\ acknowledged r = false)
  /\ (fst first_call = true ->
      exists r, getAlertById alertId t = Some r
                /\ getAlertById alertId (snd first_call)
                   = Some (set_acknowledged actorA nowA r))
  /\ (fst first_call = false -> snd first_call = t)
  /\ (forall j, j <> alertId ->
      getAlertById j (snd first_call) = getAlertById j t)
  /\ fst second_call = false
  /\ snd second_call = snd first_call
  /\ (fst first_call = true ->
      exists r, getAlertById alertId (snd second_call) = Some r
                /\ acknowledged r = true
                /\ acknowledged_by r = username actorA
                /\ acknowledged_by_id r = Some (user_id actorA)
                /\ acknowledged_by_name r = Some (fullName actorA)
                /\ acknowledged_at r = Some nowA).
Proof.
  intros Hreach first_call second_call.
  destruct (reachable_consistent t Hreach) as [Hnd Hinv].
  assert (Hok : fst first_call
                = match getAlertById alertId t with
                  | Some r => negb (acknowledged r)
                  | None => false
                  end).
  { subst first_call. rewrite acknowledgeAlert_unfold. cbn [fst].
    apply exists_by_lookup; [|assumption]. reflexivity. }
  assert (Ht1 : snd first_call = map (acknowledge_row alertId actorA nowA) t).
  { subst first_call. now rewrite acknowledgeAlert_unfold. }
  assert (Hsecond : fst second_call = false).
  { subst second_call. rewrite acknowledgeAlert_unfold. cbn [fst].
    rewrite Ht1. apply existsb_after_update. intros r.
    unfold acknowledge_row, can_acknowledge.
    destruct (id r =? alertId)%Z eqn:E; simpl.
    - destruct (acknowledged r) eqn:A; simpl; now rewrite ?E, ?A.
    - now rewrite E. }
  assert (Hsame : snd second_call = snd first_call).
  { subst second_call. rewrite acknowledgeAlert_unfold. cbn [snd].
    apply update_nothing.
    rewrite acknowledgeAlert_unfold in Hsecond. exact Hsecond. }
  assert (Hset : fst first_call = true ->
            exists r, getAlertById alertId t = Some r
                      /\ getAlertById alertId (snd first_call)
                         = Some (set_acknowledged actorA nowA r)).
  { rewrite Hok. destruct (getAlertById alertId t) as [r|] eqn:Hl;
      [|discriminate].
    intros Hc. exists r. split; [reflexivity|].
    rewrite Ht1, lookup_after_update by apply acknowledge_row_id.
    rewrite Hl. simpl. f_equal. unfold acknowledge_row, can_acknowledge.
    apply lookup_some in Hl as [_ Hid].
    now rewrite (proj2 (Z.eqb_eq _ _) Hid), Hc. }
  split; [|split; [|split; [|split; [|split; [|split]]]]].
  - rewrite Hok. destruct (getAlertById alertId t) as [r|]; split.
    + intros H. apply negb_true_iff in H. eauto.
    + intros [r' [[= <-] Ha]]. now rewrite Ha.
    + discriminate.
    + intros [r' [[=] _]].
  - exact Hset.
  - intros Hf. rewrite Ht1. apply update_nothing.
    subst first_call. rewrite acknowledgeAlert_unfold in Hf. exact Hf.
  - intros j Hj. rewrite Ht1, lookup_after_update by apply acknowledge_row_id.
    destruct (getAlertById j t) as [r|] eqn:Hl; [|reflexivity].
    simpl. f_equal. unfold acknowledge_row, can_acknowledge.
    apply lookup_some in Hl as [_ Hid].
    assert (E : (id r =? alertId)%Z = false) by (apply Z.eqb_neq; lia).
    now rewrite E.
  - exact Hsecond.
  - exact Hsame.
  - intros Hc. destruct (Hset Hc) as [r [_ Hr]].
    exists (set_acknowledged actorA nowA r). rewrite Hsame.
    repeat split. exact Hr.
Qed.

Lemma acknowledgeAlert_once_witness :
  fst (acknowledgeAlert 1 bob 1700000090
         (snd (acknowledgeAlert 1 alice 1700000060 one_alert))) = false
  /\ exists r,
       getAlertById 1
         (snd (acknowledgeAlert 1 bob 1700000090
                 (snd (acknowledgeAlert 1 alice 1700000060 one_alert))))
       = Some r
       /\ acknowledged_by r = Some "alice".
Proof.
  assert (R : reachable one_alert) by (repeat constructor).
  destruct (acknowledgeAlert_once one_alert 1 alice bob 1700000060 1700000090 R)
    as [_ [_ [_ [_ [H2 [_ Hattr]]]]]].
  split; [exact H2|].
  destruct (Hattr eq_refl) as [r [Hr [_ [Hby _]]]].
  exists r. split; [exact Hr | exact Hby].
Defined.

(** A window without rows: the count is 0 and every sum is [NULL]. *)
Lemma getWeeklyReport_no_rows (now : Z) (t : table) :
  filter (in_window now) t = [] ->
  getWeeklyReport now t
  = {| Weekly.total := 0;
       Weekly.acknowledged := None;
       Weekly.resolved := None;
       Weekly.unacknowledged := None;
       Weekly.critical := None;
       Weekly.warning := None;
       Weekly.info := None |}.
Proof. intros H. unfold getWeeklyReport. now rewrite H. Qed.

(** C8 does not hold of the code.  With no row in the trailing seven days
    (an empty table, or one alert created eight days earlier) the report
    does not fail and its [total] is 0, but the six sums are [NULL], not 0. *)
Theorem getWeeklyReport_empty_window :
  getWeeklyReport 1700000000 []
  = {| Weekly.total := 0;
       Weekly.acknowledged := None;
       Weekly.resolved := None;
       Weekly.unacknowledged := None;
       Weekly.critical := None;
       Weekly.warning := None;
       Weekly.info := None |}
  /\ getWeeklyReport 1700000000 [] <> all_zero
  /\ filter (in_window (1700000000 + 8 * 86400)) one_alert = []
  /\ getWeeklyReport (1700000000 + 8 * 86400) one_alert
     = getWeeklyReport 1700000000 [].
Proof.
  split; [now apply getWeeklyReport_no_rows|].
  split; [discriminate|]. split; reflexivity.
Qed.

End Lifecycle.

(* ------------------------------------------------------------------ *)
(** ** More on the table *)

Section Table.

Import Database.

Lemma max_ids_seq (n : nat) :
  fold_right Z.max 0 (map Z.of_nat (seq 1 n)) = Z.of_nat n.
Proof.
  induction n as [|n IH]; [reflexivity|].
  rewrite seq_S, map_app, fold_right_app. cbn [map fold_right Nat.add].
  assert (G : forall (l : list Z) (m : Z),
             fold_right Z.max m l = Z.max m (fold_right Z.max 0 l) \/ m < 0).
  { intros l m. destruct (Z.ltb_spec m 0); [now right | left].
    induction l as [|x l IHl]; cbn [fold_right]; lia. }
  destruct (G (map Z.of_nat (seq 1 n)) (Z.max (Z.of_nat (S n)) 0)) as [E|E];
    [rewrite E, IH | ]; lia.
Qed.

Lemma exec_length (t : table) (s : statement) :
  (List.length t <= List.length (exec t s))%nat.
Proof.
  destruct s as [a now|i m c|i u now|i u now]; simpl.
  - unfold createAlert. destruct (includes _ _); [|lia].
    rewrite length_app. simpl. lia.
  - now rewrite length_map.
  - now rewrite length_map.
  - now rewrite length_map.
Qed.

Lemma reachable_ids (t : table) :
  reachable t -> map id t = map Z.of_nat (seq 1 (List.length t)).
Proof.
  induction 1 as [|t s Hr IH]; [reflexivity|].
  destruct s as [a now|i m c|i u now|i u now]; simpl.
  - unfold createAlert. destruct (includes _ _); [|exact IH]. simpl.
    rewrite map_app, length_app, Nat.add_1_r, seq_S, map_app, <- IH.
    f_equal. simpl. f_equal. unfold next_id.
    rewrite IH, max_ids_seq. lia.
  - rewrite map_id_update, length_map; [exact IH | reflexivity].
  - rewrite map_id_update, length_map; [exact IH | reflexivity].
  - rewrite map_id_update, length_map; [exact IH | reflexivity].
Qed.

(** X1: rowids are dense.  In a reachable table the ids are 1, 2, ..., n in
    insertion order, n the number of rows: none is skipped or used twice,
    and a lookup finds an alert exactly for an id between 1 and n. *)
Theorem alert_ids_are_dense (t : table) :
  reachable t ->
  map id t = map Z.of_nat (seq 1 (List.length t))
  /\ forall i, (exists r, getAlertById i t = Some r)
               <-> 1 <= i <= Z.of_nat (List.length t).
Proof.
  intros Hr. pose proof (reachable_ids t Hr) as Hids.
  destruct (reachable_consistent t Hr) as [Hnd _].
  split; [exact Hids|]. intros i. split.
  - intros [r Hl]. apply lookup_some in Hl as [Hin <-].
    apply (in_map id) in Hin. rewrite Hids in Hin.
    apply in_map_iff in Hin as [n [<- Hn]]. apply in_seq in Hn. lia.
  - intros Hi.
    assert (Hin : In i (map id t)).
    { rewrite Hids. apply in_map_iff. exists (Z.to_nat i).
      split; [lia|]. apply in_seq. lia. }
    apply in_map_iff in Hin as [r [<- Hin]].
    exists r. now apply lookup_unique.
Qed.

Lemma alert_ids_are_dense_witness :
  exists r, getAlertById 1 one_acknowledged = Some r.
Proof.
  assert (R : reachable one_acknowledged) by (repeat constructor).
  apply (proj2 (alert_ids_are_dense one_acknowledged R)).
  simpl. lia.
Defined.

Lemma lookup_app_old (i : Z) (t extra : table) (r : Row) :
  getAlertById i t = Some r -> getAlertById i (t ++ extra)%list = Some r.
Proof.
  unfold getAlertById. induction t as [|a t IH]; simpl; [discriminate|].
  destruct (id a =? i)%Z; [auto | exact IH].
Qed.

Lemma lookup_app_new (i : Z) (t extra : table) :
  getAlertById i t = None ->
  getAlertById i (t ++ extra)%list = getAlertById i extra.
Proof.
  unfold getAlertById. induction t as [|a t IH]; simpl; [reflexivity|].
  destruct (id a =? i)%Z; [discriminate | exact IH].
Qed.

Lemma lookup_fresh (t : table) : getAlertById (next_id t) t = None.
Proof.
  destruct (getAlertById (next_id t) t) as [r|] eqn:H; [|reflexivity].
  apply lookup_some in H as [Hin Hid]. apply id_below_next in Hin. lia.
Qed.

(** X2: storing an alert and reading it back.  Whenever [createAlert] is
    accepted on a reachable table, the severity is one of critical, warning,
    info, the new id is the number of rows plus one and was not in use, the
    table has one row more, the lookup of the new id returns the inserted
    columns with both flags false, no attribution and no delivery, and every
    other lookup is as before. *)
Theorem createAlert_then_get
  (t : table) (a : NewAlert) (now i : Z) (t' : table) :
  reachable t ->
  createAlert a now t = Some (i, t') ->
  In (new_severity a) canonical
  /\ i = Z.of_nat (List.length t) + 1
  /\ getAlertById i t = None
  /\ List.length t' = S (List.length t)
  /\ (exists r, getAlertById i t' = Some r
                /\ facts r = (i, new_title a, new_source a,
                              new_severity a, new_message a,
                              new_timestamp a, now, new_metadata a)
                /\ acknowledgement r = (false, None, None, None, None)
                /\ resolution r = (false, None, None, None, None)
                /\ telegram_message_id r = None /\ chat_id r = None)
  /\ (forall j, j <> i -> getAlertById j t' = getAlertById j t).
Proof.
  intros Hr. unfold createAlert.
  destruct (includes (new_severity a) _) eqn:Hc; [|discriminate].
  apply includes_In in Hc. intros [= <- <-].
  assert (Hn : next_id t = Z.of_nat (List.length t) + 1).
  { unfold next_id. rewrite (reachable_ids t Hr), max_ids_seq. lia. }
  split; [exact Hc|]. split; [exact Hn|]. split; [apply lookup_fresh|].
  split; [rewrite length_app; cbn [List.length]; lia|]. split.
  - eexists. split.
    + rewrite lookup_app_new by apply lookup_fresh.
      unfold getAlertById. cbn [find id]. now rewrite Z.eqb_refl.
    + repeat split.
  - intros j Hj. destruct (getAlertById j t) as [r|] eqn:Hl.
    + now apply lookup_app_old.
    + rewrite lookup_app_new by assumption.
      unfold getAlertById. cbn [find id].
      destruct (Z.eqb_spec (next_id t) j); [congruence | reflexivity].
Qed.

Lemma createAlert_then_get_witness :
  exists r, getAlertById 1 one_alert = Some r
            /\ title r = "Disk almost full" /\ acknowledged r = false.
Proof.
  destruct (createAlert_then_get [] disk_alert 1700000000 1 one_alert
              reachable_empty eq_refl)
    as [_ [_ [_ [_ [[r [Hr [Hf [Ha _]]]] _]]]]].
  exists r. split; [exact Hr|]. split.
  - now injection Hf.
  - now injection Ha.
Defined.

(** One statement keeps every row that was there. *)
Lemma exec_keeps_row (t : table) (s : statement) (j : Z) (r : Row) :
  getAlertById j t = Some r ->
  exists r', getAlertById j (exec t s) = Some r'
             /\ facts r' = facts r
             /\ (acknowledged r = true -> acknowledgement r' = acknowledgement r)
             /\ (resolved r = true -> resolution r' = resolution r).
Proof.
  intros Hl. destruct s as [a now|i m c|i u now|i u now]; cbn [exec].
  - exists r. split; [|auto]. unfold createAlert.
    destruct (includes _ _); [|exact Hl]. now apply lookup_app_old.
  - unfold updateTelegramInfo, sql_update. cbn [snd].
    rewrite lookup_after_update, Hl.
    + simpl. eexists. split; [reflexivity|].
      destruct (id r =? i)%Z; auto.
    + intros x. now destruct (id x =? i)%Z.
  - rewrite acknowledgeAlert_unfold. cbn [snd].
    rewrite lookup_after_update, Hl by apply acknowledge_row_id.
    simpl. eexists. split; [reflexivity|].
    unfold acknowledge_row, can_acknowledge.
    destruct (id r =? i)%Z; simpl; auto.
    destruct (acknowledged r) eqn:A; simpl; auto.
    repeat split; auto. discriminate.
  - rewrite resolveAlert_unfold. cbn [snd].
    rewrite lookup_after_update, Hl by apply resolve_row_id.
    simpl. eexists. split; [reflexivity|].
    unfold resolve_row, can_resolve.
    destruct (id r =? i)%Z; simpl; auto.
    destruct (acknowledged r) eqn:A; simpl; auto.
    destruct (resolved r) eqn:R; simpl; auto.
    repeat split; auto. discriminate.
Qed.

(** X3: history is never rewritten.  Whatever statements run afterwards,
    an alert that is stored stays stored under its id with the columns it
    was created with; once acknowledged it keeps its acknowledgement (flag,
    actor and time), and once resolved it keeps its resolution. *)
Theorem stored_alert_is_permanent
  (t : table) (ss : list statement) (j : Z) (r : Row) :
  getAlertById j t = Some r ->
  exists r', getAlertById j (run t ss) = Some r'
             /\ facts r' = facts r
             /\ (acknowledged r = true -> acknowledgement r' = acknowledgement r)
             /\ (resolved r = true -> resolution r' = resolution r).
Proof.
  revert t r. induction ss as [|s ss IH]; intros t r Hl.
  - exists r. auto.
  - destruct (exec_keeps_row t s j r Hl) as [r1 [H1 [F1 [A1 R1]]]].
    destruct (IH (exec t s) r1 H1) as [r2 [H2 [F2 [A2 R2]]]].
    exists r2. split; [exact H2|]. split; [congruence|]. split.
    + intros A. pose proof (A1 A) as E1.
      assert (A' : acknowledged r1 = true).
      { unfold acknowledgement in E1. injection E1. congruence. }
      rewrite (A2 A'). exact E1.
    + intros R. pose proof (R1 R) as E1.
      assert (R' : resolved r1 = true).
      { unfold resolution in E1. injection E1. congruence. }
      rewrite (R2 R'). exact E1.
Qed.

Lemma stored_alert_is_permanent_witness :
  exists r, getAlertById 1
              (run one_acknowledged
                 [Acknowledge 1 bob 1700000100; Resolve 1 bob 1700000200;
                  Create disk_alert 1700000300; Telegram 1 77 (-100)])
            = Some r
            /\ acknowledged_by r = Some "alice".
Proof.
  assert (H0 : exists r0, getAlertById 1 one_acknowledged = Some r0
                          /\ acknowledged r0 = true
                          /\ acknowledged_by r0 = Some "alice").
  { eexists. repeat split. }
  destruct H0 as [r0 [H0 [A0 B0]]].
  destruct (stored_alert_is_permanent one_acknowledged
              [Acknowledge 1 bob 1700000100; Resolve 1 bob 1700000200;
               Create disk_alert 1700000300; Telegram 1 77 (-100)]
              1 r0 H0) as [r [Hr [_ [Ha _]]]].
  exists r. split; [exact Hr|].
  specialize (Ha A0). unfold acknowledgement in Ha. injection Ha. congruence.
Defined.

Lemma unack_count_map (g : Row -> Row) (t : table) :
  (forall r, acknowledged (g r) = acknowledged r) ->
  List.length (filter unack (map g t)) = List.length (filter unack t).
Proof.
  intros Hg. unfold unack.
  induction t as [|r t IH]; simpl; [reflexivity|].
  rewrite Hg. destruct (acknowledged r); simpl; now rewrite IH.
Qed.

Lemma unack_count_acknowledge (i : Z) (u : UserInfo) (now : Z) (t : table) :
  (List.length (filter unack (map (acknowledge_row i u now) t))
   + List.length (filter (can_acknowledge i) t)
   = List.length (filter unack t))%nat.
Proof.
  induction t as [|r t IH]; cbn [map filter]; [reflexivity|].
  assert (H : unack (acknowledge_row i u now r)
              = unack r && negb (can_acknowledge i r)
              /\ (can_acknowledge i r = true -> unack r = true)).
  { unfold unack, acknowledge_row, can_acknowledge.
    destruct (id r =? i)%Z; destruct (acknowledged r) eqn:A; simpl;
      rewrite ?A; split; auto; discriminate. }
  destruct H as [H1 H2]. rewrite H1.
  destruct (can_acknowledge i r); [rewrite H2 by reflexivity|];
    destruct (unack r); cbn [andb negb List.length]; lia.
Qed.

Lemma filter_none {A : Type} (f : A -> bool) (l : list A) :
  (forall x, In x l -> f x = false) -> filter f l = [].
Proof.
  induction l as [|a l IH]; intros H; simpl; [reflexivity|].
  rewrite (H a) by now left. apply IH. intros x Hx. apply H. now right.
Qed.

Lemma at_most_one_row (p : Row -> bool) (i : Z) (t : table) :
  NoDup (map id t) ->
  (List.length (filter (fun r => (id r =? i)%Z && p r) t) <= 1)%nat.
Proof.
  induction t as [|r t IH]; intros Hnd; simpl; [lia|].
  inversion Hnd as [|x l Hnotin Hnd']; subst.
  destruct (Z.eqb_spec (id r) i) as [E|E]; simpl; [|auto].
  assert (Hnone : filter (fun r0 => (id r0 =? i)%Z && p r0) t = []).
  { apply filter_none. intros x Hx.
    destruct (Z.eqb_spec (id x) i) as [E'|E']; [|reflexivity].
    exfalso. apply Hnotin. rewrite E, <- E'. now apply in_map. }
  destruct (p r); simpl; rewrite Hnone; simpl; lia.
Qed.

(** X4: the number of unacknowledged alerts moves by one at a time.  In a
    reachable table an accepted [createAlert] raises
    [getUnacknowledgedCount] by one, a successful [acknowledgeAlert] lowers
    it by one, and nothing else changes it (a refused insert, a failed
    acknowledge, [resolveAlert], [updateTelegramInfo]). *)
Theorem unacknowledged_count_step (t : table) (s : statement) :
  reachable t ->
  getUnacknowledgedCount (exec t s)
  = getUnacknowledgedCount t + unacknowledged_delta t s.
Proof.
  intros Hr. destruct (reachable_consistent t Hr) as [Hnd _].
  unfold getUnacknowledgedCount, sql_count.
  change (fun r => negb (acknowledged r)) with unack.
  destruct s as [a now|i m c|i u now|i u now];
    cbn [exec unacknowledged_delta].
  - unfold createAlert. destruct (includes _ _); [|lia].
    rewrite filter_app, length_app. simpl. lia.
  - unfold updateTelegramInfo, sql_update. cbn [snd].
    rewrite unack_count_map; [lia|].
    intros r. now destruct (id r =? i)%Z.
  - rewrite acknowledgeAlert_unfold. cbn [fst snd].
    pose proof (unack_count_acknowledge i u now t) as Hsum.
    assert (Hone : (List.length (filter (can_acknowledge i) t) <= 1)%nat)
      by exact (at_most_one_row (fun r => negb (acknowledged r)) i t Hnd).
    rewrite <- changes_positive. revert Hsum Hone.
    destruct (List.length (filter (can_acknowledge i) t)) as [|[|n]];
      intros Hsum Hone; cbn [Nat.ltb Nat.leb]; lia.
  - rewrite resolveAlert_unfold. cbn [snd].
    rewrite unack_count_map; [lia|].
    intros r. unfold resolve_row. now destruct (can_resolve i r).
Qed.

Lemma unacknowledged_count_step_witness :
  getUnacknowledgedCount one_alert = 1
  /\ getUnacknowledgedCount one_acknowledged = 0.
Proof.
  split.
  - exact (unacknowledged_count_step [] (Create disk_alert 1700000000)
             reachable_empty).
  - assert (R : reachable one_alert) by (repeat constructor).
    exact (unacknowledged_count_step one_alert
             (Acknowledge 1 alice 1700000060) R).
Defined.

Lemma reachable_severities (t : table) :
  reachable t -> Forall (fun r => In (severity r) canonical) t.
Proof.
  induction 1 as [|t s _ IH]; [constructor|].
  destruct s as [a now|i m c|i u now|i u now]; cbn [exec].
  - unfold createAlert. destruct (includes _ _) eqn:Hc; [|exact IH].
    apply Forall_app. split; [exact IH|].
    constructor; [|constructor]. cbn [severity]. now apply includes_In.
  - unfold updateTelegramInfo, sql_update. cbn [snd]. apply Forall_map.
    eapply Forall_impl; [|exact IH]. intros r Hs.
    now destruct (id r =? i)%Z.
  - rewrite acknowledgeAlert_unfold. cbn [snd]. apply Forall_map.
    eapply Forall_impl; [|exact IH]. intros r Hs.
    unfold acknowledge_row. now destruct (can_acknowledge i r).
  - rewrite resolveAlert_unfold. cbn [snd]. apply Forall_map.
    eapply Forall_impl; [|exact IH]. intros r Hs.
    unfold resolve_row. now destruct (can_resolve i r).
Qed.

Lemma Forall_filter_sub {A : Type} (P : A -> Prop) (f : A -> bool)
  (l : list A) : Forall P l -> Forall P (filter f l).
Proof.
  intros H. apply Forall_forall. intros x Hx.
  apply filter_In in Hx as [Hx _]. revert x Hx. now apply Forall_forall.
Qed.

Lemma sum_of_flag (p : Row -> bool) (rows : table) :
  0 <= sum_of (case_when p) rows
  /\ sum_of (case_when p) rows
     + sum_of (case_when (fun r => negb (p r))) rows
     = Z.of_nat (List.length rows).
Proof.
  unfold sum_of. induction rows as [|r rows IH];
    cbn [map fold_right List.length]; [simpl; lia|].
  rewrite Nat2Z.inj_succ.
  assert (H : 0 <= case_when p r
              /\ case_when p r + case_when (fun r => negb (p r)) r = 1)
    by (unfold case_when; destruct (p r); simpl; lia).
  lia.
Qed.

Lemma sum_of_le (p q : Row -> bool) (rows : table) :
  Forall (fun r => p r = true -> q r = true) rows ->
  sum_of (case_when p) rows <= sum_of (case_when q) rows.
Proof.
  unfold sum_of. induction 1 as [|r rows Hr _ IH]; cbn [map fold_right];
    [lia|].
  assert (H : case_when p r <= case_when q r).
  { unfold case_when. destruct (p r); [rewrite Hr by reflexivity|];
      try destruct (q r); lia. }
  lia.
Qed.

Lemma sum_of_severities (rows : table) :
  Forall (fun r => In (severity r) canonical) rows ->
  sum_of (case_when (fun r => severity r =? "critical")%string) rows
  + sum_of (case_when (fun r => severity r =? "warning")%string) rows
  + sum_of (case_when (fun r => severity r =? "info")%string) rows
  = Z.of_nat (List.length rows).
Proof.
  unfold sum_of. induction 1 as [|r rows Hr _ IH];
    cbn [map fold_right List.length]; [reflexivity|].
  rewrite Nat2Z.inj_succ.
  assert (H : case_when (fun r => severity r =? "critical")%string r
              + case_when (fun r => severity r =? "warning")%string r
              + case_when (fun r => severity r =? "info")%string r = 1).
  { unfold case_when. destruct Hr as [<-|[<-|[<-|[]]]]; reflexivity. }
  lia.
Qed.

(** X5: the weekly report adds up.  In a reachable table, when at least one
    alert was created in the window, all seven counts are numbers, [total]
    is the number of rows in the window, acknowledged + unacknowledged =
    total, critical + warning + info = total, and resolved is at most
    acknowledged. *)
Theorem weekly_report_adds_up (t : table) (now : Z) :
  reachable t ->
  0 < Weekly.total (getWeeklyReport now t) ->
  exists a r u c w i,
    getWeeklyReport now t
    = {| Weekly.total := Z.of_nat (List.length (filter (in_window now) t));
         Weekly.acknowledged := Some a;
         Weekly.resolved := Some r;
         Weekly.unacknowledged := Some u;
         Weekly.critical := Some c;
         Weekly.warning := Some w;
         Weekly.info := Some i |}
    /\ a + u = Weekly.total (getWeeklyReport now t)
    /\ c + w + i = Weekly.total (getWeeklyReport now t)
    /\ 0 <= r <= a /\ 0 <= u /\ 0 <= c /\ 0 <= w /\ 0 <= i.
Proof.
  intros Hr Hpos.
  destruct (reachable_consistent t Hr) as [_ Hinv].
  pose proof (reachable_severities t Hr) as Hsev.
  unfold getWeeklyReport in *. cbn [Weekly.total] in *.
  set (rows := filter (in_window now) t) in *.
  assert (Hinv' : Forall resolved_implies_acknowledged rows)
    by now apply Forall_filter_sub.
  assert (Hsev' : Forall (fun r => In (severity r) canonical) rows)
    by now apply Forall_filter_sub.
  unfold sql_count in *.
  destruct rows as [|r0 rows'] eqn:Erows; [simpl in Hpos; lia|].
  rewrite <- Erows in *. clear Hpos.
  assert (Hsum : forall e, sql_sum e rows = Some (sum_of e rows)).
  { intros e. rewrite Erows. reflexivity. }
  rewrite !Hsum.
  do 6 eexists. split; [reflexivity|].
  pose proof (sum_of_flag acknowledged rows) as [Ha Hau].
  pose proof (sum_of_flag resolved rows) as [Hres _].
  pose proof (sum_of_flag (fun r => negb (acknowledged r)) rows) as [Hu _].
  pose proof (sum_of_flag (fun r => severity r =? "critical")%string rows)
    as [Hc _].
  pose proof (sum_of_flag (fun r => severity r =? "warning")%string rows)
    as [Hw _].
  pose proof (sum_of_flag (fun r => severity r =? "info")%string rows)
    as [Hi _].
  pose proof (sum_of_le resolved acknowledged rows Hinv') as Hle.
  pose proof (sum_of_severities rows Hsev') as Hs.
  repeat split; try assumption; lia.
Qed.

Lemma weekly_report_adds_up_witness :
  exists a u, Weekly.acknowledged (getWeeklyReport 1700000100 one_acknowledged)
              = Some a
              /\ Weekly.unacknowledged
                   (getWeeklyReport 1700000100 one_acknowledged) = Some u
              /\ a + u = 1.
Proof.
  assert (R : reachable one_acknowledged) by (repeat constructor).
  destruct (weekly_report_adds_up one_acknowledged 1700000100 R eq_refl)
    as [a [r [u [c [w [i [E [Hau _]]]]]]]].
  exists a, u. rewrite E. repeat split. exact Hau.
Defined.

Lemma createAlert_then_get_aux_none (t : table) (a : NewAlert) (now : Z) :
  createAlert a now t = None -> ~ In (new_severity a) canonical.
Proof.
  unfold createAlert. destruct (includes _ _) eqn:Hc; [discriminate|].
  intros _ Hin. apply includes_In in Hin. unfold canonical in Hin.
  congruence.
Qed.

Lemma createAlert_row
  (t : table) (a : NewAlert) (now i : Z) (t' : table) :
  reachable t -> createAlert a now t = Some (i, t') ->
  0 <= i
  /\ exists r, getAlertById i t' = Some r
               /\ r = {| id := i;
                         title := new_title a;
                         source := new_source a;
                         severity := new_severity a;
                         message := new_message a;
                         timestamp := new_timestamp a;
                         created_at := now;
                         metadata := new_metadata a;
                         telegram_message_id := None;
                         chat_id := None;
                         acknowledged := false;
                         acknowledged_by := None;
                         acknowledged_by_id := None;
                         acknowledged_by_name := None;
                         acknowledged_at := None;
                         resolved := false;
                         resolved_by := None;
                         resolved_by_id := None;
                         resolved_by_name := None;
                         resolved_at := None |}.
Proof.
  intros Hr. unfold createAlert.
  destruct (includes _ _); [|discriminate]. intros [= <- <-].
  assert (Hn : next_id t = Z.of_nat (List.length t) + 1).
  { unfold next_id. rewrite (reachable_ids t Hr), max_ids_seq. lia. }
  split; [lia|]. eexists. split; [|reflexivity].
  rewrite lookup_app_new by apply lookup_fresh.
  unfold getAlertById. cbn [find id]. now rewrite Z.eqb_refl.
Qed.

Lemma filter_same {A : Type} (f g : A -> bool) (l : list A) :
  (forall x, f x = g x) -> filter f l = filter g l.
Proof.
  intros H. induction l as [|a l IH]; simpl; [reflexivity|].
  now rewrite H, IH.
Qed.

(** X6: recording a delivery.  In a reachable table [updateTelegramInfo]
    reports one changed row when the alert exists and none otherwise.  When
    the alert exists, its row afterwards has the given message id and chat
    id, replacing any earlier ones, and every other column as it was; when
    it does not, the table is unchanged.  Every other alert is left as it
    was. *)
Theorem updateTelegramInfo_records_delivery
  (t : table) (alertId telegramMessageId chatId : Z) :
  reachable t ->
  let changes := fst (updateTelegramInfo alertId telegramMessageId chatId t) in
  let t' := snd (updateTelegramInfo alertId telegramMessageId chatId t) in
  changes = (match getAlertById alertId t with Some _ => 1 | None => 0 end)%nat
  /\ (forall r, getAlertById alertId t = Some r ->
      exists r', getAlertById alertId t' = Some r'
                 /\ telegram_message_id r' = Some telegramMessageId
                 /\ chat_id r' = Some chatId
                 /\ facts r' = facts r
                 /\ acknowledgement r' = acknowledgement r
                 /\ resolution r' = resolution r)
  /\ (getAlertById alertId t = None -> t' = t)
  /\ (forall j, j <> alertId -> getAlertById j t' = getAlertById j t).
Proof.
  intros Hr changes t'. subst changes t'.
  destruct (reachable_consistent t Hr) as [Hnd _].
  unfold updateTelegramInfo, sql_update. cbn [fst snd].
  assert (Hid : forall r,
            id (if (id r =? alertId)%Z
                then set_telegram telegramMessageId chatId r else r) = id r)
    by (intros r; now destruct (id r =? alertId)%Z).
  pose proof (exists_by_lookup (fun _ => true)
                (fun r => (id r =? alertId)%Z) alertId t
                (fun r => eq_sym (andb_true_r _)) Hnd) as Hex.
  split; [|split; [|split]].
  - pose proof (at_most_one_row (fun _ => true) alertId t Hnd) as Hone.
    rewrite (filter_same _ (fun r => (id r =? alertId)%Z)) in Hone
      by (intros x; apply andb_true_r).
    rewrite <- changes_positive in Hex. revert Hone Hex.
    destruct (List.length (filter (fun r => (id r =? alertId)%Z) t))
      as [|[|n]]; destruct (getAlertById alertId t);
      cbn [Nat.ltb Nat.leb]; intros Hone Hex;
      try reflexivity; try discriminate; lia.
  - intros r Hl. rewrite lookup_after_update by exact Hid.
    rewrite Hl. apply lookup_some in Hl as [_ E]. cbn [option_map].
    rewrite (proj2 (Z.eqb_eq _ _) E).
    exists (set_telegram telegramMessageId chatId r). repeat split.
  - intros Hl. apply update_nothing. now rewrite Hex, Hl.
  - intros j Hj. rewrite lookup_after_update by exact Hid.
    destruct (getAlertById j t) as [r|] eqn:Hl; [|reflexivity].
    apply lookup_some in Hl as [_ E]. cbn [option_map].
    assert (E' : (id r =? alertId)%Z = false) by (apply Z.eqb_neq; lia).
    now rewrite E'.
Qed.

Lemma updateTelegramInfo_records_delivery_witness :
  (exists r', getAlertById 1 (snd (updateTelegramInfo 1 555 (-1001) one_alert))
              = Some r'
              /\ telegram_message_id r' = Some 555
              /\ chat_id r' = Some (-1001)
              /\ title r' = "Disk almost full")
  /\ snd (updateTelegramInfo 2 555 (-1001) one_alert) = one_alert.
Proof.
  assert (R : reachable one_alert) by (repeat constructor).
  split.
  - destruct (proj1 (proj2 (updateTelegramInfo_records_delivery one_alert 1 555
                              (-1001) R)) _ eq_refl)
      as [r' [Hr' [Hm [Hc [Hf _]]]]].
    exists r'. repeat split; try assumption. now injection Hf.
  - exact (proj1 (proj2 (proj2 (updateTelegramInfo_records_delivery one_alert 2
                                  555 (-1001) R))) eq_refl).
Defined.

End Table.

(* ------------------------------------------------------------------ *)
(** ** Buttons and callbacks *)

Section Buttons.

Lemma string_of_uint_digits (d : Decimal.uint) :
  all_digits (NilEmpty.string_of_uint d) = true.
Proof. induction d; simpl; auto. Qed.

Lemma parse_digits_acc (d : Decimal.uint) (acc : positive) :
  parse_digits (Z.pos acc) (NilEmpty.string_of_uint d)
  = Z.pos (Pos.of_uint_acc d acc).
Proof.
  revert acc. induction d as [|d IH|d IH|d IH|d IH|d IH|d IH|d IH|d IH|d IH|d IH];
    intros acc; [reflexivity|..];
    cbn [NilEmpty.string_of_uint parse_digits Pos.of_uint_acc];
    match goal with
    | |- (if is_digit ?c then _ else _) = _ =>
        change (is_digit c) with true; cbv iota
    end;
    rewrite <- IH; f_equal;
    try match goal with
        | |- context [Z.of_nat ?e] =>
            let v := eval vm_compute in (Z.of_nat e) in
            change (Z.of_nat e) with v
        end;
    lia.
Qed.

Lemma parse_digits_uint (d : Decimal.uint) :
  parse_digits 0 (NilEmpty.string_of_uint d) = Z.of_N (Pos.of_uint d).
Proof.
  induction d as [|d IH|d IH|d IH|d IH|d IH|d IH|d IH|d IH|d IH|d IH];
    [reflexivity|exact IH|..];
    cbn [NilEmpty.string_of_uint parse_digits Pos.of_uint];
    match goal with
    | |- (if is_digit ?c then _ else _) = _ =>
        change (is_digit c) with true; cbv iota
    end;
    cbn [Z.of_N]; rewrite <- parse_digits_acc; reflexivity.
Qed.

(** A number that is not negative prints as a run of digits that reads
    back as the number. *)
Lemma string_of_Z_digit_run (n : Z) :
  0 <= n -> digit_run (string_of_Z n) /\ decimal_value (string_of_Z n) = n.
Proof.
  intros Hn.
  assert (H : string_of_Z n <> "" /\ all_digits (string_of_Z n) = true
              /\ parse_digits 0 (string_of_Z n) = n).
  { destruct n as [|p|p]; [repeat split; discriminate| |lia].
    unfold string_of_Z. cbn [Z.to_int NilZero.string_of_int].
    pose proof (DecimalPos.Unsigned.to_uint_nonnil p) as Hnil.
    unfold NilZero.string_of_uint.
    destruct (Pos.to_uint p) as [|d|d|d|d|d|d|d|d|d|d] eqn:E;
      [congruence|..];
      (split; [discriminate|]; split; [apply string_of_uint_digits|];
       rewrite parse_digits_uint, <- E, DecimalPos.Unsigned.of_to;
       reflexivity). }
  destruct H as [Hne [Hd Hp]]. split.
  - split; [exact Hne | now apply all_digits_spec].
  - rewrite parse_digits_value in Hp by exact Hd. lia.
Qed.

Lemma keyboard_callbacks (alertId : Z) :
  0 <= alertId ->
  extractAlertIdFromCallback (createAcknowledgeKeyboard alertId)
  = Some {| id := Some alertId; action := "acknowledge" |}
  /\ extractAlertIdFromCallback (createResolveKeyboard alertId)
     = Some {| id := Some alertId; action := "resolve" |}.
Proof.
  intros Hn. destruct (string_of_Z_digit_run alertId Hn) as [Hrun Hval].
  unfold extractAlertIdFromCallback, createAcknowledgeKeyboard,
    createResolveKeyboard.
  split.
  - rewrite (proj2 (match_digits_spec "ack_" _ (string_of_Z alertId))
               (conj eq_refl Hrun)).
    now rewrite (parseInt_digit_run _ Hrun), Hval.
  - assert (Hnone : match_digits "ack_" ("resolve_" ++ string_of_Z alertId)
                    = None).
    { apply match_digits_none. intros ds [E _]. discriminate E. }
    rewrite Hnone.
    rewrite (proj2 (match_digits_spec "resolve_" _ (string_of_Z alertId))
               (conj eq_refl Hrun)).
    now rewrite (parseInt_digit_run _ Hrun), Hval.
Qed.

Lemma negative_prints_sign (alertId : Z) :
  alertId < 0 -> exists ds, string_of_Z alertId = String "-" ds.
Proof.
  destruct alertId as [|p|p]; try lia. intros _.
  unfold string_of_Z. cbn [Z.to_int NilZero.string_of_int]. eauto.
Qed.

(** X7: the buttons round-trip.  For every alert id from 0 up to 2^53
    (where a number prints as its decimal digits), the callback data of the
    acknowledge button is read back as that id with the action acknowledge,
    and the callback data of the resolve button as that id with the action
    resolve.  The callback data written for a negative id is refused. *)
Theorem keyboard_callback_round_trip (alertId : Z) :
  alertId < 2 ^ 53 ->
  extractAlertIdFromCallback (createAcknowledgeKeyboard alertId)
  = (if (0 <=? alertId)%Z
     then Some {| id := Some alertId; action := "acknowledge" |}
     else None)
  /\ extractAlertIdFromCallback (createResolveKeyboard alertId)
     = (if (0 <=? alertId)%Z
        then Some {| id := Some alertId; action := "resolve" |}
        else None).
Proof.
  intros _. destruct (Z.leb_spec 0 alertId) as [Hn|Hn].
  - now apply keyboard_callbacks.
  - destruct (negative_prints_sign alertId Hn) as [ds Hds].
    unfold extractAlertIdFromCallback, createAcknowledgeKeyboard,
      createResolveKeyboard. rewrite Hds. split; reflexivity.
Qed.

Lemma keyboard_callback_round_trip_witness :
  extractAlertIdFromCallback (createAcknowledgeKeyboard 90210)
  = Some {| id := Some 90210; action := "acknowledge" |}
  /\ extractAlertIdFromCallback (createResolveKeyboard (-3)) = None.
Proof.
  split.
  - exact (proj1 (keyboard_callback_round_trip 90210 ltac:(reflexivity))).
  - exact (proj2 (keyboard_callback_round_trip (-3) ltac:(reflexivity))).
Defined.

End Buttons.

(* ------------------------------------------------------------------ *)
(** ** The callback handlers *)

Section Callbacks.

Import Database.

Lemma acknowledge_succeeds
  (t : table) (i : Z) (u : UserInfo) (now : Z) (r : Row) :
  reachable t -> getAlertById i t = Some r -> acknowledged r = false ->
  fst (acknowledgeAlert i u now t) = true
  /\ getAlertById i (snd (acknowledgeAlert i u now t))
     = Some (set_acknowledged u now r).
Proof.
  intros Hr Hl Ha. destruct (reachable_consistent t Hr) as [Hnd _].
  rewrite acknowledgeAlert_unfold. cbn [fst snd]. split.
  - rewrite (exists_by_lookup (fun r => negb (acknowledged r))
               (can_acknowledge i) i t) by (auto; reflexivity).
    now rewrite Hl, Ha.
  - rewrite lookup_after_update, Hl by apply acknowledge_row_id.
    simpl. f_equal. unfold acknowledge_row, can_acknowledge.
    apply lookup_some in Hl as [_ Hid].
    now rewrite (proj2 (Z.eqb_eq _ _) Hid), Ha.
Qed.

Lemma resolve_succeeds
  (t : table) (i : Z) (u : UserInfo) (now : Z) (r : Row) :
  reachable t -> getAlertById i t = Some r ->
  acknowledged r = true -> resolved r = false ->
  fst (resolveAlert i u now t) = true
  /\ getAlertById i (snd (resolveAlert i u now t))
     = Some (set_resolved u now r).
Proof.
  intros Hr Hl Ha Hres. destruct (reachable_consistent t Hr) as [Hnd _].
  rewrite resolveAlert_unfold. cbn [fst snd]. split.
  - rewrite (exists_by_lookup (fun r => acknowledged r && negb (resolved r))
               (can_resolve i) i t); auto.
    + now rewrite Hl, Ha, Hres.
    + intros x. unfold can_resolve. now rewrite andb_assoc.
  - rewrite lookup_after_update, Hl by apply resolve_row_id.
    simpl. f_equal. unfold resolve_row, can_resolve.
    apply lookup_some in Hl as [_ Hid].
    now rewrite (proj2 (Z.eqb_eq _ _) Hid), Ha, Hres.
Qed.

Lemma on_callback_reachable
  (t : table) (data : string) (u : UserInfo) (now : Z) :
  reachable t -> reachable (snd (on_callback_query data u now t)).
Proof.
  intros Hr. unfold on_callback_query.
  destruct (extractAlertIdFromCallback data) as [[[i|] act]|];
    cbn [Utils.id Utils.action snd]; try exact Hr.
  destruct (getAlertById i t) as [r|]; cbn [snd]; try exact Hr.
  destruct (act =? "acknowledge")%string.
  - unfold handleAcknowledge. destruct (acknowledged r); [exact Hr|].
    pose proof (reachable_exec t (Acknowledge i u now) Hr) as H.
    cbn [exec] in H. destruct (acknowledgeAlert i u now t) as [[] t'];
      exact H.
  - destruct (act =? "resolve")%string; [|exact Hr].
    unfold handleResolve. destruct (acknowledged r); [|exact Hr].
    destruct (resolved r); [exact Hr|].
    pose proof (reachable_exec t (Resolve i u now) Hr) as H.
    cbn [exec] in H. destruct (resolveAlert i u now t) as [[] t']; exact H.
Qed.



Lemma press_acknowledge
  (t : table) (i : Z) (u : UserInfo) (now : Z) (r : Row) :
  reachable t -> 0 <= i ->
  getAlertById i t = Some r -> acknowledged r = false ->
  on_callback_query (createAcknowledgeKeyboard i) u now t
  = ([editMessageText (AcknowledgedMessage r u)
                      (Some (createResolveKeyboard i));
      answerCallbackQuery "Alert acknowledged successfully" false],
     snd (acknowledgeAlert i u now t)).
Proof.
  intros Hr Hi Hl Ha. unfold on_callback_query.
  rewrite (proj1 (keyboard_callbacks i Hi)).
  cbn [Utils.id Utils.action]. rewrite Hl.
  change ("acknowledge" =? "acknowledge")%string with true. cbv iota.
  unfold handleAcknowledge. rewrite Ha.
  destruct (acknowledge_succeeds t i u now r Hr Hl Ha) as [Hok _].
  destruct (acknowledgeAlert i u now t) as [ok t']. cbn [fst] in Hok.
  now subst ok.
Qed.

Lemma press_resolve
  (t : table) (i : Z) (u : UserInfo) (now : Z) (r : Row) :
  reachable t -> 0 <= i ->
  getAlertById i t = Some r -> acknowledged r = true -> resolved r = false ->
  on_callback_query (createResolveKeyboard i) u now t
  = ([editMessageText
        (ResolvedMessage r (acknowledged_by r) (acknowledged_by_name r)
           (acknowledged_at r) u)
        None;
      answerCallbackQuery "Alert resolved successfully" false],
     snd (resolveAlert i u now t)).
Proof.
  intros Hr Hi Hl Ha Hres. unfold on_callback_query.
  rewrite (proj2 (keyboard_callbacks i Hi)).
  cbn [Utils.id Utils.action]. rewrite Hl.
  change ("resolve" =? "acknowledge")%string with false.
  change ("resolve" =? "resolve")%string with true. cbv iota.
  unfold handleResolve. rewrite Ha, Hres. cbn [negb].
  destruct (resolve_succeeds t i u now r Hr Hl Ha Hres) as [Hok _].
  destruct (resolveAlert i u now t) as [ok t']. cbn [fst] in Hok.
  now subst ok.
Qed.

(** X9: one alert from the webhook to its terminal state.  In a reachable
    table and with a chat configured, an alert with a canonical severity is
    stored under a new id; the
    message sent for it carries the acknowledge button; pressing that button
    succeeds and swaps it for the resolve button; pressing the resolve
    button succeeds and leaves no button.  The row then holds the columns it
    was created with, the delivery, the first user's acknowledgement and the
    second user's resolution, each with its own time. *)
Theorem alert_lifecycle_end_to_end
  (t : table) (a : NewAlert) (message_id chatId : Z)
  (actorA actorB : UserInfo) (now0 now1 now2 : Z) :
  reachable t ->
  In (new_severity a) canonical ->
  chatId <> 0 ->
  exists i t1 t2 t3 t4 button1 button2 text1 text2 r,
    createAlert a now0 t = Some (i, t1)
    /\ sendAlert (Some chatId) i message_id t1 = (Some button1, t2)
    /\ on_callback_query button1 actorA now1 t2
       = ([editMessageText text1 (Some button2);
           answerCallbackQuery "Alert acknowledged successfully" false], t3)
    /\ on_callback_query button2 actorB now2 t3
       = ([editMessageText text2 None;
           answerCallbackQuery "Alert resolved successfully" false], t4)
    /\ getAlertById i t4 = Some r
    /\ facts r = (i, new_title a, new_source a, new_severity a,
                  new_message a, new_timestamp a, now0, new_metadata a)
    /\ telegram_message_id r = Some message_id
    /\ chat_id r = Some chatId
    /\ acknowledgement r
       = (true, username actorA, Some (user_id actorA),
          Some (fullName actorA), Some now1)
    /\ resolution r
       = (true, username actorB, Some (user_id actorB),
          Some (fullName actorB), Some now2).
Proof.
  intros Hr Hc Hchat.
  destruct (createAlert a now0 t) as [[i t1]|] eqn:Hcreate.
  2:{ apply (createAlert_then_get_aux_none t a now0) in Hcreate.
      contradiction. }
  pose proof (reachable_exec t (Create a now0) Hr) as R1.
  cbn [exec] in R1. rewrite Hcreate in R1.
  destruct (createAlert_row t a now0 i t1 Hr Hcreate) as [Hi [r0 [L0 E0]]].
  pose proof (reachable_exec t1 (Telegram i message_id chatId) R1) as R2.
  cbn [exec] in R2.
  set (t2 := snd (updateTelegramInfo i message_id chatId t1)) in *.
  assert (L2 : getAlertById i t2 = Some (set_telegram message_id chatId r0)).
  { subst t2. unfold updateTelegramInfo, sql_update. cbn [snd].
    rewrite lookup_after_update, L0.
    - simpl. apply lookup_some in L0 as [_ Hid].
      now rewrite (proj2 (Z.eqb_eq _ _) Hid).
    - intros x. now destruct (id x =? i)%Z. }
  set (r2 := set_telegram message_id chatId r0) in *.
  assert (A2 : acknowledged r2 = false) by (subst r2 r0; reflexivity).
  pose proof (press_acknowledge t2 i actorA now1 r2 R2 Hi L2 A2) as P1.
  destruct (acknowledge_succeeds t2 i actorA now1 r2 R2 L2 A2) as [_ L3].
  pose proof (reachable_exec t2 (Acknowledge i actorA now1) R2) as R3.
  cbn [exec] in R3.
  set (t3 := snd (acknowledgeAlert i actorA now1 t2)) in *.
  set (r3 := set_acknowledged actorA now1 r2) in *.
  assert (A3 : acknowledged r3 = true) by reflexivity.
  assert (S3 : resolved r3 = false) by (subst r3 r2 r0; reflexivity).
  pose proof (press_resolve t3 i actorB now2 r3 R3 Hi L3 A3 S3) as P2.
  destruct (resolve_succeeds t3 i actorB now2 r3 R3 L3 A3 S3) as [_ L4].
  exists i, t1, t2, t3, (snd (resolveAlert i actorB now2 t3)),
    (createAcknowledgeKeyboard i), (createResolveKeyboard i).
  do 2 eexists. exists (set_resolved actorB now2 r3).
  split; [reflexivity|].
  split; [unfold sendAlert; now rewrite (proj2 (Z.eqb_neq chatId 0) Hchat)|].
  split; [exact P1|]. split; [exact P2|]. split; [exact L4|].
  subst r3 r2 r0. repeat split.
Qed.

Lemma alert_lifecycle_end_to_end_witness :
  exists i t1 t4 r,
    createAlert disk_alert 1700000000 [] = Some (i, t1)
    /\ getAlertById i t4 = Some r
    /\ acknowledgement r
       = (true, Some "alice", Some 1001, Some "Alice Liddell",
          Some 1700000060)
    /\ resolution r
       = (true, None, Some 1002, Some "Bob", Some 1700000120).
Proof.
  assert (Hc : In (new_severity disk_alert) canonical) by (simpl; tauto).
  assert (Hchat : -1001 <> 0) by lia.
  destruct (alert_lifecycle_end_to_end [] disk_alert 555 (-1001) alice bob
              1700000000 1700000060 1700000120 reachable_empty Hc Hchat)
    as [i [t1 [t2 [t3 [t4 [b1 [b2 [e1 [e2 [r H]]]]]]]]]].
  destruct H as [Hcreate [_ [_ [_ [L [_ [_ [_ [Hack Hres]]]]]]]]].
  exists i, t1, t4, r. repeat split; assumption.
Defined.

End Callbacks.

(* ------------------------------------------------------------------ *)
(** ** The intake of a webhook *)

Section Intake.

Lemma get_nonnullish (p : value) (k : string) :
  nullish p = false -> get p k = Ok (get_opt p k).
Proof. unfold get_opt. destruct p; simpl; try discriminate; reflexivity. Qed.

Lemma get_ok_nonnullish (p v : value) (k : string) :
  get p k = Ok v -> nullish p = false.
Proof. destruct p; simpl; try discriminate; reflexivity. Qed.

Lemma first_bad_field_none (p : value) (fields : list string) :
  first_bad_field p fields = Ok None ->
  Forall (fun f => exists s, get p f = Ok (VString s) /\ s <> "") fields.
Proof.
  induction fields as [|f fields IH]; cbn [first_bad_field]; [constructor|].
  destruct (get p f) as [v|] eqn:Hg; cbn [bind]; [|discriminate].
  destruct (truthy v) eqn:Ht; cbn [negb orb]; [|discriminate].
  destruct (is_string v) eqn:Hs; cbn [negb]; [|discriminate].
  intros H. constructor; [|now apply IH].
  destruct v as [| | | |s0| | |]; try discriminate.
  exists s0. split; [exact Hg | now apply truthy_string].
Qed.

Lemma validate_valid_inv (payload : value) :
  validateAlertPayload payload = Ok Valid ->
  exists t s sv m,
    get payload "title" = Ok (VString t)
    /\ get payload "source" = Ok (VString s)
    /\ get payload "severity" = Ok (VString sv)
    /\ get payload "message" = Ok (VString m)
    /\ t <> "" /\ s <> "" /\ m <> ""
    /\ In sv canonical
    /\ (String.length t <= 200)%nat /\ (String.length m <= 2000)%nat.
Proof.
  unfold validateAlertPayload.
  destruct (first_bad_field payload required) as [[f|]|] eqn:Hf;
    cbn [bind]; try discriminate.
  apply first_bad_field_none in Hf. unfold required in Hf.
  inversion Hf as [|? ? [t [Ht Nt]] Hf1]; subst.
  inversion Hf1 as [|? ? [s [Hs Ns]] Hf2]; subst.
  inversion Hf2 as [|? ? [sv [Hsv Nsv]] Hf3]; subst.
  inversion Hf3 as [|? ? [m [Hm Nm]] _]; subst.
  rewrite Hsv. cbn [bind includes_value].
  destruct (includes sv validSeverities) eqn:Hc; cbn [negb];
    [|discriminate].
  rewrite Ht. cbn [bind].
  destruct (length_gt (VString t) 200) eqn:Lt; [discriminate|].
  rewrite Hm. cbn [bind].
  destruct (length_gt (VString m) 2000) eqn:Lm; [discriminate|].
  intros _. exists t, s, sv, m.
  simpl in Lt, Lm. apply Z.ltb_ge in Lt, Lm.
  repeat split; try assumption; try lia.
  now apply includes_In in Hc.
Qed.

(** X10: what validation lets through.  [validateAlertPayload] answers valid
    exactly when title, source, severity and message are non-empty strings,
    the severity is literally critical, warning or info, the title has at
    most 200 characters and the message at most 2000. *)
Theorem validateAlertPayload_valid_iff (payload : value) :
  validateAlertPayload payload = Ok Valid <->
  exists t s sv m,
    get payload "title" = Ok (VString t)
    /\ get payload "source" = Ok (VString s)
    /\ get payload "severity" = Ok (VString sv)
    /\ get payload "message" = Ok (VString m)
    /\ t <> "" /\ s <> "" /\ m <> ""
    /\ In sv canonical
    /\ (String.length t <= 200)%nat /\ (String.length m <= 2000)%nat.
Proof.
  split; [apply validate_valid_inv|].
  intros [t [s [sv [m [Ht [Hs [Hsv [Hm [Nt [Ns [Nm [Hc [Lt Lm]]]]]]]]]]]]].
  destruct (canonical_lowercase sv Hc) as [_ Nsv].
  now apply (validate_canonical payload t s sv m).
Qed.

Lemma generic_switch (tok : string) :
  (if includes tok ["error"; "fatal"; "emergency"; "alert"; "high"; "urgent"]
   then "critical"
   else if includes tok ["warn"; "warning"; "medium"; "moderate"]
   then "warning"
   else if includes tok
             ["info"; "information"; "notice"; "low"; "debug"; "trace"]
   then "info"
   else "info")
  = table_lookup generic_table "info" tok.
Proof.
  unfold includes, table_lookup, generic_table. cbn [existsb find fst snd].
  repeat match goal with
         | |- context [String.eqb tok ?lit] =>
             destruct (String.eqb_spec tok lit); [subst tok; reflexivity|]
         end.
  reflexivity.
Qed.

(** X11: sources without a table of their own.  For every source kind other
    than grafana, prometheus and zabbix, a present input whose lower-cased
    token is not canonical is mapped by the synonym table (error, fatal,
    emergency, alert, high, urgent: critical; warn, warning, medium,
    moderate: warning), and every other token gives info. *)
Theorem mapSeverity_generic_table (sev st : value) (src raw : string) :
  ~ In src ["grafana"; "prometheus"; "zabbix"] ->
  truthy (or sev st) = true ->
  toString (or sev st) = Ok raw ->
  ~ In (toLowerCase raw) canonical ->
  mapSeverity sev st src
  = Ok (table_lookup generic_table "info" (toLowerCase raw)).
Proof.
  intros Hsrc Ht Hs Hn. apply not_canonical in Hn.
  unfold mapSeverity.
  destruct (or_truthy_cases _ _ Ht) as [Hc Ho].
  rewrite Hc, Ho, Hs. cbn [bind]. cbv zeta. rewrite Hn.
  assert (H1 : includes src ["grafana"; "prometheus"] = false).
  { destruct (includes src _) eqn:E; [|reflexivity].
    apply includes_In in E. exfalso. apply Hsrc.
    destruct E as [E|[E|[]]]; [left | right; left]; exact E. }
  assert (H2 : (src =? "zabbix")%string = false).
  { apply String.eqb_neq. intros E. apply Hsrc.
    right. right. left. now symmetry. }
  rewrite H1, H2. now rewrite generic_switch.
Qed.

Lemma mapSeverity_generic_table_witness :
  mapSeverity (VString "URGENT") VNull "generic" = Ok "critical"
  /\ mapSeverity VNull (VString "5") "nagios" = Ok "info".
Proof.
  split.
  - refine (mapSeverity_generic_table (VString "URGENT") VNull "generic"
              "URGENT" _ eq_refl eq_refl _); simpl;
      intros H; repeat (destruct H as [H|H]; [discriminate H|]); exact H.
  - refine (mapSeverity_generic_table VNull (VString "5") "nagios" "5"
              _ eq_refl eq_refl _); simpl;
      intros H; repeat (destruct H as [H|H]; [discriminate H|]); exact H.
Defined.

Ltac open_binds :=
  repeat match goal with
         | |- bind ?x _ = _ -> _ =>
             let E := fresh "E" in
             destruct x eqn:E; cbn [bind]; [|discriminate]
         end.

Lemma transformPrometheusWebhook_severity (payload : value) (a : AlertInput) :
  transformPrometheusWebhook payload = Ok a -> In (severity a) canonical.
Proof.
  unfold transformPrometheusWebhook. open_binds.
  intros [= <-]. cbn [severity].
  match goal with
  | H : mapSeverity _ _ _ = Ok _ |- _ => exact (mapSeverity_canonical _ _ _ _ H)
  end.
Qed.

Lemma transformZabbixWebhook_severity (payload : value) (a : AlertInput) :
  transformZabbixWebhook payload = Ok a -> In (severity a) canonical.
Proof.
  unfold transformZabbixWebhook. open_binds.
  intros [= <-]. cbn [severity].
  match goal with
  | H : mapSeverity _ _ _ = Ok _ |- _ => exact (mapSeverity_canonical _ _ _ _ H)
  end.
Qed.

Lemma transformGenericWebhook_severity (payload : value) (a : AlertInput) :
  transformGenericWebhook payload = Ok a -> In (severity a) canonical.
Proof.
  unfold transformGenericWebhook. open_binds.
  intros [= <-]. cbn [severity].
  match goal with
  | H : mapSeverity _ _ _ = Ok _ |- _ => exact (mapSeverity_canonical _ _ _ _ H)
  end.
Qed.

Lemma transformed_some (r : result AlertInput) (a : AlertInput) :
  transformed r = Ok (Some a) -> r = Ok a.
Proof. destruct r; simpl; [intros [= ->]; reflexivity | discriminate]. Qed.

(** An alert the detector builds comes from one of the four transformers. *)
Lemma detect_some (payload : value) (a : AlertInput) :
  detectAndTransformWebhook payload = Ok (Some a) ->
  transformGrafanaWebhook payload = Ok a
  \/ transformPrometheusWebhook payload = Ok a
  \/ transformZabbixWebhook payload = Ok a
  \/ transformGenericWebhook payload = Ok a.
Proof.
  unfold detectAndTransformWebhook.
  destruct (is_native payload) as [[]|]; cbn [bind]; try discriminate.
  destruct (is_grafana payload) as [[]|]; cbn [bind]; try discriminate;
    [intros H; apply transformed_some in H; tauto|].
  destruct (is_prometheus payload) as [[]|]; cbn [bind]; try discriminate;
    [intros H; apply transformed_some in H; tauto|].
  destruct (is_zabbix payload) as [[]|]; cbn [bind]; try discriminate;
    [intros H; apply transformed_some in H; tauto|].
  destruct (is_generic payload) as [[]|]; cbn [bind]; try discriminate.
  intros H; apply transformed_some in H; tauto.
Qed.

Lemma trimStart_length (s : string) :
  (String.length (trimStart s) <= String.length s)%nat.
Proof.
  induction s as [|c s IH]; simpl; [lia|].
  destruct (is_space c); simpl; lia.
Qed.

Lemma trimEnd_length (s : string) :
  (String.length (trimEnd s) <= String.length s)%nat.
Proof.
  induction s as [|c s IH]; cbn [trimEnd String.length]; [lia|].
  destruct (trimEnd s) as [|d r]; [destruct (is_space c)|];
    cbn [String.length] in *; lia.
Qed.

Lemma trim_length (s : string) :
  (String.length (trim s) <= String.length s)%nat.
Proof.
  unfold trim. pose proof (trimEnd_length (trimStart s)).
  pose proof (trimStart_length s). lia.
Qed.

(** The handler's own format: what it stores when the detector returns
    null. *)
Lemma postAlert_native (payload : value) (a : AlertInput) :
  detectAndTransformWebhook payload = Ok None ->
  postAlert payload = Ok (AlertData a) ->
  exists t s sv m,
    validateAlertPayload payload = Ok Valid
    /\ get payload "title" = Ok (VString t)
    /\ get payload "source" = Ok (VString s)
    /\ get payload "severity" = Ok (VString sv)
    /\ get payload "message" = Ok (VString m)
    /\ In sv canonical
    /\ (String.length t <= 200)%nat /\ (String.length m <= 2000)%nat
    /\ a = {| title := VString (trim t);
              source := VString (trim s);
              severity := sv;
              message := VString (trim m);
              timestamp := if truthy (get_opt payload "timestamp")
                           then Supplied (get_opt payload "timestamp")
                           else DateNow;
              metadata := None |}.
Proof.
  intros Hd. unfold postAlert. rewrite Hd. cbn [bind].
  destruct (validateAlertPayload payload) as [[|e]|] eqn:Hv; cbn [bind];
    try discriminate.
  destruct (validate_valid_inv payload Hv)
    as [t [s [sv [m [Ht [Hs [Hsv [Hm [Nt [Ns [Nm [Hc [Lt Lm]]]]]]]]]]]]].
  rewrite Ht, Hs, Hsv, Hm. cbn [bind call_trim call_toLowerCase].
  rewrite (get_defined payload _ "title" "timestamp" Ht). cbn [bind].
  intros [= <-]. exists t, s, sv, m.
  destruct (canonical_lowercase sv Hc) as [-> _].
  repeat split; assumption.
Qed.

(** A transformed alert is stored as the detector built it. *)
Lemma postAlert_transformed (body : value) (a' a : AlertInput) :
  detectAndTransformWebhook body = Ok (Some a') ->
  postAlert body = Ok (AlertData a) -> a' = a.
Proof.
  intros Hd. unfold postAlert. rewrite Hd. cbn [bind].
  destruct (ToString (title a')); cbn [bind]; [|discriminate].
  destruct (ToString (source a')); cbn [bind]; [|discriminate].
  now intros [= <-].
Qed.

(** X12: only canonical severities reach the database.  Whatever the body,
    when the handler goes on to store an alert, by any of the five formats,
    its severity is critical, warning or info, so the [CHECK] of the table
    accepts the insert. *)
Theorem postAlert_severity_accepted (body : value) (a : AlertInput) :
  postAlert body = Ok (AlertData a) ->
  In (severity a) canonical
  /\ forall (n : Database.NewAlert) (now : Z) (t : Database.table),
       Database.new_severity n = severity a ->
       Database.createAlert n now t <> None.
Proof.
  intros Hp.
  assert (Hc : In (severity a) canonical).
  { destruct (detectAndTransformWebhook body) as [[a'|]|] eqn:Hd.
    - assert (a' = a) by exact (postAlert_transformed body a' a Hd Hp).
      subst a'. destruct (detect_some body a Hd) as [H|[H|[H|H]]].
      + exact (transformGrafanaWebhook_severity _ _ H).
      + exact (transformPrometheusWebhook_severity _ _ H).
      + exact (transformZabbixWebhook_severity _ _ H).
      + exact (transformGenericWebhook_severity _ _ H).
    - destruct (postAlert_native body a Hd Hp)
        as [t [s [sv [m [_ [_ [_ [_ [_ [Hc [_ [_ ->]]]]]]]]]]]].
      exact Hc.
    - unfold postAlert in Hp. rewrite Hd in Hp. discriminate. }
  split; [exact Hc|].
  intros n now t Hn. unfold Database.createAlert. rewrite Hn.
  apply includes_In in Hc. unfold canonical in Hc. rewrite Hc. discriminate.
Qed.

Lemma postAlert_severity_accepted_witness :
  exists a, postAlert oversize_payload = Ok (AlertData a)
            /\ In (severity a) canonical.
Proof.
  assert (H : exists a, postAlert oversize_payload = Ok (AlertData a)).
  { vm_compute. eexists. reflexivity. }
  destruct H as [a Ha]. exists a. split; [exact Ha|].
  exact (proj1 (postAlert_severity_accepted oversize_payload a Ha)).
Defined.

(** X13: the limits hold on the handler's own format.  When the detector
    transforms nothing and the handler stores the payload, the payload's
    title, source and message are strings, the title of at most 200
    characters and the message of at most 2000, and what is stored is each
    of them trimmed, which is no longer; the stored severity is the
    payload's own string, one of critical, warning, info; the time stamp is
    the payload's when that is truthy and the time of receipt otherwise; and
    there is no metadata. *)
Theorem postAlert_native_within_limits (payload : value) (a : AlertInput) :
  detectAndTransformWebhook payload = Ok None ->
  postAlert payload = Ok (AlertData a) ->
  exists t s m,
    get payload "title" = Ok (VString t)
    /\ get payload "source" = Ok (VString s)
    /\ get payload "message" = Ok (VString m)
    /\ title a = VString (trim t)
    /\ source a = VString (trim s)
    /\ message a = VString (trim m)
    /\ (String.length (trim t) <= String.length t <= 200)%nat
    /\ (String.length (trim m) <= String.length m <= 2000)%nat
    /\ get payload "severity" = Ok (VString (severity a))
    /\ In (severity a) canonical
    /\ timestamp a = (if truthy (get_opt payload "timestamp")
                      then Supplied (get_opt payload "timestamp")
                      else DateNow)
    /\ metadata a = None.
Proof.
  intros Hd Hp.
  destruct (postAlert_native payload a Hd Hp)
    as [t [s [sv [m [_ [Ht [Hs [Hsv [Hm [Hc [Lt [Lm ->]]]]]]]]]]]].
  exists t, s, m. cbn [title source message severity timestamp metadata].
  pose proof (trim_length t). pose proof (trim_length m).
  repeat split; try assumption; lia.
Qed.

Lemma postAlert_native_within_limits_witness :
  exists a, postAlert
              (VObject [("title", VString "  Disk  ");
                        ("source", VString "db-1");
                        ("severity", VString "info");
                        ("message", VString "ok")])
            = Ok (AlertData a)
            /\ title a = VString "Disk" /\ timestamp a = DateNow.
Proof.
  eexists.
  destruct (postAlert_native_within_limits
              (VObject [("title", VString "  Disk  ");
                        ("source", VString "db-1");
                        ("severity", VString "info");
                        ("message", VString "ok")])
              _ eq_refl eq_refl)
    as [t [s [m [Ht [_ [_ [Hta [_ [_ [_ [_ [_ [_ [Hts _]]]]]]]]]]]]]].
  split; [reflexivity|]. split.
  - injection Ht as <-. exact Hta.
  - exact Hts.
Defined.

(** X14: an Alertmanager payload that names its receiver is handled as
    Grafana's.  For a payload that is not canonical and passes the
    Prometheus test, the detector answers with the Grafana transformer when
    [receiver] is truthy and with the Prometheus transformer otherwise.
    Whenever the Grafana transformer returns, the Prometheus one would
    return too, with the same severity, time stamp, labels, annotations and
    values. *)
Theorem alertmanager_payload_routing (payload receiver : value) :
  is_native payload = Ok false ->
  is_prometheus payload = Ok true ->
  get payload "receiver" = Ok receiver ->
  detectAndTransformWebhook payload
  = transformed (if truthy receiver then transformGrafanaWebhook payload
                 else transformPrometheusWebhook payload)
  /\ forall a, transformGrafanaWebhook payload = Ok a ->
       exists b ma mb,
         transformPrometheusWebhook payload = Ok b
         /\ severity b = severity a
         /\ timestamp b = timestamp a
         /\ metadata a = Some ma /\ metadata b = Some mb
         /\ md_labels mb = md_labels ma
         /\ md_annotations mb = md_annotations ma
         /\ md_values mb = md_values ma.
Proof.
  intros Hn Hp Hr. split.
  - assert (Hg : is_grafana payload = Ok (truthy receiver)).
    { unfold is_grafana, is_prometheus in *. rewrite Hr.
      destruct (get payload "alerts") as [alerts|]; [|discriminate].
      destruct (get payload "groupKey") as [groupKey|]; [|discriminate].
      cbn [bind] in *. injection Hp as Hp.
      apply andb_true_iff in Hp as [Hp _]. now rewrite Hp. }
    unfold detectAndTransformWebhook. rewrite Hn, Hg. cbn [bind].
    destruct (truthy receiver); [reflexivity|]. now rewrite Hp.
  - intros a. unfold transformGrafanaWebhook, transformPrometheusWebhook.
    destruct (get payload "alerts") as [alerts|]; cbn [bind]; [|discriminate].
    destruct (first alerts) as [fa|]; cbn [bind]; [|discriminate].
    destruct (get payload "status") as [status|]; cbn [bind]; [|discriminate].
    destruct (get fa "labels") as [labels|] eqn:El; cbn [bind];
      [|discriminate].
    rewrite (get_defined fa _ "labels" "status" El). cbn [bind].
    repeat (try match goal with
                | |- context [mapSeverity ?x ?y "prometheus"] =>
                    change (mapSeverity x y "prometheus")
                      with (mapSeverity x y "grafana")
                end;
            match goal with
            | |- bind ?x _ = _ -> _ =>
                let E := fresh "E" in
                destruct x eqn:E; cbn [bind]; [|discriminate]
            end).
    intros [= <-].
    do 3 eexists. split; [reflexivity|]. cbn. repeat split.
Qed.

Lemma ToString_cons (x : value) (rest : list value) :
  ToString (VArray (x :: rest))
  = (s <- (if nullish x then Ok "" else ToString x) ;;
     match rest with
     | [] => Ok s
     | _ :: _ => r <- ToString (VArray rest) ;; Ok (s ++ "," ++ r)
     end).
Proof. reflexivity. Qed.

Lemma plain_ToString : forall v, plain v = true -> is_ok (ToString v) = true.
Proof.
  fix IH 1. intros v. destruct v as [| |b|n|s|elems|props|name];
    try reflexivity.
  - destruct b; reflexivity.
  - cbn [plain]. induction elems as [|x rest IHrest]; [reflexivity|].
    cbn [forallb]. intros H. apply andb_true_iff in H as [Hx Hrest].
    specialize (IHrest Hrest). specialize (IH x Hx).
    rewrite ToString_cons.
    destruct (nullish x); [|destruct (ToString x); [|discriminate]];
      cbn [bind]; (destruct rest; [reflexivity|]);
      (destruct (ToString (VArray (v :: rest))); [reflexivity|discriminate]).
  - cbn [plain ToString]. intros H. apply andb_true_iff in H as [H _].
    apply negb_true_iff in H. now rewrite H.
Qed.

Lemma plain_lookup (k : string) (props : list (string * value)) (x : value) :
  forallb (fun kv => plain (snd kv)) props = true ->
  lookup k props = Some x -> plain x = true.
Proof.
  induction props as [|[k' v] props IH]; cbn [lookup forallb snd];
    [discriminate|].
  intros H. apply andb_true_iff in H as [Hv Hrest].
  destruct (k =? k')%string; [intros [= <-]; exact Hv | now apply IH].
Qed.

Lemma plain_get_opt (v : value) (k : string) :
  plain v = true -> plain (get_opt v k) = true.
Proof.
  unfold get_opt. destruct v as [| |b|n|s|elems|props|name]; cbn [get];
    try reflexivity.
  - intros _. now destruct (k =? "values")%string.
  - cbn [plain]. intros H. apply andb_true_iff in H as [_ H].
    destruct (lookup k props) as [x|] eqn:Hl; [|reflexivity].
    exact (plain_lookup k props x H Hl).
Qed.

Lemma plain_nth (elems : list value) (n : nat) :
  forallb plain elems = true -> plain (nth n elems VUndefined) = true.
Proof.
  revert n. induction elems as [|x rest IH]; intros n H.
  - now destruct n.
  - cbn [forallb] in H. apply andb_true_iff in H as [Hx Hrest].
    destruct n; [exact Hx | now apply IH].
Qed.

Lemma plain_or (a b : value) :
  plain a = true -> plain b = true -> plain (or a b) = true.
Proof. intros Ha Hb. unfold or. now destruct (truthy a). Qed.

Lemma plain_index_entries (l : list value) (i : nat) :
  forallb plain l = true ->
  forallb (fun kv => plain (snd kv)) (index_entries i l) = true.
Proof.
  revert i. induction l as [|x rest IH]; intros i H; [reflexivity|].
  cbn [forallb] in H. apply andb_true_iff in H as [Hx Hrest].
  cbn [index_entries forallb snd]. now rewrite Hx, IH.
Qed.

Lemma plain_chars (s : string) : forallb plain (chars s) = true.
Proof. induction s as [|c s IH]; [reflexivity | exact IH]. Qed.

Lemma plain_entries (v : value) :
  nullish v = false -> plain v = true ->
  exists es, entries v = Ok es
             /\ forallb (fun kv => plain (snd kv)) es = true.
Proof.
  destruct v as [| |b|n|s|elems|props|name]; cbn [entries nullish plain];
    try discriminate; intros _ H; eauto.
  - eexists. split; [reflexivity|]. apply plain_index_entries, plain_chars.
  - eexists. split; [reflexivity|]. now apply plain_index_entries.
  - apply andb_true_iff in H as [_ H]. eauto.
Qed.

Lemma mapSeverity_plain (sev st : value) (src : string) :
  plain sev = true -> plain st = true ->
  exists r, mapSeverity sev st src = Ok r.
Proof.
  intros Hs Ht. apply mapSeverity_ok. apply plain_ToString.
  now apply plain_or.
Qed.

Lemma getTime_plain (v : value) :
  plain v = true -> exists ts, getTime v = Ok ts.
Proof.
  intros H. unfold getTime. pose proof (plain_ToString v H) as Hok.
  destruct (ToString v); [|discriminate]. cbn [bind]. eauto.
Qed.

Lemma times1000_plain (v : value) :
  plain v = true -> exists ts, times1000 v = Ok ts.
Proof.
  intros H. unfold times1000. pose proof (plain_ToString v H) as Hok.
  destruct (ToString v); [|discriminate]. cbn [bind]. eauto.
Qed.

Lemma first_alert_first (payload fa : value) :
  first_alert payload = Some fa -> first (get_opt payload "alerts") = Ok fa.
Proof.
  unfold first_alert. destruct (get_opt payload "alerts"); try discriminate.
  now intros [= <-].
Qed.

Lemma first_alert_plain (payload fa : value) :
  plain payload = true -> first_alert payload = Some fa -> plain fa = true.
Proof.
  intros Hp. pose proof (plain_get_opt payload "alerts" Hp) as Ha.
  unfold first_alert. destruct (get_opt payload "alerts"); try discriminate.
  intros [= <-]. now apply plain_nth.
Qed.

(** The alert is built, and its title and source are plain. *)
Ltac built_plain :=
  cbn [bind]; eexists; split; [reflexivity|]; cbn [title source];
  split; repeat apply plain_or; try reflexivity;
  repeat apply plain_get_opt; assumption.

(** Without [externalURL] the Grafana transformer builds no silence link,
    so nothing is URI-encoded. *)
Lemma transformGrafanaWebhook_plain (payload fa : value) :
  nullish payload = false -> plain payload = true ->
  truthy (get_opt payload "externalURL") = false ->
  first_alert payload = Some fa -> nullish fa = false ->
  exists a, transformGrafanaWebhook payload = Ok a
            /\ plain (title a) = true /\ plain (source a) = true.
Proof.
  intros Np Pp Hext Hfa Nfa.
  pose proof (first_alert_plain payload fa Pp Hfa) as Pfa.
  unfold transformGrafanaWebhook.
  rewrite (get_nonnullish payload "alerts" Np). cbn [bind].
  rewrite (first_alert_first payload fa Hfa). cbn [bind].
  rewrite !(get_nonnullish payload _ Np), !(get_nonnullish fa _ Nfa).
  cbn [bind].
  rewrite Hext, andb_false_r. cbn [bind].
  destruct (mapSeverity_plain (get_opt (get_opt fa "labels") "severity")
              (get_opt payload "status") "grafana") as [sev Hsev];
    try (repeat apply plain_get_opt; assumption).
  rewrite Hsev. cbn [bind].
  assert (Hmsg : exists msg,
    or_else (or (get_opt (get_opt fa "annotations") "description")
                (get_opt (get_opt fa "annotations") "summary"))
            (name <- ToString (get_opt (get_opt fa "labels") "alertname") ;;
             Ok (VString ("Alert: " ++ name)))
    = Ok msg).
  { unfold or_else.
    destruct (truthy (or (get_opt (get_opt fa "annotations") "description")
                         (get_opt (get_opt fa "annotations") "summary")));
      [eauto|].
    assert (Hok : is_ok (ToString (get_opt (get_opt fa "labels") "alertname"))
                  = true)
      by (apply plain_ToString; repeat apply plain_get_opt; assumption).
    revert Hok.
    destruct (ToString (get_opt (get_opt fa "labels") "alertname"));
      [cbn [bind]; eauto | discriminate]. }
  destruct Hmsg as [msg Hmsg]. rewrite Hmsg. cbn [bind].
  destruct (truthy (get_opt fa "startsAt")).
  - destruct (getTime_plain (get_opt fa "startsAt")) as [ts Hts];
      [now apply plain_get_opt|].
    rewrite Hts. built_plain.
  - built_plain.
Qed.

Lemma transformPrometheusWebhook_plain (payload fa : value) :
  nullish payload = false -> plain payload = true ->
  first_alert payload = Some fa -> nullish fa = false ->
  exists a, transformPrometheusWebhook payload = Ok a
            /\ plain (title a) = true /\ plain (source a) = true.
Proof.
  intros Np Pp Hfa Nfa.
  pose proof (first_alert_plain payload fa Pp Hfa) as Pfa.
  unfold transformPrometheusWebhook.
  rewrite (get_nonnullish payload "alerts" Np). cbn [bind].
  rewrite (first_alert_first payload fa Hfa). cbn [bind].
  rewrite !(get_nonnullish payload _ Np), !(get_nonnullish fa _ Nfa).
  cbn [bind].
  destruct (mapSeverity_plain (get_opt (get_opt fa "labels") "severity")
              (get_opt payload "status") "prometheus") as [sev Hsev];
    try (repeat apply plain_get_opt; assumption).
  rewrite Hsev. cbn [bind].
  destruct (truthy (get_opt fa "startsAt")).
  - destruct (getTime_plain (get_opt fa "startsAt")) as [ts Hts];
      [now apply plain_get_opt|].
    rewrite Hts. built_plain.
  - built_plain.
Qed.

Lemma truthy_nonnullish (v : value) : truthy v = true -> nullish v = false.
Proof. destruct v; simpl; congruence. Qed.

Lemma transformZabbixWebhook_plain (payload : value) :
  nullish payload = false -> plain payload = true ->
  truthy (get_opt payload "trigger") = true ->
  exists a, transformZabbixWebhook payload = Ok a
            /\ plain (title a) = true /\ plain (source a) = true.
Proof.
  intros Np Pp Tt. unfold transformZabbixWebhook.
  rewrite !(get_nonnullish payload _ Np). cbn [bind].
  rewrite (get_nonnullish _ "name" (truthy_nonnullish _ Tt)). cbn [bind].
  destruct (mapSeverity_plain
              (get_opt (get_opt payload "trigger") "priority")
              (get_opt (get_opt payload "event") "value") "zabbix")
    as [sev Hsev]; try (repeat apply plain_get_opt; assumption).
  rewrite Hsev. cbn [bind].
  destruct (truthy (get_opt (get_opt payload "event") "clock")).
  - destruct (times1000_plain (get_opt (get_opt payload "event") "clock"))
      as [ts Hts]; [repeat apply plain_get_opt; assumption|].
    rewrite Hts. built_plain.
  - built_plain.
Qed.

Lemma transformGenericWebhook_plain (payload : value) :
  nullish payload = false -> plain payload = true ->
  exists a, transformGenericWebhook payload = Ok a
            /\ plain (title a) = true /\ plain (source a) = true.
Proof.
  intros Np Pp. unfold transformGenericWebhook.
  destruct (plain_entries payload Np Pp) as [es [Hes _]].
  rewrite !(get_nonnullish payload _ Np), Hes. cbn [bind].
  destruct (mapSeverity_plain
              (or (or (get_opt payload "severity") (get_opt payload "level"))
                  (get_opt payload "priority"))
              (get_opt payload "status") "generic") as [sev Hsev];
    try (repeat apply plain_or; apply plain_get_opt; assumption).
  rewrite Hsev. cbn [bind].
  destruct (truthy (get_opt payload "timestamp")).
  - destruct (getTime_plain (get_opt payload "timestamp")) as [ts Hts];
      [now apply plain_get_opt|].
    rewrite Hts. built_plain.
  - built_plain.
Qed.

Lemma first_bad_field_total (payload : value) (fields : list string) :
  nullish payload = false ->
  exists r, first_bad_field payload fields = Ok r.
Proof.
  intros Np. induction fields as [|f fields [r IH]]; cbn [first_bad_field];
    [eauto|].
  rewrite (get_nonnullish payload f Np). cbn [bind].
  destruct (negb _ || negb _); eauto.
Qed.

(** Validation reads properties only: it answers for every object. *)
Lemma validateAlertPayload_total (payload : value) :
  nullish payload = false ->
  exists v, validateAlertPayload payload = Ok v.
Proof.
  intros Np. unfold validateAlertPayload.
  destruct (first_bad_field_total payload required Np) as [[f|] Hf];
    rewrite Hf; cbn [bind]; [eauto|].
  rewrite !(get_nonnullish payload _ Np). cbn [bind].
  destruct (negb _); [eauto|]. destruct (length_gt _ 200); [eauto|].
  destruct (length_gt _ 2000); eauto.
Qed.

Lemma is_array_first_alert (payload : value) :
  isArray (get_opt payload "alerts") = true ->
  exists fa, first_alert payload = Some fa.
Proof.
  unfold first_alert. destruct (get_opt payload "alerts"); try discriminate.
  eauto.
Qed.

(** X15: when the intake cannot raise.  Take a payload without
    [externalURL] (so that no silence link is built and nothing is
    URI-encoded), none of whose objects has a property named [toString], and
    whose [alerts], if it is an array, starts with an element that is
    neither [null] nor missing.  Then the handler does not raise: it answers
    400 or goes on to store an alert. *)
Theorem postAlert_does_not_raise (payload : value) :
  nullish payload = false ->
  plain payload = true ->
  truthy (get_opt payload "externalURL") = false ->
  (forall fa, first_alert payload = Some fa -> nullish fa = false) ->
  exists r, postAlert payload = Ok r.
Proof.
  intros Np Pp Hext Hfirst.
  assert (Hd : exists d, detectAndTransformWebhook payload = Ok d
                         /\ forall a, d = Some a ->
                              plain (title a) = true
                              /\ plain (source a) = true).
  { unfold detectAndTransformWebhook, is_native, is_grafana, is_prometheus,
      is_zabbix, is_generic.
    rewrite !(get_nonnullish payload _ Np). cbn [bind].
    destruct (validateAlertPayload_total payload Np) as [v Hv]. rewrite Hv.
    cbn [bind].
    assert (Hnative : exists b,
      (if truthy (get_opt payload "title") && truthy (get_opt payload "source")
          && truthy (get_opt payload "severity")
          && truthy (get_opt payload "message")
       then Ok (valid v) else Ok false) = Ok b)
      by (destruct (_ && _); eauto).
    destruct Hnative as [[] Hb]; rewrite Hb; cbn [bind];
      [eexists; split; [reflexivity | discriminate]|].
    destruct (truthy (get_opt payload "alerts")
              && isArray (get_opt payload "alerts")
              && truthy (get_opt payload "receiver")) eqn:C1.
    { apply andb_true_iff in C1 as [C1 _].
      apply andb_true_iff in C1 as [_ Ha].
      destruct (is_array_first_alert payload Ha) as [fa Hfa].
      destruct (transformGrafanaWebhook_plain payload fa Np Pp Hext Hfa
                  (Hfirst fa Hfa)) as [a1 [H1 P1]].
      rewrite H1. cbn [transformed bind].
      eexists; split; [reflexivity|]. now intros a [= <-]. }
    destruct (truthy (get_opt payload "alerts")
              && isArray (get_opt payload "alerts")
              && truthy (get_opt payload "groupKey")) eqn:C2.
    { apply andb_true_iff in C2 as [C2 _].
      apply andb_true_iff in C2 as [_ Ha].
      destruct (is_array_first_alert payload Ha) as [fa Hfa].
      destruct (transformPrometheusWebhook_plain payload fa Np Pp Hfa
                  (Hfirst fa Hfa)) as [a2 [H2 P2]].
      rewrite H2. cbn [transformed bind].
      eexists; split; [reflexivity|]. now intros a [= <-]. }
    destruct (truthy (get_opt payload "trigger")
              && (truthy (get_opt payload "event")
                  || truthy (get_opt payload "problem"))) eqn:C3.
    { apply andb_true_iff in C3 as [Tt _].
      destruct (transformZabbixWebhook_plain payload Np Pp Tt)
        as [a3 [H3 P3]].
      rewrite H3. cbn [transformed bind].
      eexists; split; [reflexivity|]. now intros a [= <-]. }
    destruct (truthy (get_opt payload "message")
              && (truthy (get_opt payload "status")
                  || truthy (get_opt payload "level")
                  || truthy (get_opt payload "priority")));
      [|eexists; split; [reflexivity | discriminate]].
    destruct (transformGenericWebhook_plain payload Np Pp) as [a4 [H4 P4]].
    rewrite H4. cbn [transformed bind].
    eexists; split; [reflexivity|]. now intros a [= <-]. }
  destruct Hd as [[a|] [Hd Hplain]]; unfold postAlert; rewrite Hd;
    cbn [bind].
  - destruct (Hplain a eq_refl) as [Pt Ps].
    pose proof (plain_ToString _ Pt) as Ht.
    pose proof (plain_ToString _ Ps) as Hs.
    destruct (ToString (title a)); [|discriminate].
    destruct (ToString (source a)); [|discriminate].
    cbn [bind]. eauto.
  - destruct (validateAlertPayload payload) as [[|e]|] eqn:Hv; cbn [bind].
    + destruct (validate_valid_inv payload Hv)
        as [t [s [sv [m [Ht [Hs [Hsv [Hm _]]]]]]]].
      rewrite Ht, Hs, Hsv, Hm, (get_nonnullish payload "timestamp" Np).
      cbn [bind call_trim call_toLowerCase]. eauto.
    + eauto.
    + destruct (validateAlertPayload_total payload Np) as [v Hv']. congruence.
Qed.

Lemma postAlert_does_not_raise_witness :
  exists r,
    postAlert
      (VObject [("receiver", VString "ops"); ("status", VString "firing");
                ("alerts",
                 VArray [VObject [("labels",
                                   VObject [("alertname", VString "High CPU");
                                            ("cpu", VNumber 3)])]])])
    = Ok r.
Proof.
  apply postAlert_does_not_raise; [reflexivity | reflexivity | reflexivity |].
  intros fa [= <-]. reflexivity.
Defined.

Lemma is_native_nonnullish (payload : value) (b : bool) :
  is_native payload = Ok b -> nullish payload = false.
Proof.
  unfold is_native. destruct (get payload "title") as [v|] eqn:E;
    [|discriminate]. intros _. exact (get_ok_nonnullish _ _ _ E).
Qed.

Lemma nullish_get (v : value) (k : string) :
  nullish v = true -> get v k = Throw TypeError.
Proof. destruct v; simpl; try discriminate; reflexivity. Qed.

(** X16: an [alerts] array without a first alert makes the handler raise.
    For a payload that is not canonical, whose [alerts] is an array that is
    empty or starts with [null], and that has a truthy [receiver] or
    [groupKey], the detector raises a TypeError, and so does the handler
    (the request is answered 500). *)
Theorem missing_first_alert_raises (payload fa : value) :
  is_native payload = Ok false ->
  first_alert payload = Some fa ->
  nullish fa = true ->
  truthy (get_opt payload "receiver") || truthy (get_opt payload "groupKey")
  = true ->
  detectAndTransformWebhook payload = Throw TypeError
  /\ postAlert payload = Throw TypeError.
Proof.
  intros Hn Hfa Nfa Hkey.
  pose proof (is_native_nonnullish payload false Hn) as Np.
  assert (Ha : truthy (get_opt payload "alerts")
               && isArray (get_opt payload "alerts") = true).
  { unfold first_alert in Hfa.
    destruct (get_opt payload "alerts"); try discriminate. reflexivity. }
  assert (Hg : transformGrafanaWebhook payload = Throw TypeError).
  { unfold transformGrafanaWebhook.
    rewrite (get_nonnullish payload "alerts" Np). cbn [bind].
    rewrite (first_alert_first payload fa Hfa). cbn [bind].
    rewrite (get_nonnullish payload "status" Np). cbn [bind].
    now rewrite (nullish_get fa "labels" Nfa). }
  assert (Hp : transformPrometheusWebhook payload = Throw TypeError).
  { unfold transformPrometheusWebhook.
    rewrite (get_nonnullish payload "alerts" Np). cbn [bind].
    rewrite (first_alert_first payload fa Hfa). cbn [bind].
    rewrite (get_nonnullish payload "status" Np). cbn [bind].
    now rewrite (nullish_get fa "status" Nfa). }
  assert (Hd : detectAndTransformWebhook payload = Throw TypeError).
  { unfold detectAndTransformWebhook. rewrite Hn. cbn [bind].
    unfold is_grafana, is_prometheus.
    rewrite !(get_nonnullish payload _ Np). cbn [bind]. rewrite Ha, Hg, Hp.
    cbn [andb transformed bind].
    destruct (truthy (get_opt payload "receiver")); [reflexivity|].
    cbn [orb] in Hkey. now rewrite Hkey. }
  split; [exact Hd|]. unfold postAlert. now rewrite Hd.
Qed.

Lemma missing_first_alert_raises_witness :
  postAlert (VObject [("groupKey", VString "{}:{}"); ("alerts", VArray [])])
  = Throw TypeError.
Proof.
  exact (proj2 (missing_first_alert_raises
                  (VObject [("groupKey", VString "{}:{}");
                            ("alerts", VArray [])])
                  VUndefined eq_refl eq_refl eq_refl eq_refl)).
Defined.

Lemma alertmanager_payload_routing_witness :
  exists a,
    detectAndTransformWebhook
      (VObject [("receiver", VString "team-x"); ("groupKey", VString "k");
                ("alerts",
                 VArray [VObject [("labels",
                                   VObject [("severity", VString "page");
                                            ("job", VString "node")])]])])
    = Ok (Some a)
    /\ source a = VString "node".
Proof.
  pose proof (proj1 (alertmanager_payload_routing
                       (VObject [("receiver", VString "team-x");
                                 ("groupKey", VString "k");
                                 ("alerts",
                                  VArray [VObject
                                            [("labels",
                                              VObject
                                                [("severity", VString "page");
                                                 ("job", VString "node")])]])])
                       (VString "team-x") eq_refl eq_refl eq_refl)) as H.
  eexists. rewrite H. split; reflexivity.
Defined.

Lemma lookup_filter_copied (k : string) (props : list (string * value)) :
  lookup k (filter copied props)
  = if includes k reserved || (k =? "__proto__")%string then None
    else lookup k props.
Proof.
  assert (Hkeep : includes k reserved || (k =? "__proto__")%string
                  = negb (negb (includes k reserved)
                          && negb (k =? "__proto__")%string))
    by (destruct (includes k reserved), (k =? "__proto__")%string;
        reflexivity).
  rewrite Hkeep. clear Hkeep.
  induction props as [|[k' v] props IH]; cbn [filter lookup].
  - now destruct (negb _ && negb _).
  - unfold copied at 1. cbn [fst].
    destruct (String.eqb_spec k k') as [<-|Hk].
    + destruct (negb (includes k reserved) && negb (k =? "__proto__")%string)
        eqn:E.
      * cbn [lookup negb]. now rewrite String.eqb_refl.
      * rewrite IH. reflexivity.
    + destruct (negb (includes k' reserved)
                && negb (k' =? "__proto__")%string).
      * cbn [lookup]. rewrite (proj2 (String.eqb_neq k k') Hk). exact IH.
      * exact IH.
Qed.

(** X17: what the generic transformer passes through.  For an object
    payload, [metadata.labels] holds every property of the payload under its
    own name and with its own value, except the eight names the code lists
    (title, source, severity, message, timestamp, status, level, priority)
    and [__proto__], which it never holds. *)
Theorem generic_labels_pass_through
  (props : list (string * value)) (a : AlertInput) :
  transformGenericWebhook (VObject props) = Ok a ->
  exists m labels,
    metadata a = Some m
    /\ md_labels m = VObject labels
    /\ forall k, lookup k labels
                 = if includes k reserved || (k =? "__proto__")%string
                   then None
                   else lookup k props.
Proof.
  unfold transformGenericWebhook. cbn [get entries bind].
  open_binds. intros [= <-]. do 2 eexists.
  split; [reflexivity|]. split; [reflexivity|].
  intros k. apply lookup_filter_copied.
Qed.

Lemma generic_labels_pass_through_witness :
  exists a m labels,
    transformGenericWebhook oversize_payload = Ok a
    /\ metadata a = Some m /\ md_labels m = VObject labels
    /\ lookup "region" labels = Some (VString "eu-1")
    /\ lookup "status" labels = None.
Proof.
  assert (H : exists a, transformGenericWebhook oversize_payload = Ok a)
    by (vm_compute; eauto).
  destruct H as [a Ha].
  destruct (generic_labels_pass_through _ a Ha) as [m [labels [Hm [Hl Hk]]]].
  exists a, m, labels. repeat split; try assumption.
  - now rewrite Hk.
  - now rewrite Hk.
Defined.

Lemma truthy_or_r (a b : value) : truthy b = true -> truthy (or a b) = true.
Proof. intros H. unfold or. now destruct (truthy a) eqn:E. Qed.

(** X18: a transformed alert has its texts.  Whatever the payload, when the
    detector builds an alert its title, source and message are truthy: a
    missing or empty field is replaced by the transformer's default. *)
Theorem transformed_alert_has_texts (payload : value) (a : AlertInput) :
  detectAndTransformWebhook payload = Ok (Some a) ->
  truthy (title a) = true /\ truthy (source a) = true
  /\ truthy (message a) = true.
Proof.
  intros Hd.
  destruct (detect_some payload a Hd) as [H|[H|[H|H]]]; revert H.
  - unfold transformGrafanaWebhook. open_binds. intros [= <-].
    cbn [title source message].
    repeat split; try (now apply truthy_or_r).
    match goal with
    | E : or_else ?x _ = Ok _ |- _ =>
        unfold or_else in E; destruct (truthy x) eqn:T;
        [injection E as <-; exact T|]
    end.
    match goal with
    | E : bind (ToString ?x) _ = Ok _ |- _ =>
        destruct (ToString x); cbn [bind] in E; [|discriminate];
        now injection E as <-
    end.
  - unfold transformPrometheusWebhook. open_binds. intros [= <-].
    cbn [title source message]. repeat split; now apply truthy_or_r.
  - unfold transformZabbixWebhook. open_binds. intros [= <-].
    cbn [title source message]. repeat split; now apply truthy_or_r.
  - unfold transformGenericWebhook. open_binds. intros [= <-].
    cbn [title source message]. repeat split; now apply truthy_or_r.
Qed.

Lemma transformed_alert_has_texts_witness :
  exists a,
    detectAndTransformWebhook
      (VObject [("trigger", VObject [("priority", VString "4")]);
                ("event", VObject [("value", VString "1")])])
    = Ok (Some a)
    /\ truthy (title a) = true.
Proof.
  eexists. split; [reflexivity|].
  refine (proj1 (transformed_alert_has_texts
                   (VObject [("trigger", VObject [("priority", VString "4")]);
                             ("event", VObject [("value", VString "1")])])
                   _ eq_refl)).
Defined.

End Intake.

(* ------------------------------------------------------------------ *)
(** ** Access checks *)

Section AccessChecks.

Lemma split_without (sep : ascii) (w : string) :
  without sep w = true -> split sep w = [w].
Proof.
  induction w as [|c w IH]; cbn [without split]; [reflexivity|].
  intros H. apply andb_true_iff in H as [Hc Hw].
  apply negb_true_iff in Hc. now rewrite Hc, (IH Hw).
Qed.

Lemma split_at (sep : ascii) (w s : string) :
  without sep w = true ->
  split sep (w ++ String sep s) = w :: split sep s.
Proof.
  induction w as [|c w IH]; cbn [without split append].
  - intros _. now rewrite Ascii.eqb_refl.
  - intros H. apply andb_true_iff in H as [Hc Hw].
    apply negb_true_iff in Hc. now rewrite Hc, (IH Hw).
Qed.

(** A string is its first piece, alone or followed by the separator. *)
Lemma split_first (sep : ascii) (s : string) :
  exists w, without sep w = true
            /\ ((s = w /\ split sep s = [w])
                \/ exists s', s = w ++ String sep s'
                              /\ split sep s = w :: split sep s').
Proof.
  induction s as [|c s [w [Hw IH]]].
  - exists "". split; [reflexivity|]. left. split; reflexivity.
  - destruct (Ascii.eqb_spec c sep) as [->|Hc].
    + exists "". split; [reflexivity|]. right. exists s. split; [reflexivity|].
      cbn [split]. now rewrite Ascii.eqb_refl.
    + apply Ascii.eqb_neq in Hc. exists (String c w). split.
      * cbn [without]. now rewrite Hc, Hw.
      * destruct IH as [[-> Hs]|[s' [-> Hs]]].
        -- left. split; [reflexivity|]. cbn [split]. now rewrite Hc, Hs.
        -- right. exists s'. split; [reflexivity|].
           cbn [split append]. rewrite Hc.
           change ((w ++ String sep s')%string) with (w ++ String sep s').
           now rewrite Hs.
Qed.

Lemma append_nonempty (a b : string) (c : ascii) : a ++ String c b <> "".
Proof. destruct a; discriminate. Qed.

Lemma append_empty_r (a : string) : a ++ "" = a.
Proof. induction a as [|c a IH]; simpl; [reflexivity | now rewrite IH]. Qed.

(** X19: what the webhook check accepts.  With a non-empty secret, a
    request passes exactly when its Authorization header is some word
    without a blank, one blank, the secret, and then nothing or a blank
    followed by anything; the secret itself must be free of blanks.  The
    word before the secret is not looked at. *)
Theorem authenticateToken_accepts_iff
  (secret : string) (authorization : option string) :
  secret <> "" ->
  (authenticateToken (Some secret) authorization = next <->
   exists scheme tail,
     authorization = Some (scheme ++ " " ++ secret ++ tail)
     /\ without " " scheme = true
     /\ without " " secret = true
     /\ (tail = "" \/ exists rest, tail = String " " rest)).
Proof.
  intros Hne. unfold authenticateToken.
  rewrite (proj2 (String.eqb_neq secret "") Hne). split.
  - destruct authorization as [h|]; [|discriminate].
    destruct (h =? "")%string; [discriminate|].
    destruct (split_first " " h) as [w [Hw [[-> Hs]|[s' [-> Hs]]]]];
      rewrite Hs; cbn [nth_error]; [discriminate|].
    destruct (split_first " " s') as [w2 [Hw2 [[-> Hs2]|[s2 [-> Hs2]]]]];
      rewrite Hs2; cbn [nth_error];
      (destruct (w2 =? "")%string; [discriminate|]);
      (destruct (String.eqb_spec w2 secret) as [->|]; [|discriminate]);
      intros _.
    + exists w, "". rewrite append_empty_r. repeat split; auto.
    + exists w, (String " " s2). repeat split; eauto.
  - intros [scheme [tail [-> [Hw [Hs Htail]]]]].
    change (scheme ++ " " ++ secret ++ tail)
      with (scheme ++ String " " (secret ++ tail)).
    rewrite (proj2 (String.eqb_neq _ "") (append_nonempty scheme _ " ")).
    rewrite (split_at " " scheme _ Hw).
    assert (Hhead : exists more, split " " (secret ++ tail) = secret :: more).
    { destruct Htail as [->|[rest ->]].
      - rewrite append_empty_r, (split_without " " secret Hs). eauto.
      - rewrite (split_at " " secret rest Hs). eauto. }
    destruct Hhead as [more ->]. cbn [nth_error].
    now rewrite (proj2 (String.eqb_neq secret "") Hne), String.eqb_refl.
Qed.

Lemma authenticateToken_accepts_iff_witness :
  authenticateToken (Some "s3cret") (Some "Basic s3cret and more") = next.
Proof.
  apply (proj2 (authenticateToken_accepts_iff "s3cret"
                  (Some "Basic s3cret and more") ltac:(discriminate))).
  exists "Basic", " and more". repeat split. right. eauto.
Defined.

(** X20: a blank secret switches the check off.  Every request passes,
    whatever its header, exactly when [WEBHOOK_SECRET] is unset or consists
    of white space only (the empty string included). *)
Theorem blank_secret_disables_check (env : option string) :
  (forall authorization,
     authenticateToken (validateWebhookSecret env) authorization = next)
  <-> (env = None \/ exists s, env = Some s /\ trim s = "").
Proof.
  split.
  - intros H. destruct env as [s|]; [|now left]. right. exists s.
    split; [reflexivity|].
    destruct (String.eqb_spec (trim s) "") as [E|E]; [exact E|].
    specialize (H None). unfold validateWebhookSecret, authenticateToken in H.
    destruct (s =? "")%string eqn:Es.
    + apply String.eqb_eq in Es. subst s. now elim E.
    + rewrite (proj2 (String.eqb_neq _ _) E) in H. discriminate H.
  - intros [->|[s [-> E]]] authorization; [reflexivity|].
    unfold validateWebhookSecret. destruct (s =? "")%string; [reflexivity|].
    rewrite E. reflexivity.
Qed.

Lemma digit_not_space (c : ascii) : is_digit c = true -> is_space c = false.
Proof. destruct c as [[] [] [] [] [] [] [] []]; try discriminate; reflexivity. Qed.

Lemma digits_in_parse (s : string) (a : Z) :
  all_digits s = true ->
  digits_in dec_digit 10 (Some a) s = Some (parse_digits a s).
Proof.
  revert a. induction s as [|c s IH]; intros a Hd; [reflexivity|].
  cbn [all_digits] in Hd. apply andb_true_iff in Hd as [Hc Hs].
  cbn [digits_in parse_digits]. unfold dec_digit. rewrite Hc.
  now rewrite (IH _ Hs).
Qed.

(** [parseInt] reads a run of digits as [parse_digits] does. *)
Lemma parseInt_string_digits (s : string) :
  s <> "" -> all_digits s = true ->
  parseInt_string s = Some (parse_digits 0 s).
Proof.
  intros Hne Hd. destruct s as [|c s]; [congruence|].
  pose proof Hd as Hd'. cbn [all_digits] in Hd'.
  apply andb_true_iff in Hd' as [Hc Hs].
  unfold parseInt_string. cbn [trimStart]. rewrite (digit_not_space c Hc).
  assert (Hsign : (match String c s with
                   | String "-" r => (-1, r)
                   | String "+" r => (1, r)
                   | _ => (1, String c s)
                   end) = (1, String c s)).
  { destruct c as [[] [] [] [] [] [] [] []]; try discriminate; reflexivity. }
  rewrite Hsign. cbn [fst snd].
  assert (Hbody : (match String c s with
                   | String "0" (String x r) =>
                       if Ascii.eqb x "x" || Ascii.eqb x "X"
                       then digits_in hex_digit_value 16 None r
                       else digits_in dec_digit 10 None (String c s)
                   | _ => digits_in dec_digit 10 None (String c s)
                   end) = digits_in dec_digit 10 None (String c s)).
  { destruct s as [|x r].
    - destruct c as [[] [] [] [] [] [] [] []]; reflexivity.
    - cbn [all_digits] in Hs. apply andb_true_iff in Hs as [Hx _].
      assert (Hxx : Ascii.eqb x "x" || Ascii.eqb x "X" = false).
      { destruct x as [[] [] [] [] [] [] [] []]; try discriminate;
          reflexivity. }
      destruct c as [[] [] [] [] [] [] [] []]; try reflexivity.
      now rewrite Hxx. }
  rewrite Hbody. cbn [digits_in]. unfold dec_digit at 1. rewrite Hc.
  rewrite (digits_in_parse s _ Hs). cbn [option_map parse_digits].
  rewrite Hc. f_equal. now destruct (parse_digits _ s).
Qed.

Lemma authorized_entry_id (n : Z) :
  0 <= n -> authorized_entry (string_of_Z n) = string_of_Z n.
Proof.
  intros Hn. destruct (string_of_Z_digit_run n Hn) as [[Hne Hall] Hval].
  apply all_digits_spec in Hall.
  unfold authorized_entry.
  assert (Hat : startsWith "@" (string_of_Z n) = false).
  { destruct (string_of_Z n) as [|c s]; [congruence|].
    cbn [all_digits] in Hall. apply andb_true_iff in Hall as [Hc _].
    destruct c as [[] [] [] [] [] [] [] []]; try discriminate; reflexivity. }
  rewrite Hat, (parseInt_string_digits _ Hne Hall).
  rewrite parse_digits_value by exact Hall. rewrite Hval.
  f_equal; lia.
Qed.

Lemma authorized_entry_name (c : ascii) (rest : string) :
  is_letter c = true -> authorized_entry (String c rest) = String c rest.
Proof.
  intros Hc. unfold authorized_entry, startsWith, parseInt_string.
  destruct c as [[] [] [] [] [] [] [] []]; try discriminate; reflexivity.
Qed.

Lemma kept_entry (u piece : string) :
  In piece (split "," u) -> trim piece <> "" ->
  In (authorized_entry (trim piece)) (parseAuthorizedUsers (Some u)).
Proof.
  intros Hin Hne. unfold parseAuthorizedUsers.
  destruct (String.eqb_spec u "") as [->|_].
  - destruct Hin as [<-|[]]. now elim Hne.
  - apply in_map, filter_In. split; [now apply in_map|].
    destruct (trim piece); [congruence | reflexivity].
Qed.

(** X21: who is listed gets in.  When one of the comma-separated entries of
    [AUTHORIZED_USERS], white space around it aside, is the decimal id of
    the user (from 0 up to 2^53), or [@] followed by the user's username, or
    the username itself when it starts with a letter, [isUserAuthorized]
    answers true. *)
Theorem listed_user_is_authorized
  (u piece : string) (user_id : Z) (username : option string) :
  In piece (split "," u) ->
  (0 <= user_id < 2 ^ 53 /\ trim piece = string_of_Z user_id)
  \/ (exists name, username = Some name /\ name <> ""
                   /\ (trim piece = "@" ++ name
                       \/ (trim piece = name
                           /\ exists c rest, name = String c rest
                                             /\ is_letter c = true))) ->
  isUserAuthorized (parseAuthorizedUsers (Some u)) user_id username = true.
Proof.
  intros Hin Hcase.
  assert (Hentry : exists e,
            In e (parseAuthorizedUsers (Some u))
            /\ (e = string_of_Z user_id
                \/ exists name, username = Some name /\ name <> ""
                                /\ (e = "@" ++ name \/ e = name))).
  { destruct Hcase as [[[Hn _] E]|[name [Hu [Hne [E|[E [c [rest [Hc Hl]]]]]]]]].
    - exists (string_of_Z user_id). split; [|now left].
      rewrite <- (authorized_entry_id user_id Hn), <- E.
      apply kept_entry; [exact Hin|]. rewrite E.
      destruct (string_of_Z_digit_run user_id Hn) as [[H _] _]. exact H.
    - exists ("@" ++ name). split; [|right; eauto].
      change ("@" ++ name) with (authorized_entry ("@" ++ name)).
      rewrite <- E. apply kept_entry; [exact Hin|]. rewrite E. discriminate.
    - exists name. split; [|right; eauto].
      assert (Hk : authorized_entry name = name)
        by (rewrite Hc; now apply authorized_entry_name).
      rewrite <- Hk, <- E. apply kept_entry; [exact Hin|]. now rewrite E. }
  destruct Hentry as [e [He Hkind]].
  unfold isUserAuthorized.
  destruct (parseAuthorizedUsers (Some u)) as [|x l] eqn:EL; [reflexivity|].
  cbn [List.length Nat.eqb].
  destruct (includes (string_of_Z user_id) (x :: l)) eqn:I1; [reflexivity|].
  destruct Hkind as [-> | [name [-> [Hne [-> | ->]]]]].
  - apply includes_In in He. congruence.
  - rewrite (proj2 (String.eqb_neq name "") Hne).
    apply includes_In in He. now rewrite He.
  - rewrite (proj2 (String.eqb_neq name "") Hne).
    apply includes_In in He. rewrite He.
    destruct (includes ("@" ++ name) (x :: l)); reflexivity.
Qed.

Lemma listed_user_is_authorized_witness :
  isUserAuthorized (parseAuthorizedUsers (Some "@carol, 1001 ,dave")) 1001 None
  = true.
Proof.
  apply (listed_user_is_authorized "@carol, 1001 ,dave" " 1001 " 1001 None).
  - right. left. reflexivity.
  - left. split; [split; [lia | reflexivity] | reflexivity].
Defined.

(** X22: an empty list opens the bot.  [parseAuthorizedUsers] returns no
    entry exactly when [AUTHORIZED_USERS] is unset or all its
    comma-separated pieces are blank, and then [isUserAuthorized] answers
    true for every user. *)
Theorem blank_authorized_users_is_public (users : option string) :
  (parseAuthorizedUsers users = [] <->
   users = None
   \/ exists u, users = Some u
                /\ forall piece, In piece (split "," u) -> trim piece = "")
  /\ (parseAuthorizedUsers users = [] ->
      forall user_id username,
        isUserAuthorized (parseAuthorizedUsers users) user_id username = true).
Proof.
  split.
  - split.
    + intros H. destruct users as [u|]; [|now left]. right. exists u.
      split; [reflexivity|]. intros piece Hin.
      destruct (String.eqb_spec (trim piece) "") as [E|E]; [exact E|].
      pose proof (kept_entry u piece Hin E) as Hk. rewrite H in Hk.
      destruct Hk.
    + intros [->|[u [-> H]]]; [reflexivity|].
      unfold parseAuthorizedUsers. destruct (u =? "")%string; [reflexivity|].
      rewrite (filter_none _ (map trim (split "," u))); [reflexivity|].
      intros x Hx. apply in_map_iff in Hx as [piece [<- Hin]].
      now rewrite (H piece Hin).
  - intros H user_id username. now rewrite H.
Qed.

End AccessChecks.
